(** * Fire Finance: household admission control and real-time hub

    A shallow embedding of the admission middleware
    ([backend/src/middleware/userCap.js]), the household routes
    (invite / accept), the registration route ([backend/src/routes/auth.js])
    and the Socket.IO server ([backend/src/websocket.js]), together with the
    properties the design document states about them.

    JavaScript handlers are [async] functions: they run atomically between
    two [await]s.  A handler is therefore embedded as a finite tree of atomic
    actions on the shared world ([Prog]); running the tree to completion is
    the sequential behaviour, and running several trees under a schedule is
    the concurrent one. *)

From Stdlib Require Import ZArith Sorting.Sorted Sorting.Permutation.
From stdpp Require Import base strings list gmap sets pretty numbers sorting.

Local Open Scope Z_scope.
#[local] Set Warnings "-clear-no-such-hyp".

(** ** JavaScript values that reach the handlers *)

(** [!x] on a possibly missing string: [undefined] and [''] are falsy. *)
Definition truthy (x : option string) : bool :=
  match x with
  | None => false
  | Some s => bool_decide (s ≠ "")
  end.

(** [a || b]. *)
Definition js_or (a b : option string) : option string :=
  if truthy a then a else b.

(** [parseInt(x) || dflt] where [None] stands for [NaN]. *)
Definition num_or (x : option Z) (dflt : Z) : Z :=
  match x with
  | None => dflt
  | Some 0 => dflt
  | Some n => n
  end.

(** JSON bodies handed to [res.json]. *)
#[warnings="-register-all"]
Inductive JVal : Type :=
| JStr (s : string)
| JNum (n : Z)
| JBool (b : bool)
| JNull
| JObj (fields : list (string * JVal)).

Record Response : Type := mkResponse {
  status : Z;
  body : list (string * JVal)
}.

(** [body.key], [None] when the key is absent. *)
Fixpoint field (key : string) (b : list (string * JVal)) : option JVal :=
  match b with
  | [] => None
  | (k, v) :: rest => if bool_decide (k = key) then Some v else field key rest
  end.

(** ** Durable store *)

Record UserRow : Type := mkUser {
  u_id : string;
  u_email : string;
  u_username : string;
  u_first_name : string;
  u_last_name : string;
  u_role : string;
  u_is_active : bool;
  u_locked_until : option Z;
  u_email_verified : bool;
  (** [req.user?.householdId]: not a column of [users]; present only when
      some earlier layer attached it to the object. *)
  u_householdId : option string
}.

Record HouseholdRow : Type := mkHousehold {
  h_id : string;
  h_name : string;
  h_owner_id : string;
  h_is_active : bool
}.

Record MemberRow : Type := mkMember {
  m_id : string;
  m_household_id : string;
  m_user_id : string;
  m_role : string;
  m_permissions : string;
  m_can_invite : bool;
  m_joined_at : Z;
  m_is_active : bool;
  m_updated_at : option Z
}.

Inductive InvStatus : Type := Pending | Accepted | Expired.

Record InvitationRow : Type := mkInvitation {
  i_id : string;
  i_household_id : string;
  i_email : string;
  i_role : string;
  i_permissions : string;
  i_invited_by : string;
  i_token : string;
  i_status : InvStatus;
  i_expires_at : Z;
  i_created_at : Z;
  i_accepted_at : option Z
}.

Record ChatRow : Type := mkChat {
  c_id : string;
  c_room_type : string;
  c_room_id : string;
  c_user_id : string;
  c_message : string;
  c_parent_message_id : option string;
  c_created_at : Z
}.

Record PrefRow : Type := mkPref {
  p_user_id : string;
  p_push_notifications_enabled : bool
}.

Record Db : Type := mkDb {
  users : list UserRow;
  households : list HouseholdRow;
  household_members : list MemberRow;
  household_invitations : list InvitationRow;
  chat_messages : list ChatRow;
  user_preferences : list PrefRow
}.

#[global] Instance InvStatus_eq_dec : EqDecision InvStatus.
Proof. solve_decision. Defined.

(** ** Socket.IO hub *)

Record HouseholdInfo : Type := mkHouseholdInfo {
  hi_id : string;
  hi_name : string;
  hi_role : string;
  hi_permissions : string
}.

(** [socket.user], filled by the authentication middleware. *)
Record SocketUser : Type := mkSocketUser {
  su_id : string;
  su_email : string;
  su_username : string;
  su_firstName : string;
  su_lastName : string;
  su_role : string;
  su_households : list HouseholdInfo
}.

Record Socket : Type := mkSocket {
  sock_id : string;
  sock_user : SocketUser
}.

Record UserInfo : Type := mkUserInfo {
  ui_id : string;
  ui_username : string;
  ui_firstName : string;
  ui_lastName : string
}.

Record MessageData : Type := mkMessageData {
  md_id : string;
  md_roomType : string;
  md_roomId : string;
  md_user : UserInfo;
  md_message : string;
  md_parentMessageId : option string;
  md_timestamp : Z
}.

(** Outbound events (server to client). *)
Inductive Event : Type :=
| user_online (userId username : string) (timestamp : Z)
| user_offline (userId username : string) (timestamp : Z)
| error_event (message : string)
| collab_user_joined (user : UserInfo) (timestamp : Z)
| collab_user_left (userId username : string) (timestamp : Z)
| collab_collaborators (documentType documentId : string)
    (collaborators : list UserInfo)
| collab_highlight (userId username : string) (itemId note : option string)
    (timestamp : Z)
| collab_highlight_remove (userId : string) (itemId : option string)
| chat_message (m : MessageData)
| chat_history (roomType roomId : string) (messages : list MessageData)
| notification (payload : string)
| collab_edit (userId username operation : string) (data : option string)
    (timestamp : Z)
| chat_user_typing (userId username : string) (isTyping : option bool)
    (timestamp : Z)
| notification_updated (notificationId : option string) (readAt : Z)
| data_update (type id data : string) (timestamp : Z).

(** Who an [emit] is addressed to. *)
Inductive Target : Type :=
| ToSocket (sid : string)                 (* socket.emit *)
| ToRoom (room : string)                  (* io.to(room).emit *)
| ToRoomExcept (room sid : string)        (* socket.to(room).emit *)
| ToAllExcept (sid : string).             (* socket.broadcast.emit *)

(** One call of [emit], with the sockets it was delivered to. *)
Record Emission : Type := mkEmission {
  em_target : Target;
  em_event : Event;
  em_recipients : list string
}.

(** The closure handed to [setTimeout] by [collab:highlight]. *)
Inductive TimerAction : Type :=
| HighlightRemove (sid room userId : string) (itemId : option string).

Record Timer : Type := mkTimer {
  t_due : Z;
  t_action : TimerAction
}.

Record Hub : Type := mkHub {
  sockets : gmap string Socket;            (* io.sockets.sockets *)
  rooms : gmap string (gset string);       (* io.sockets.adapter.rooms *)
  emitted : list Emission;                 (* oldest first *)
  timers : list Timer;
  subscribed : list string                 (* pub/sub channels *)
}.

Record Email : Type := mkEmail {
  e_to : string;
  e_subject : string;
  e_template : string
}.

(** ** The world a handler runs in *)

Record World : Type := mkWorld {
  db : Db;
  hub : Hub;
  sent_emails : list Email;
  pushes : list (string * string);         (* user id, message id *)
  (** Outcome of the coming store round-trips: [true] makes the next one
      reject.  An empty plan means every round-trip succeeds. *)
  faults : list bool;
  clock : Z;                               (* new Date() / Date.now(), ms *)
  next_uuid : nat
}.

Definition set_db (f : Db → Db) (w : World) : World :=
  mkWorld (f (db w)) (hub w) (sent_emails w) (pushes w) (faults w) (clock w)
          (next_uuid w).

Definition set_hub (f : Hub → Hub) (w : World) : World :=
  mkWorld (db w) (f (hub w)) (sent_emails w) (pushes w) (faults w) (clock w)
          (next_uuid w).

Definition set_faults (fs : list bool) (w : World) : World :=
  mkWorld (db w) (hub w) (sent_emails w) (pushes w) fs (clock w)
          (next_uuid w).

Definition set_clock (t : Z) (w : World) : World :=
  mkWorld (db w) (hub w) (sent_emails w) (pushes w) (faults w) t
          (next_uuid w).

Definition bump_uuid (w : World) : World :=
  mkWorld (db w) (hub w) (sent_emails w) (pushes w) (faults w) (clock w)
          (S (next_uuid w)).

Definition add_email (e : Email) (w : World) : World :=
  mkWorld (db w) (hub w) (sent_emails w ++ [e]) (pushes w) (faults w) (clock w)
          (next_uuid w).

Definition add_push (p : string * string) (w : World) : World :=
  mkWorld (db w) (hub w) (sent_emails w) (pushes w ++ [p]) (faults w) (clock w)
          (next_uuid w).

Definition set_members (f : list MemberRow → list MemberRow) (d : Db) : Db :=
  mkDb (users d) (households d) (f (household_members d))
       (household_invitations d) (chat_messages d) (user_preferences d).

Definition set_invitations (f : list InvitationRow → list InvitationRow)
    (d : Db) : Db :=
  mkDb (users d) (households d) (household_members d)
       (f (household_invitations d)) (chat_messages d) (user_preferences d).

Definition set_users (f : list UserRow → list UserRow) (d : Db) : Db :=
  mkDb (f (users d)) (households d) (household_members d)
       (household_invitations d) (chat_messages d) (user_preferences d).

Definition set_households (f : list HouseholdRow → list HouseholdRow)
    (d : Db) : Db :=
  mkDb (users d) (f (households d)) (household_members d)
       (household_invitations d) (chat_messages d) (user_preferences d).

Definition set_chat (f : list ChatRow → list ChatRow) (d : Db) : Db :=
  mkDb (users d) (households d) (household_members d)
       (household_invitations d) (f (chat_messages d)) (user_preferences d).

(** ** Asynchronous programs *)

Inductive Err : Type :=
| DbError                      (* a rejected store round-trip *)
| ConstraintError              (* unique-key violation *)
| ReferenceError (name : string)
| TypeError.

Inductive Outcome (T : Type) : Type :=
| Resolved (v : T)
| Rejected (e : Err).
Arguments Resolved {T} v.
Arguments Rejected {T} e.

(** A handler: it returns, throws, or awaits one atomic action on the world
    and goes on with what the action settled to. *)
Inductive Prog (A : Type) : Type :=
| Ret (a : A)
| Throw (e : Err)
| Await {T : Type} (act : World → Outcome T * World) (k : Outcome T → Prog A).
Arguments Ret {A} a.
Arguments Throw {A} e.
Arguments Await {A T} act k.

(** [await act]: a rejection becomes a thrown exception. *)
Definition await {T : Type} (act : World → Outcome T * World) : Prog T :=
  Await act (λ o, match o with Resolved v => Ret v | Rejected e => Throw e end).

Fixpoint prog_bind {A B : Type} (f : A → Prog B) (p : Prog A) : Prog B :=
  match p with
  | Ret a => f a
  | Throw e => Throw e
  | Await act k => Await act (λ o, prog_bind f (k o))
  end.

#[global] Instance Prog_ret : MRet Prog := λ A a, Ret a.
#[global] Instance Prog_bind : MBind Prog := λ A B f p, prog_bind f p.

(** [try { p } catch (error) { h error }]. *)
Fixpoint try_catch {A : Type} (p : Prog A) (h : Err → Prog A) : Prog A :=
  match p with
  | Ret a => Ret a
  | Throw e => h e
  | Await act k => Await act (λ o, try_catch (k o) h)
  end.

(** Sequential behaviour: nothing else touches the world in between. *)
Fixpoint run {A : Type} (p : Prog A) (w : World) : Outcome A * World :=
  match p with
  | Ret a => (Resolved a, w)
  | Throw e => (Rejected e, w)
  | Await act k => let '(o, w') := act w in run (k o) w'
  end.

(** One atomic step of a handler. *)
Definition step {A : Type} (p : Prog A) (w : World) : Prog A * World :=
  match p with
  | Await act k => let '(o, w') := act w in (k o, w')
  | _ => (p, w)
  end.

(** Several requests in flight; the schedule names, step by step, the
    request whose pending round-trip the store serves next. *)
Fixpoint interleave {A : Type} (sched : list nat) (pool : list (Prog A))
    (w : World) : list (Prog A) * World :=
  match sched with
  | [] => (pool, w)
  | i :: rest =>
      match pool !! i with
      | Some p => let '(p', w') := step p w in
                  interleave rest (<[i := p']> pool) w'
      | None => interleave rest pool w
      end
  end.

(** The response a finished request has sent. *)
Definition finished {A : Type} (p : Prog A) : option A :=
  match p with Ret a => Some a | _ => None end.

(** A store round-trip; the fault plan decides whether it rejects. *)
Definition query {T : Type} (f : World → Outcome T * World)
    : World → Outcome T * World :=
  λ w, match faults w with
       | true :: fs => (Rejected DbError, set_faults fs w)
       | false :: fs => f (set_faults fs w)
       | [] => f w
       end.

(** A synchronous effect that cannot fail. *)
Definition perform (f : World → World) : Prog unit :=
  await (λ w, (Resolved (), f w)).

(** A synchronous read of the world. *)
Definition peek {T : Type} (f : World → T) : Prog T :=
  await (λ w, (Resolved (f w), w)).

(** [uuidv4()]. *)
Definition uuid_of (n : nat) : string := "uuid-" +:+ pretty n.

(** ** Store round-trips (knex queries)

    The server is up: [initializeDatabase] has run, so [getDatabase()]
    returns the handle and never throws.  A round-trip itself may still
    reject; the fault plan of the world says which ones do.  The
    [household_members] table has the [is_active] column every query of
    these modules filters on, with default [true]. *)

Definition is_active_in (hid : string) (m : MemberRow) : Prop :=
  m_household_id m = hid ∧ m_is_active m = true.

#[global] Instance is_active_in_dec hid m : Decision (is_active_in hid m).
Proof. unfold is_active_in. apply _. Defined.

(** [db('household_members').where({household_id, is_active: true}).count()] *)
Definition activeMemberCount (hid : string) (d : Db) : Z :=
  Z.of_nat (length (filter (is_active_in hid) (household_members d))).

Definition count_active (hid : string) : World → Outcome Z * World :=
  query (λ w, (Resolved (activeMemberCount hid (db w)), w)).

(** [.where(P).first()] *)
Definition first_where {A : Type} (P : A → Prop) `{∀ x, Decision (P x)}
    (rows : list A) : option A :=
  head (filter P rows).

Definition lower_char (c : Ascii.ascii) : Ascii.ascii :=
  let n := Ascii.nat_of_ascii c in
  if ((65 <=? n)%nat && (n <=? 90)%nat)%bool
  then Ascii.ascii_of_nat (n + 32) else c.

(** [s.toLowerCase()] on ASCII text. *)
Fixpoint toLowerCase (s : string) : string :=
  match s with
  | EmptyString => EmptyString
  | String c rest => String (lower_char c) (toLowerCase rest)
  end.

Definition find_user_by_email (email : string) (d : Db) : option UserRow :=
  first_where (λ u, u_email u = email) (users d).

Definition first_user_by_email (email : string)
    : World → Outcome (option UserRow) * World :=
  query (λ w, (Resolved (find_user_by_email email (db w)), w)).

Definition find_member (hid uid : string) (d : Db) : option MemberRow :=
  first_where (λ m, m_household_id m = hid ∧ m_user_id m = uid)
              (household_members d).

Definition first_member (hid uid : string)
    : World → Outcome (option MemberRow) * World :=
  query (λ w, (Resolved (find_member hid uid (db w)), w)).

Definition first_active_member (uid hid : string)
    : World → Outcome (option MemberRow) * World :=
  query (λ w, (Resolved (first_where
                 (λ m, m_user_id m = uid ∧ m_household_id m = hid
                       ∧ m_is_active m = true)
                 (household_members (db w))), w)).

Definition update_where {A : Type} (P : A → Prop) `{∀ x, Decision (P x)}
    (f : A → A) (rows : list A) : list A :=
  (λ r, if decide (P r) then f r else r) <$> rows.

(** The update of the invite route's reactivation branch. *)
Definition reactivate (role permissions : string) (t : Z) (m : MemberRow)
    : MemberRow :=
  mkMember (m_id m) (m_household_id m) (m_user_id m) role permissions
           (m_can_invite m) (m_joined_at m) true (Some t).

Definition reactivate_member (id role permissions : string)
    : World → Outcome unit * World :=
  query (λ w, (Resolved (),
    set_db (set_members
      (update_where (λ m, m_id m = id) (reactivate role permissions (clock w))))
      w)).

(** [household_members] carries [unique(household_id, user_id)]
    (migration 001): an insert that repeats the pair rejects. *)
Definition member_exists (hid uid : string) (rows : list MemberRow) : bool :=
  bool_decide (Exists (λ m, m_household_id m = hid ∧ m_user_id m = uid) rows).

Definition insert_member (mk : string → Z → MemberRow)
    : World → Outcome unit * World :=
  query (λ w,
    let row := mk (uuid_of (next_uuid w)) (clock w) in
    if member_exists (m_household_id row) (m_user_id row)
         (household_members (db w))
    then (Rejected ConstraintError, bump_uuid w)
    else (Resolved (),
          set_db (set_members (λ rows, rows ++ [row])) (bump_uuid w))).

(** The accept route's lookup.  The source passes
    [{ id, status: 'pending', expires_at: '>', new Date() }] to [where];
    it is read as the filter its error message names: the pending,
    unexpired invitation with that id. *)
Definition find_pending_invitation (id : string) (t : Z) (d : Db)
    : option InvitationRow :=
  first_where (λ i, i_id i = id ∧ i_status i = Pending ∧ t < i_expires_at i)
              (household_invitations d).

Definition first_pending_invitation (id : string)
    : World → Outcome (option InvitationRow) * World :=
  query (λ w, (Resolved (find_pending_invitation id (clock w) (db w)), w)).

Definition mark_accepted (t : Z) (i : InvitationRow) : InvitationRow :=
  mkInvitation (i_id i) (i_household_id i) (i_email i) (i_role i)
    (i_permissions i) (i_invited_by i) (i_token i) Accepted (i_expires_at i)
    (i_created_at i) (Some t).

Definition accept_invitation (id : string) : World → Outcome unit * World :=
  query (λ w, (Resolved (),
    set_db (set_invitations
      (update_where (λ i, i_id i = id) (mark_accepted (clock w)))) w)).

Definition insert_invitation (mk : Z → InvitationRow)
    : World → Outcome unit * World :=
  query (λ w, (Resolved (),
    set_db (set_invitations (λ rows, rows ++ [mk (clock w)])) w)).

Definition first_household (hid : string)
    : World → Outcome (option HouseholdRow) * World :=
  query (λ w, (Resolved (first_where (λ h, h_id h = hid) (households (db w))), w)).

Definition first_user_by_email_or_username (email username : string)
    : World → Outcome (option UserRow) * World :=
  query (λ w, (Resolved (first_where
                 (λ u, u_email u = email ∨ u_username u = username)
                 (users (db w))), w)).

Definition insert_user (mk : string → UserRow)
    : World → Outcome UserRow * World :=
  query (λ w,
    let row := mk (uuid_of (next_uuid w)) in
    (Resolved row, set_db (set_users (λ rows, rows ++ [row])) (bump_uuid w))).

Definition insert_household (mk : string → HouseholdRow)
    : World → Outcome HouseholdRow * World :=
  query (λ w,
    let row := mk (uuid_of (next_uuid w)) in
    (Resolved row,
     set_db (set_households (λ rows, rows ++ [row])) (bump_uuid w))).

(** Verified admins of a household, for the limit alert. *)
Definition verified_admins (hid : string) (d : Db) : list UserRow :=
  m ← filter (λ m, m_household_id m = hid ∧ m_role m = "admin"
                    ∧ m_is_active m = true) (household_members d);
  filter (λ u, u_id u = m_user_id m ∧ u_email_verified u = true) (users d).

Definition select_verified_admins (hid : string)
    : World → Outcome (list UserRow) * World :=
  query (λ w, (Resolved (verified_admins hid (db w)), w)).

(** [sendEmail(...)]: an external round-trip like the store's. *)
Definition sendEmail (e : Email) : World → Outcome unit * World :=
  query (λ w, (Resolved (), add_email e w)).

(** ** HTTP requests and Express plumbing *)

(** What [passport.authenticate('jwt')] hands to its callback. *)
Inductive PassportResult : Type :=
| PassportError
| PassportNoUser
| PassportUser (u : UserRow).

Record Body : Type := mkBody {
  b_householdId : option string;
  b_email : option string;
  b_username : option string;
  b_password : option string;
  b_firstName : option string;
  b_lastName : option string;
  b_phone : option string;
  b_role : option string;
  b_permissions : option string
}.

Record Request : Type := mkRequest {
  req_passport : PassportResult;
  req_user : option UserRow;
  req_body : Body;
  params_householdId : option string;
  params_invitationId : string;
  req_userCount : option Z;
  req_maxUsers : option Z;
  req_householdMembership : option MemberRow
}.

Definition with_user (u : UserRow) (r : Request) : Request :=
  mkRequest (req_passport r) (Some u) (req_body r) (params_householdId r)
    (params_invitationId r) (req_userCount r) (req_maxUsers r)
    (req_householdMembership r).

Definition with_counts (count maxUsers : Z) (r : Request) : Request :=
  mkRequest (req_passport r) (req_user r) (req_body r) (params_householdId r)
    (params_invitationId r) (Some count) (Some maxUsers)
    (req_householdMembership r).

Definition with_membership (m : MemberRow) (r : Request) : Request :=
  mkRequest (req_passport r) (req_user r) (req_body r) (params_householdId r)
    (params_invitationId r) (req_userCount r) (req_maxUsers r) (Some m).

(** [res.status(st).json({ error: msg })] *)
Definition error_response (st : Z) (msg : string) : Response :=
  mkResponse st [("error", JStr msg)].

(** A middleware answers the request itself or calls [next()]. *)
Definition Middleware : Type := Request → Prog (Response + Request).
Definition Handler : Type := Request → Prog Response.

Fixpoint route (ms : list Middleware) (h : Handler) (req : Request)
    : Prog Response :=
  match ms with
  | [] => h req
  | m :: rest =>
      r ← m req;
      match r with
      | inl resp => Ret resp
      | inr req' => route rest h req'
      end
  end.

Fixpoint for_each {A : Type} (xs : list A) (f : A → Prog unit) : Prog unit :=
  match xs with
  | [] => Ret ()
  | x :: rest => _ ← f x; for_each rest f
  end.

(** ** middleware/auth.js *)

Definition authenticateJWT : Middleware := λ req,
  match req_passport req with
  | PassportError => Ret (inl (error_response 500 "Authentication error"))
  | PassportNoUser =>
      Ret (inl (error_response 401 "Unauthorized - Invalid or expired token"))
  | PassportUser user =>
      if negb (u_is_active user)
      then Ret (inl (error_response 401 "Account is deactivated"))
      else
        match u_locked_until user with
        | Some until =>
            t ← peek clock;
            if t <? until
            then Ret (inl (error_response 401 "Account is temporarily locked"))
            else Ret (inr (with_user user req))
        | None => Ret (inr (with_user user req))
        end
  end.

Definition authorize (roles : list string) : Middleware := λ req,
  match req_user req with
  | None => Ret (inl (error_response 401 "Unauthorized"))
  | Some user =>
      if bool_decide (roles = []) then Ret (inr req)
      else if bool_decide (u_role user ∈ roles) then Ret (inr req)
      else Ret (inl (error_response 403 "Insufficient permissions"))
  end.

Definition checkHouseholdMembership (requiredPermission : string)
    : Middleware := λ req,
  try_catch
    (match req_user req with
     | None => Throw TypeError
     | Some user =>
         let userId := u_id user in
         let householdId :=
           js_or (params_householdId req) (b_householdId (req_body req)) in
         if negb (truthy householdId)
         then Ret (inl (error_response 400 "Household ID is required"))
         else
           membership ← await (first_active_member userId (default "" householdId));
           match membership with
           | None =>
               Ret (inl (error_response 403 "Not a member of this household"))
           | Some membership =>
               if bool_decide (requiredPermission = "write"
                               ∧ m_permissions membership = "read_only")
               then Ret (inl (error_response 403
                                "Read-only access for this household"))
               else if bool_decide (requiredPermission = "full"
                                    ∧ m_role membership ≠ "admin")
               then Ret (inl (error_response 403 "Admin access required"))
               else Ret (inr (with_membership membership req))
           end
     end)
    (λ _, Ret (inl (error_response 500 "Internal server error"))).

(** ** middleware/userCap.js *)

(** [parseInt(process.env.MAX_USERS) || 5]; the argument is what
    [parseInt] returned, [None] for [NaN]. *)
Definition maxUsers_of (MAX_USERS : option Z) : Z := num_or MAX_USERS 5.

Definition user_limit_body (currentUserCount maxUsers : Z)
    : list (string * JVal) :=
  [("error", JStr "User limit reached");
   ("message", JStr ("Maximum " +:+ pretty maxUsers +:+
      " users allowed per household. Please contact an admin to remove inactive users."));
   ("currentUsers", JNum currentUserCount);
   ("maxUsers", JNum maxUsers)].

Definition checkUserCap (MAX_USERS : option Z) : Middleware := λ req,
  try_catch
    (let householdId :=
       js_or (js_or (b_householdId (req_body req)) (params_householdId req))
             (req_user req ≫= u_householdId) in
     if negb (truthy householdId)
     then Ret (inl (error_response 400 "Household ID is required"))
     else
       currentUserCount ← await (count_active (default "" householdId));
       let maxUsers := maxUsers_of MAX_USERS in
       if maxUsers <=? currentUserCount
       then Ret (inl (mkResponse 403 (user_limit_body currentUserCount maxUsers)))
       else Ret (inr (with_counts currentUserCount maxUsers req)))
    (λ _, Ret (inl (error_response 500 "Failed to check user limit"))).

Record Capacity : Type := mkCapacity {
  canAdd : bool;
  currentUsers : Z;
  maxUsers : Z;
  remainingSlots : Z
}.

Definition canAddUserToHousehold (MAX_USERS : option Z) (householdId : string)
    : Prog Capacity :=
  try_catch
    (currentUserCount ← await (count_active householdId);
     let maxUsers := maxUsers_of MAX_USERS in
     Ret (mkCapacity (currentUserCount <? maxUsers) currentUserCount maxUsers
                     (maxUsers - currentUserCount)))
    (λ error, Throw error).

(** [(currentCount / maxCount) * 100 >= 80] without floating point. *)
Definition utilization_ge_80 (currentCount maxCount : Z) : bool :=
  if 0 <? maxCount then 80 * maxCount <=? 100 * currentCount
  else if maxCount =? 0 then 0 <? currentCount
  else 100 * currentCount <=? 80 * maxCount.

Definition sendUserLimitAlerts (householdId : string)
    (currentCount maxCount : Z) : Prog unit :=
  try_catch
    (if utilization_ge_80 currentCount maxCount
     then
       admins ← await (select_verified_admins householdId);
       for_each admins (λ admin,
         await (sendEmail (mkEmail (u_email admin)
                  "Fire Finance - User Limit Alert" "user-limit-warning")))
     else Ret ())
    (λ _, Ret ()).

(** ** routes/households.js *)

Definition user_json (u : UserRow) : JVal :=
  JObj [("id", JStr (u_id u)); ("email", JStr (u_email u));
        ("username", JStr (u_username u));
        ("first_name", JStr (u_first_name u));
        ("last_name", JStr (u_last_name u)); ("role", JStr (u_role u))].

(** [jwt.sign(...)] in the households router.  The module requires express,
    uuid, the database, the middlewares, the logger and the email service;
    it never binds [jwt], so evaluating the call throws. *)
Definition jwt_sign_unbound : Prog string := Throw (ReferenceError "jwt").

Definition ms_7_days : Z := 7 * 24 * 60 * 60 * 1000.

(** The final handler of [POST /:householdId/invite].  Express binds
    [:householdId] for every request the route matches, and the guards
    before the handler have set [req.user]. *)
Definition invite_handler : Handler := λ req,
  try_catch
    (match params_householdId req, req_user req with
     | Some householdId, Some user =>
       let email := b_email (req_body req) in
       let role := default "member" (b_role (req_body req)) in
       let permissions := default "read_write" (b_permissions (req_body req)) in
       let invitedBy := u_id user in
       match email with
       | None | Some "" => Ret (error_response 400 "Email is required")
       | Some email =>
         existingUser ← await (first_user_by_email (toLowerCase email));
         reactivated ←
           match existingUser with
           | Some existingUser =>
               existingMember ← await (first_member householdId (u_id existingUser));
               match existingMember with
               | Some existingMember =>
                   if m_is_active existingMember
                   then Ret (Some (error_response 400
                          "User is already a member of this household"))
                   else
                     _ ← await (reactivate_member (m_id existingMember)
                                  role permissions);
                     Ret (Some (mkResponse 200
                       [("message", JStr "User reactivated successfully");
                        ("user", user_json existingUser)]))
               | None => Ret None
               end
           | None => Ret None
           end;
         match reactivated with
         | Some response => Ret response
         | None =>
           invitationId ← await (λ w,
             (Resolved (uuid_of (next_uuid w)), bump_uuid w));
           invitationToken ← jwt_sign_unbound;
           _ ← await (insert_invitation (λ t,
                 mkInvitation invitationId householdId (toLowerCase email)
                   role permissions invitedBy invitationToken Pending
                   (t + ms_7_days) t None));
           household ← await (first_household householdId);
           match household with
           | None => Throw TypeError
           | Some household =>
             _ ← await (sendEmail (mkEmail email
                   ("Invitation to join " +:+ h_name household +:+
                    " on Fire Finance") "household-invitation"));
             Ret (mkResponse 200
               [("message", JStr "Invitation sent successfully");
                ("invitationId", JStr invitationId);
                ("remainingSlots",
                 match req_maxUsers req, req_userCount req with
                 | Some mx, Some n => JNum (mx - (n + 1))
                 | _, _ => JNull
                 end)])
           end
         end
       end
     | _, _ => Throw TypeError
     end)
    (λ _, Ret (error_response 500 "Failed to send invitation")).

Definition invite_route (MAX_USERS : option Z) : Handler :=
  route [authenticateJWT; authorize ["admin"];
         checkHouseholdMembership "full"; checkUserCap MAX_USERS]
        invite_handler.

(** The answer of the accept route when the household is full. *)
Definition accept_denied (maxUsers : Z) : Response :=
  mkResponse 403
    [("error", JStr "User limit reached");
     ("message", JStr ("Maximum " +:+ pretty maxUsers +:+
                       " users allowed per household."))].

(** The membership row the accept route inserts. *)
Definition accepted_member (invitation : InvitationRow) (userId : string)
    (id : string) (t : Z) : MemberRow :=
  mkMember id (i_household_id invitation) userId (i_role invitation)
    (i_permissions invitation) (bool_decide (i_role invitation = "admin"))
    t true None.

(** The final handler of [POST /invitations/:invitationId/accept]. *)
Definition accept_handler (MAX_USERS : option Z) : Handler := λ req,
  try_catch
    (match req_user req with
     | None => Throw TypeError
     | Some user =>
       let invitationId := params_invitationId req in
       let userId := u_id user in
       invitation ← await (first_pending_invitation invitationId);
       match invitation with
       | None => Ret (error_response 400 "Invalid or expired invitation")
       | Some invitation =>
         if bool_decide (u_email user ≠ i_email invitation)
         then Ret (error_response 403
                     "Invitation is for a different email address")
         else
           capacityCheck ←
             canAddUserToHousehold MAX_USERS (i_household_id invitation);
           if negb (canAdd capacityCheck)
           then Ret (accept_denied (maxUsers capacityCheck))
           else
             _ ← await (insert_member (accepted_member invitation userId));
             _ ← await (accept_invitation invitationId);
             _ ← (if maxUsers capacityCheck - 1 <=? currentUsers capacityCheck + 1
                  then sendUserLimitAlerts (i_household_id invitation)
                         (currentUsers capacityCheck + 1)
                         (maxUsers capacityCheck)
                  else Ret ());
             Ret (mkResponse 200
               [("message", JStr "Invitation accepted successfully");
                ("householdId", JStr (i_household_id invitation))])
       end
     end)
    (λ _, Ret (error_response 500 "Failed to accept invitation")).

Definition accept_route (MAX_USERS : option Z) : Handler :=
  route [authenticateJWT] (accept_handler MAX_USERS).

(** ** routes/auth.js: registration *)

Definition String_length (s : string) : Z := Z.of_nat (String.length s).

(** The final handler of [POST /register]. *)
Definition register_handler : Handler := λ req,
  try_catch
    (let b := req_body req in
     match b_email b, b_username b, b_password b, b_firstName b, b_lastName b with
     | Some email, Some username, Some password, Some firstName, Some lastName =>
       if negb (truthy (Some email) && truthy (Some username)
                && truthy (Some password) && truthy (Some firstName)
                && truthy (Some lastName))
       then Ret (error_response 400 "All required fields must be provided")
       else if String_length password <? 8
       then Ret (error_response 400
                   "Password must be at least 8 characters long")
       else
         existingUser ← await (first_user_by_email_or_username
                                 (toLowerCase email) username);
         match existingUser with
         | Some _ => Ret (error_response 400
                       "User already exists with this email or username")
         | None =>
           newUser ← await (insert_user (λ id,
             mkUser id (toLowerCase email) username firstName lastName "user"
                    true None false None));
           household ← await (insert_household (λ id,
             mkHousehold id (firstName +:+ "'s Household") (u_id newUser) true));
           (* [is_active] is not supplied: the column default applies. *)
           _ ← await (insert_member (λ id t,
                 mkMember id (h_id household) (u_id newUser) "admin" "full"
                          true t true None));
           _ ← await (sendEmail (mkEmail (u_email newUser)
                 "Welcome to Fire Finance! Please verify your email" "welcome"));
           _ ← match req_userCount req, req_maxUsers req with
               | Some n, Some mx =>
                   if mx - 1 <=? n
                   then sendUserLimitAlerts (h_id household) (n + 1) mx
                   else Ret ()
               | _, _ => Ret ()
               end;
           Ret (mkResponse 201
             [("message", JStr
                "User registered successfully. Please check your email for verification.");
              ("user", JObj
                [("id", JStr (u_id newUser)); ("email", JStr (u_email newUser));
                 ("username", JStr (u_username newUser));
                 ("firstName", JStr (u_first_name newUser));
                 ("lastName", JStr (u_last_name newUser));
                 ("role", JStr (u_role newUser));
                 ("household", JObj [("id", JStr (h_id household));
                                     ("name", JStr (h_name household))])])])
         end
     | _, _, _, _, _ =>
         Ret (error_response 400 "All required fields must be provided")
     end)
    (λ _, Ret (error_response 500 "Registration failed")).

Definition register_route (MAX_USERS : option Z) : Handler :=
  route [checkUserCap MAX_USERS] register_handler.

(** ** websocket.js: rooms and emits *)

Definition room_members (room : string) (h : Hub) : gset string :=
  default ∅ (rooms h !! room).

(** The sockets an [emit] reaches. *)
Definition recipients (h : Hub) (t : Target) : list string :=
  match t with
  | ToSocket sid => if decide (sid ∈ dom (sockets h)) then [sid] else []
  | ToRoom room => elements (room_members room h)
  | ToRoomExcept room sid => elements (room_members room h ∖ {[sid]})
  | ToAllExcept sid => elements (dom (sockets h) ∖ {[sid]})
  end.

Definition emit_hub (t : Target) (ev : Event) (h : Hub) : Hub :=
  mkHub (sockets h) (rooms h)
        (emitted h ++ [mkEmission t ev (recipients h t)])
        (timers h) (subscribed h).

Definition emit (t : Target) (ev : Event) : World → World :=
  set_hub (emit_hub t ev).

(** [socket.join(room)] *)
Definition join (sid room : string) : World → World :=
  set_hub (λ h, mkHub (sockets h)
                  (<[room := {[sid]} ∪ room_members room h]> (rooms h))
                  (emitted h) (timers h) (subscribed h)).

(** [socket.leave(room)]; an emptied room disappears. *)
Definition leave_hub (sid room : string) (h : Hub) : Hub :=
  let rest := room_members room h ∖ {[sid]} in
  mkHub (sockets h)
        (if decide (rest = ∅) then delete room (rooms h)
         else <[room := rest]> (rooms h))
        (emitted h) (timers h) (subscribed h).

Definition leave (sid room : string) : World → World :=
  set_hub (leave_hub sid room).

(** Timers are kept by due time; equal due times fire in creation order. *)
Fixpoint insert_timer (tm : Timer) (ts : list Timer) : list Timer :=
  match ts with
  | [] => [tm]
  | t :: rest =>
      if t_due tm <? t_due t then tm :: t :: rest
      else t :: insert_timer tm rest
  end.

(** [setTimeout(callback, delay)] *)
Definition setTimeout (a : TimerAction) (delay : Z) : World → World :=
  λ w, set_hub (λ h, mkHub (sockets h) (rooms h) (emitted h)
                       (insert_timer (mkTimer (clock w + delay) a) (timers h))
                       (subscribed h)) w.

(** Running the callback of a timer. *)
Definition fire (a : TimerAction) : World → World :=
  match a with
  | HighlightRemove sid room userId itemId =>
      emit (ToRoomExcept room sid) (collab_highlight_remove userId itemId)
  end.

(** Time passes until [t]: the timers due by then fire, earliest first. *)
Definition advance (t : Z) (w : World) : World :=
  let due := filter (λ tm, t_due tm ≤ t) (timers (hub w)) in
  let pending := filter (λ tm, ¬ t_due tm ≤ t) (timers (hub w)) in
  foldl (λ w' tm, fire (t_action tm) w')
        (set_clock (Z.max t (clock w))
           (set_hub (λ h, mkHub (sockets h) (rooms h) (emitted h) pending
                            (subscribed h)) w))
        due.

(** Template literals print a missing value as [undefined]. *)
Definition tmpl (x : option string) : string := default "undefined" x.

Definition userInfo (u : SocketUser) : UserInfo :=
  mkUserInfo (su_id u) (su_username u) (su_firstName u) (su_lastName u).

(** ** websocket.js: connection gateway *)

Record Handshake : Type := mkHandshake {
  auth_token : option string
}.

Definition first_active_user (id : string)
    : World → Outcome (option UserRow) * World :=
  query (λ w, (Resolved (first_where
                 (λ u, u_id u = id ∧ u_is_active u = true) (users (db w))), w)).

(** Active memberships joined with active households. *)
Definition select_households (uid : string)
    : World → Outcome (list HouseholdInfo) * World :=
  query (λ w, (Resolved
    (m ← filter (λ m, m_user_id m = uid ∧ m_is_active m = true)
                (household_members (db w));
     h ← filter (λ h, h_id h = m_household_id m ∧ h_is_active h = true)
                (households (db w));
     [mkHouseholdInfo (h_id h) (h_name h) (m_role m) (m_permissions m)]), w)).

(** The [io.use] middleware: an error message refuses the connection,
    a socket with its user attached goes on to the connection handler.
    [jwt_verify] is [jwt.verify(token, secret)]: the decoded user id, or
    [None] when verification throws. *)
Definition socket_auth (jwt_verify : string → option string)
    (sid : string) (hs : Handshake) : Prog (string + Socket) :=
  try_catch
    (match auth_token hs with
     | None | Some "" => Ret (inl "Authentication token required")
     | Some token =>
       match jwt_verify token with
       | None => Throw TypeError
       | Some decoded_id =>
         user ← await (first_active_user decoded_id);
         match user with
         | None => Ret (inl "Invalid authentication token")
         | Some user =>
           locked ← match u_locked_until user with
                    | Some until => t ← peek clock; Ret (t <? until)
                    | None => Ret false
                    end;
           if (locked : bool) then Ret (inl "Account is temporarily locked")
           else
             households ← await (select_households (u_id user));
             Ret (inr (mkSocket sid
               (mkSocketUser (u_id user) (u_email user) (u_username user)
                  (u_first_name user) (u_last_name user) (u_role user)
                  households)))
         end
       end
     end)
    (λ _, Ret (inl "Authentication failed")).

Definition register_socket (s : Socket) : World → World :=
  set_hub (λ h, mkHub (<[sock_id s := s]> (sockets h)) (rooms h) (emitted h)
                  (timers h) (subscribed h)).

Definition subscribe (channel : string) : World → World :=
  set_hub (λ h, mkHub (sockets h) (rooms h) (emitted h) (timers h)
                  (subscribed h ++ [channel])).

Definition unsubscribe (channel : string) : World → World :=
  set_hub (λ h, mkHub (sockets h) (rooms h) (emitted h) (timers h)
                  (filter (λ c, c ≠ channel) (subscribed h))).

(** [io.on('connection', socket => ...)], up to the handler registrations. *)
Definition on_connection (s : Socket) (w : World) : World :=
  let u := sock_user s in
  let w1 := join (sock_id s) ("user:" +:+ su_id u) w in
  let w2 := foldl (λ w' household,
                     join (sock_id s) ("household:" +:+ hi_id household) w')
                  w1 (su_households u) in
  let w3 := emit (ToAllExcept (sock_id s))
                 (user_online (su_id u) (su_username u) (clock w2)) w2 in
  subscribe ("user:" +:+ su_id u) w3.

(** A client opens a connection that the server names [sid]. *)
Definition connect (jwt_verify : string → option string) (sid : string)
    (hs : Handshake) (w : World) : option Socket * World :=
  match run (socket_auth jwt_verify sid hs) w with
  | (Resolved (inr s), w') => (Some s, on_connection s (register_socket s w'))
  | (_, w') => (None, w')
  end.

(** Socket.IO drops a closing socket from its rooms and from the server
    before the [disconnect] event is dispatched. *)
Definition cleanup (sid : string) : World → World :=
  set_hub (λ h, mkHub (delete sid (sockets h))
                  (filter (λ kv, kv.2 ≠ ∅) ((λ S, S ∖ {[sid]}) <$> rooms h))
                  (emitted h) (timers h) (subscribed h)).

(** [socket.on('disconnect', ...)] *)
Definition on_disconnect (s : Socket) (w : World) : World :=
  let u := sock_user s in
  let w1 := emit (ToAllExcept (sock_id s))
                 (user_offline (su_id u) (su_username u) (clock w)) w in
  unsubscribe ("user:" +:+ su_id u) w1.

Definition disconnect (s : Socket) (w : World) : World :=
  on_disconnect s (cleanup (sock_id s) w).

(** ** websocket.js: collaboration rooms *)

Record CollabData : Type := mkCollabData {
  cd_documentType : option string;
  cd_documentId : option string;
  cd_householdId : option string;
  cd_itemId : option string;
  cd_note : option string
}.

Definition collab_room (d : CollabData) : string :=
  "collab:" +:+ tmpl (cd_documentType d) +:+ ":" +:+ tmpl (cd_documentId d).

(** [socket.user.households.some(h => h.id === householdId)] *)
Definition hasAccess (s : Socket) (householdId : string) : bool :=
  bool_decide (Exists (λ h, hi_id h = householdId) (su_households (sock_user s))).

(** The collaborators list: the sockets of the room this server still knows. *)
Definition collaborators_of (room : string) (h : Hub) : list UserInfo :=
  omap (λ socketId, (userInfo ∘ sock_user) <$> sockets h !! socketId)
       (elements (room_members room h)).

(** [socket.on('collab:join', ...)] *)
Definition on_collab_join (s : Socket) (d : CollabData) (w : World) : World :=
  if negb (truthy (cd_documentType d)) || negb (truthy (cd_documentId d))
  then emit (ToSocket (sock_id s))
            (error_event "Document type and ID required") w
  else if truthy (cd_householdId d)
          && negb (hasAccess s (default "" (cd_householdId d)))
  then emit (ToSocket (sock_id s))
            (error_event "Access denied to this household") w
  else
    let roomName := collab_room d in
    let w1 := join (sock_id s) roomName w in
    let collaborators := collaborators_of roomName (hub w1) in
    let w2 := emit (ToRoomExcept roomName (sock_id s))
                (collab_user_joined (userInfo (sock_user s)) (clock w1)) w1 in
    emit (ToSocket (sock_id s))
         (collab_collaborators (tmpl (cd_documentType d))
            (tmpl (cd_documentId d)) collaborators) w2.

(** [socket.on('collab:leave', ...)] *)
Definition on_collab_leave (s : Socket) (d : CollabData) (w : World) : World :=
  let roomName := collab_room d in
  let w1 := leave (sock_id s) roomName w in
  emit (ToRoomExcept roomName (sock_id s))
       (collab_user_left (su_id (sock_user s)) (su_username (sock_user s))
          (clock w1)) w1.

Definition highlight_ttl : Z := 30000.

(** [socket.on('collab:highlight', ...)] *)
Definition on_collab_highlight (s : Socket) (d : CollabData) (w : World)
    : World :=
  let u := sock_user s in
  let roomName := collab_room d in
  let w1 := emit (ToRoomExcept roomName (sock_id s))
              (collab_highlight (su_id u) (su_username u) (cd_itemId d)
                 (cd_note d) (clock w)) w in
  setTimeout (HighlightRemove (sock_id s) roomName (su_id u) (cd_itemId d))
             highlight_ttl w1.

(** ** websocket.js: chat *)

Record ChatData : Type := mkChatData {
  ch_roomType : string;
  ch_roomId : string;
  ch_message : option string;
  ch_parentMessageId : option string
}.

Definition chat_room (roomType roomId : string) : string :=
  "chat:" +:+ roomType +:+ ":" +:+ roomId.

Definition in_room (roomType roomId : string) (m : ChatRow) : Prop :=
  c_room_type m = roomType ∧ c_room_id m = roomId.

#[global] Instance in_room_dec rt rid m : Decision (in_room rt rid m).
Proof. unfold in_room. apply _. Defined.

(** [.orderBy('chat_messages.created_at', 'desc')] *)
Fixpoint insert_desc (r : ChatRow * UserRow) (l : list (ChatRow * UserRow))
    : list (ChatRow * UserRow) :=
  match l with
  | [] => [r]
  | x :: rest =>
      if c_created_at x.1 <? c_created_at r.1 then r :: x :: rest
      else x :: insert_desc r rest
  end.

Definition orderBy_created_at_desc (l : list (ChatRow * UserRow))
    : list (ChatRow * UserRow) :=
  foldr insert_desc [] l.

(** [chat_messages] joined with [users] on the author. *)
Definition join_users (d : Db) (ms : list ChatRow) : list (ChatRow * UserRow) :=
  m ← ms; u ← filter (λ u, u_id u = c_user_id m) (users d); [(m, u)].

Definition select_recent (roomType roomId : string) (limit : nat)
    : World → Outcome (list (ChatRow * UserRow)) * World :=
  query (λ w, (Resolved
    (take limit (orderBy_created_at_desc
       (join_users (db w)
          (filter (in_room roomType roomId) (chat_messages (db w)))))), w)).

Definition format_message (roomType roomId : string) (msg : ChatRow * UserRow)
    : MessageData :=
  mkMessageData (c_id msg.1) roomType roomId
    (mkUserInfo (u_id msg.2) (u_username msg.2) (u_first_name msg.2)
                (u_last_name msg.2))
    (c_message msg.1) (c_parent_message_id msg.1) (c_created_at msg.1).

(** [sendRecentMessages(socket, roomType, roomId, limit = 50)] *)
Definition sendRecentMessages (s : Socket) (roomType roomId : string)
    (limit : nat) : Prog unit :=
  try_catch
    (messages ← await (select_recent roomType roomId limit);
     let formattedMessages := format_message roomType roomId <$> reverse messages in
     perform (emit (ToSocket (sock_id s))
                (chat_history roomType roomId formattedMessages)))
    (λ _, Ret ()).

(** [socket.on('chat:join', ...)]; the history is sent by a call that is
    not awaited and that swallows its own errors. *)
Definition on_chat_join (s : Socket) (d : ChatData) : Prog unit :=
  _ ← perform (join (sock_id s) (chat_room (ch_roomType d) (ch_roomId d)));
  sendRecentMessages s (ch_roomType d) (ch_roomId d) 50.

Definition is_js_space (c : Ascii.ascii) : bool :=
  bool_decide (Ascii.nat_of_ascii c ∈ [9; 10; 11; 12; 13; 32; 160]%nat).

Fixpoint trimStart (s : string) : string :=
  match s with
  | EmptyString => EmptyString
  | String c rest => if is_js_space c then trimStart rest else s
  end.

(** [s.trim()] *)
Definition trim (s : string) : string :=
  String.rev (trimStart (String.rev (trimStart s))).

Definition insert_chat_message (mk : string → Z → ChatRow)
    : World → Outcome (string * Z) * World :=
  query (λ w,
    let row := mk (uuid_of (next_uuid w)) (clock w) in
    (Resolved (c_id row, c_created_at row),
     set_db (set_chat (λ rows, rows ++ [row])) (bump_uuid w))).

Definition select_other_members (householdId senderId : string)
    : World → Outcome (list string) * World :=
  query (λ w, (Resolved
    (m_user_id <$> filter (λ m, is_active_in householdId m
                                 ∧ m_user_id m ≠ senderId)
                          (household_members (db w))), w)).

Definition first_prefs (uid : string)
    : World → Outcome (option PrefRow) * World :=
  query (λ w, (Resolved (first_where (λ p, p_user_id p = uid)
                           (user_preferences (db w))), w)).

Definition sendPushNotification (uid messageId : string)
    : World → Outcome unit * World :=
  query (λ w, (Resolved (), add_push (uid, messageId) w)).

(** [sendChatNotifications(roomType, roomId, messageData)] *)
Definition sendChatNotifications (roomType roomId : string)
    (messageData : MessageData) : Prog unit :=
  try_catch
    (offlineUsers ← await (select_other_members roomId
                             (ui_id (md_user messageData)));
     for_each offlineUsers (λ user_id,
       userPrefs ← await (first_prefs user_id);
       match userPrefs with
       | Some p =>
           if p_push_notifications_enabled p
           then await (sendPushNotification user_id (md_id messageData))
           else Ret ()
       | None => Ret ()
       end))
    (λ _, Ret ()).

(** [socket.on('chat:message', ...)] *)
Definition on_chat_message (s : Socket) (d : ChatData) : Prog unit :=
  let u := sock_user s in
  try_catch
    (let roomName := chat_room (ch_roomType d) (ch_roomId d) in
     match ch_message d with
     | None => perform (emit (ToSocket (sock_id s))
                          (error_event "Message cannot be empty"))
     | Some message =>
       if bool_decide (message = "") || bool_decide (trim message = "")
       then perform (emit (ToSocket (sock_id s))
                       (error_event "Message cannot be empty"))
       else
         savedMessage ← await (insert_chat_message (λ id t,
           mkChat id (ch_roomType d) (ch_roomId d) (su_id u) (trim message)
                  (ch_parentMessageId d) t));
         (* [savedMessage] is the [id] and [created_at] the store returned *)
         let messageData :=
           mkMessageData savedMessage.1 (ch_roomType d) (ch_roomId d)
             (userInfo u) (trim message) (ch_parentMessageId d)
             savedMessage.2 in
         _ ← perform (emit (ToRoom roomName) (chat_message messageData));
         sendChatNotifications (ch_roomType d) (ch_roomId d) messageData
     end)
    (λ _, perform (emit (ToSocket (sock_id s))
                     (error_event "Failed to send message"))).

(** ** Availability of the store *)

(** The next [n] round-trips succeed. *)
Definition store_up (n : nat) (w : World) : bool :=
  forallb negb (take n (faults w)).

(** The world once a round-trip has consumed its entry of the fault plan. *)
Definition served (w : World) : World := set_faults (tail (faults w)) w.

(** ** Sample data: a household at and below its cap *)

Definition sample_member (n : nat) (active : bool) : MemberRow :=
  mkMember ("m" +:+ pretty n) "h1" ("u" +:+ pretty n) "member" "read_write"
           false 0 active None.

Definition sample_user (n : nat) : UserRow :=
  mkUser ("u" +:+ pretty n) ("u" +:+ pretty n +:+ "@example.com")
         ("user" +:+ pretty n) "First" "Last" "user" true None true None.

Definition sample_invitation (n : nat) : InvitationRow :=
  mkInvitation ("i" +:+ pretty n) "h1" ("u" +:+ pretty n +:+ "@example.com")
    "member" "read_write" "u0" "token" Pending 1000 0 None.

Definition empty_hub : Hub := mkHub ∅ ∅ [] [] [].

Definition empty_body : Body :=
  mkBody None None None None None None None None None.

(** Household [h1] with [n] active members [u0 .. u(n-1)] and pending
    invitations for [u5], [u6] and [u7]; the clock reads 10 ms. *)
Definition household_with (n : nat) : World :=
  mkWorld (mkDb (sample_user <$> seq 0 8)
                [mkHousehold "h1" "Sample" "u0" true]
                ((λ k, sample_member k true) <$> seq 0 n)
                (sample_invitation <$> [5; 6; 7]%nat) [] [])
          empty_hub [] [] [] 10 0.

(** User [u n], authenticated, accepts invitation [i n]. *)
Definition accept_request (n : nat) : Request :=
  mkRequest (PassportUser (sample_user n)) None empty_body None
            ("i" +:+ pretty n) None None None.

(** A registration form without [householdId]. *)
Definition register_request : Request :=
  mkRequest PassportNoUser None
    (mkBody None (Some "new@example.com") (Some "newcomer")
            (Some "correct horse") (Some "New") (Some "Comer") None None None)
    None "" None None None.

(** A registration form that names household [h1]. *)
Definition register_into_h1 : Request :=
  mkRequest PassportNoUser None
    (mkBody (Some "h1") (Some "new@example.com") (Some "newcomer")
            (Some "correct horse") (Some "New") (Some "Comer") None None None)
    None "" None None None.

(** Two accept requests in flight, by [u5] and by [u6]. *)
Definition two_accepts : list (Prog Response) :=
  [accept_route None (accept_request 5); accept_route None (accept_request 6)].

(** The store serves the two requests in turn: both invitation lookups, both
    counts, both inserts, both invitation updates, both alert queries. *)
Definition alternating : list nat := [0; 1; 0; 1; 0; 1; 0; 1; 0; 1]%nat.

(** Household [h1] with active members [u0 .. u3] and the deactivated
    member [u4]. *)
Definition household_with_inactive : World :=
  mkWorld (mkDb (sample_user <$> seq 0 8)
                [mkHousehold "h1" "Sample" "u0" true]
                (((λ k, sample_member k true) <$> seq 0 4)
                 ++ [sample_member 4 false])
                [] [] [])
          empty_hub [] [] [] 10 0.

(** The admin [u0], past the guards of the invite route with a count of 4
    out of 5, invites [U4@Example.com] as a viewer. *)
Definition invite_request : Request :=
  mkRequest (PassportUser (sample_user 0)) (Some (sample_user 0))
    (mkBody None (Some "U4@Example.com") None None None None None
            (Some "viewer") None)
    (Some "h1") "" (Some 4) (Some 5) (Some (sample_member 0 true)).

(** ** Sample data: sessions *)

(** A token that verifies to the user id it spells. *)
Definition sample_verify (token : string) : option string := Some token.

Definition token_of (uid : string) : Handshake := mkHandshake (Some uid).

(** The session the gateway builds for [u1], a member of [h1]. *)
Definition session_of_u1 (sid : string) : Socket :=
  mkSocket sid (mkSocketUser "u1" "u1@example.com" "user1" "First" "Last"
                  "user" [mkHouseholdInfo "h1" "Sample" "member" "read_write"]).

Definition sample_chat (n : nat) (t : Z) : ChatRow :=
  mkChat ("c" +:+ pretty n) "household" "h1" "u0" ("message " +:+ pretty n)
         None t.

(** Household [h1] (members [u0 .. u3]) with three messages in its chat
    room. *)
Definition chat_world : World :=
  mkWorld (mkDb (sample_user <$> seq 0 8)
                [mkHousehold "h1" "Sample" "u0" true]
                ((λ k, sample_member k true) <$> seq 0 4)
                []
                [sample_chat 1 1; sample_chat 2 2; sample_chat 3 3] [])
          empty_hub [] [] [] 10 0.

(** The session of [u7], who belongs to no household. *)
Definition outsider : Socket :=
  mkSocket "s7" (mkSocketUser "u7" "u7@example.com" "user7" "First" "Last"
                              "user" []).

(** The session of [u0], a member of [h1]. *)
Definition insider : Socket :=
  mkSocket "s0" (mkSocketUser "u0" "u0@example.com" "user0" "First" "Last"
                   "user" [mkHouseholdInfo "h1" "Sample" "member" "read_write"]).

Definition join_h1_chat : ChatData := mkChatData "household" "h1" None None.

Definition budget_of (householdId : option string) : CollabData :=
  mkCollabData (Some "budget") (Some "b1") householdId None None.

(** What a socket has been sent: one entry per delivery, oldest first. *)
Definition inbox (sid : string) (log : list Emission) : list Event :=
  em ← log;
  x ← em_recipients em;
  if decide (x = sid) then [em_event em] else [].

(** The row [chat:message] stores and the payload it broadcasts. *)
Definition chat_row (s : Socket) (d : ChatData) (message : string)
    (id : string) (t : Z) : ChatRow :=
  mkChat id (ch_roomType d) (ch_roomId d) (su_id (sock_user s)) (trim message)
         (ch_parentMessageId d) t.

Definition chat_payload (s : Socket) (d : ChatData) (message : string)
    (id : string) (t : Z) : MessageData :=
  mkMessageData id (ch_roomType d) (ch_roomId d) (userInfo (sock_user s))
    (trim message) (ch_parentMessageId d) t.

(** [u0]'s session and the outsider's session are connected and both sit in
    the chat room of [h1]. *)
Definition chat_room_world : World :=
  join "s7" "chat:household:h1"
    (join "s0" "chat:household:h1"
       (register_socket outsider (register_socket insider chat_world))).

Definition hello : ChatData :=
  mkChatData "household" "h1" (Some "  hello ") None.

(** ** Vocabulary of the chat-history property *)



(** [u0]'s session is connected; nobody is in a room yet. *)
Definition insider_world : World := register_socket insider chat_world.

(** ** Vocabulary of the highlight property *)

(** The emission a due timer produces in hub [h]. *)
Definition timer_emission (h : Hub) (tm : Timer) : Emission :=
  match t_action tm with
  | HighlightRemove sid room userId itemId =>
      mkEmission (ToRoomExcept room sid) (collab_highlight_remove userId itemId)
                 (elements (room_members room h ∖ {[sid]}))
  end.

(** The timer [collab:highlight] sets at time [t]. *)
Definition highlight_timer (s : Socket) (d : CollabData) (t : Z) : Timer :=
  mkTimer (t + highlight_ttl)
    (HighlightRemove (sock_id s) (collab_room d) (su_id (sock_user s))
                     (cd_itemId d)).

(** [u0]'s session and [u7]'s session are connected and both sit in the
    room of budget [b1]. *)
Definition budget_world : World :=
  join "s7" "collab:budget:b1"
    (join "s0" "collab:budget:b1"
       (register_socket outsider (register_socket insider chat_world))).

Definition highlight_row3 : CollabData :=
  mkCollabData (Some "budget") (Some "b1") None (Some "row-3") None.

(** ** Sample data: the invite route end to end *)

(** [a0] has the [admin] role and administers household [h1], which has
    three more active members and the deactivated member [u4]. *)
Definition admin_user : UserRow :=
  mkUser "a0" "a0@example.com" "admin0" "First" "Last" "admin" true None true
         None.

Definition admin_world (active : nat) : World :=
  mkWorld (mkDb (admin_user :: (sample_user <$> seq 0 8))
                [mkHousehold "h1" "Sample" "a0" true]
                (mkMember "ma" "h1" "a0" "admin" "full" true 0 true None
                 :: ((λ k, sample_member k true) <$> seq 0 active)
                 ++ [sample_member 4 false])
                [] [] [])
          empty_hub [] [] [] 10 0.

(** [a0]'s request as it arrives, before any middleware has run. *)
Definition raw_invite_request : Request :=
  mkRequest (PassportUser admin_user) None
    (mkBody None (Some "U4@Example.com") None None None None None
            (Some "viewer") None)
    (Some "h1") "" None None None.

(** * Further code of the same modules *)

(** ** Sample data: alerts *)

(** Household [h1] led by the verified admin [a0], with [active] more
    members. *)
Definition alert_world (active : nat) : World := admin_world active.

(** The alert mail [sendUserLimitAlerts] sends to an admin. *)
Definition alert_mail (admin : UserRow) : Email :=
  mkEmail (u_email admin) "Fire Finance - User Limit Alert" "user-limit-warning".

(** The household id [checkUserCap] settles on. *)
Definition cap_household (req : Request) : option string :=
  js_or (js_or (b_householdId (req_body req)) (params_householdId req))
        (req_user req ≫= u_householdId).

(** A request that names household [h1] in its body and nothing else. *)
Definition names_h1 : Request :=
  mkRequest PassportNoUser None
    (mkBody (Some "h1") None None None None None None None None)
    None "" None None None.

(** ** middleware/userCap.js: statistics *)

(** A row of the statistics query: the membership and, through the left
    join, its user when there is one. *)
Definition StatsRow : Type := (MemberRow * option UserRow)%type.

(** [household_members] left-joined with [users]. *)
Definition left_join_users (d : Db) (ms : list MemberRow) : list StatsRow :=
  m ← ms;
  match filter (λ u, u_id u = m_user_id m) (users d) with
  | [] => [(m, None)]
  | us => (λ u, (m, Some u)) <$> us
  end.

(** [.orderBy('household_members.joined_at', 'asc')] *)
Fixpoint insert_asc (r : StatsRow) (l : list StatsRow) : list StatsRow :=
  match l with
  | [] => [r]
  | x :: rest =>
      if m_joined_at r.1 <? m_joined_at x.1 then r :: x :: rest
      else x :: insert_asc r rest
  end.

Definition orderBy_joined_at_asc (l : list StatsRow) : list StatsRow :=
  foldr insert_asc [] l.

Definition select_stats (householdId : string)
    : World → Outcome (list StatsRow) * World :=
  query (λ w, (Resolved
    (orderBy_joined_at_asc
       (left_join_users (db w)
          (filter (λ m, m_household_id m = householdId)
                  (household_members (db w))))), w)).

Record HouseholdStats : Type := mkStats {
  st_totalUsers : Z;
  st_activeUsers : Z;
  st_inactiveUsers : Z;
  st_maxUsers : Z;
  st_remainingSlots : Z;
  (** [(activeUsers.length / maxUsers) * 100] as the exact quotient; the
      source holds the nearest double. *)
  st_utilization : QArith_base.Q;
  st_active : list StatsRow;
  st_inactive : list StatsRow;
  st_nearLimit : bool;
  st_atLimit : bool;
  st_overLimit : bool
}.

Definition len {A : Type} (l : list A) : Z := Z.of_nat (length l).

(** [getHouseholdUserStats(householdId)] *)
Definition getHouseholdUserStats (MAX_USERS : option Z) (householdId : string)
    : Prog HouseholdStats :=
  try_catch
    (stats ← await (select_stats householdId);
     let activeUsers := filter (λ user, m_is_active user.1 = true) stats in
     let inactiveUsers := filter (λ user, ¬ m_is_active user.1 = true) stats in
     let maxUsers := maxUsers_of MAX_USERS in
     Ret (mkStats (len stats) (len activeUsers) (len inactiveUsers) maxUsers
            (maxUsers - len activeUsers)
            (QArith_base.Qmult
               (QArith_base.Qdiv (QArith_base.inject_Z (len activeUsers))
                                 (QArith_base.inject_Z maxUsers))
               (QArith_base.inject_Z 100))
            activeUsers inactiveUsers
            (maxUsers - 1 <=? len activeUsers)
            (maxUsers <=? len activeUsers)
            (maxUsers <? len activeUsers)))
    (λ error, Throw error).

(** The final handler of [GET /:householdId/users/stats], given the
    route's household. *)
Definition stats_handler (MAX_USERS : option Z) (householdId : string)
    : Prog (Response + HouseholdStats) :=
  try_catch
    (stats ← getHouseholdUserStats MAX_USERS householdId;
     Ret (inr stats))
    (λ _, Ret (inl (error_response 500 "Failed to get household statistics"))).

(** No two user rows share an id ([users.id] is the primary key). *)
Definition user_ids_unique (d : Db) : bool :=
  bool_decide (NoDup (u_id <$> users d)).

Definition joined_earlier (x y : StatsRow) : Prop :=
  m_joined_at x.1 ≤ m_joined_at y.1.

(** ** middleware/auth.js: rate limiter *)

(** [rateLimitByUser(maxRequests, windowMs)]: the closure's [Map] is the
    state; [None] stands for [next()]. *)
Definition rateLimitByUser (maxRequests windowMs : Z) (userId : option string)
    (now : Z) (requests : gmap string (list Z))
    : option Response * gmap string (list Z) :=
  if negb (truthy userId) then (Some (error_response 401 "Unauthorized"), requests)
  else
    let userId := default "" userId in
    let userRequests := default [] (requests !! userId) in
    let validRequests := filter (λ time, now - time < windowMs) userRequests in
    if maxRequests <=? len validRequests
    then (Some (error_response 429 "Too many requests"), requests)
    else (None, <[userId := validRequests ++ [now]]> requests).

(** [n] requests of one user at one instant. *)
Fixpoint burst (maxRequests windowMs : Z) (userId : string) (now : Z) (n : nat)
    (requests : gmap string (list Z)) : list (option Response) * gmap string (list Z) :=
  match n with
  | O => ([], requests)
  | S k =>
      let '(r, requests') :=
        rateLimitByUser maxRequests windowMs (Some userId) now requests in
      let '(rs, requests'') :=
        burst maxRequests windowMs userId now k requests' in
      (r :: rs, requests'')
  end.

(** ** Sample data: guards *)

(** [u0] as an authenticated caller of a route on household [h1]. *)
Definition member_request (perm_user : nat) : Request :=
  mkRequest (PassportUser (sample_user perm_user))
            (Some (sample_user perm_user)) empty_body (Some "h1") "" None None
            None.

(** ** Sample data: accepting *)

(** Household [h1] with 3 active members, the deactivated member [u5], and
    pending invitations for [u5], [u6] and [u7]. *)
Definition household_with_former_member : World :=
  mkWorld (mkDb (sample_user <$> seq 0 8)
                [mkHousehold "h1" "Sample" "u0" true]
                (((λ k, sample_member k true) <$> seq 0 3)
                 ++ [sample_member 5 false])
                (sample_invitation <$> [5; 6; 7]%nat) [] [])
          empty_hub [] [] [] 10 0.

(** User [u n] accepts invitation [i k]. *)
Definition accept_as (n k : nat) : Request :=
  mkRequest (PassportUser (sample_user n)) (Some (sample_user n)) empty_body
            None ("i" +:+ pretty k) None None None.

(** ** Sample data: inviting *)

(** The admin [u0] invites an address nobody has registered. *)
Definition invite_stranger : Request :=
  mkRequest (PassportUser (sample_user 0)) (Some (sample_user 0))
    (mkBody None (Some "stranger@example.com") None None None None None
            None None)
    (Some "h1") "" (Some 4) (Some 5) (Some (sample_member 0 true)).

(** The admin [u0] invites [u1], an active member. *)
Definition invite_member : Request :=
  mkRequest (PassportUser (sample_user 0)) (Some (sample_user 0))
    (mkBody None (Some "u1@example.com") None None None None None None None)
    (Some "h1") "" (Some 4) (Some 5) (Some (sample_member 0 true)).

(** ** routes/households.js: removing a member *)

(** The update of the remove route. *)
Definition deactivate (t : Z) (m : MemberRow) : MemberRow :=
  mkMember (m_id m) (m_household_id m) (m_user_id m) (m_role m)
           (m_permissions m) (m_can_invite m) (m_joined_at m) false (Some t).

Definition deactivate_member (id : string) : World → Outcome unit * World :=
  query (λ w, (Resolved (),
    set_db (set_members
      (update_where (λ m, m_id m = id) (deactivate (clock w)))) w)).

(** The final handler of [DELETE /:householdId/users/:userId]; [userId] is
    the route parameter. *)
Definition remove_handler (userId : string) : Handler := λ req,
  try_catch
    (match params_householdId req, req_user req with
     | Some householdId, Some user =>
       let requestingUserId := u_id user in
       if bool_decide (userId = requestingUserId)
       then Ret (error_response 400 "Cannot remove yourself from the household")
       else
         member ← await (first_active_member userId householdId);
         match member with
         | None => Ret (error_response 404 "User not found in household")
         | Some member =>
             _ ← await (deactivate_member (m_id member));
             Ret (mkResponse 200
               [("message", JStr "User removed from household successfully")])
         end
     | _, _ => Throw TypeError
     end)
    (λ _, Ret (error_response 500 "Failed to remove user from household")).

Definition remove_route (userId : string) : Handler :=
  route [authenticateJWT; authorize ["admin"]; checkHouseholdMembership "full"]
        (remove_handler userId).

(** The first active membership row of a user in a household. *)
Definition find_active_member (uid hid : string) (d : Db) : option MemberRow :=
  first_where (λ m, m_user_id m = uid ∧ m_household_id m = hid
                    ∧ m_is_active m = true) (household_members d).

(** The admin [u0] removes a user from [h1]. *)
Definition remove_request : Request :=
  mkRequest (PassportUser (sample_user 0)) (Some (sample_user 0)) empty_body
            (Some "h1") "" None None (Some (sample_member 0 true)).

(** ** Sample data: a cap check aimed at another household *)

(** [a0]'s invitation for household [h1] (the path) whose body names
    household [h2]. *)
Definition invite_naming_h2 : Request :=
  mkRequest (PassportUser admin_user) None
    (mkBody (Some "h2") (Some "U4@Example.com") None None None None None
            (Some "viewer") None)
    (Some "h1") "" None None None.

(** ** routes/auth.js: what a registration writes *)

Section registration.
Variables (email username firstName lastName : string) (w : World).

Definition registered_user : UserRow :=
  mkUser (uuid_of (next_uuid w)) (toLowerCase email) username firstName
         lastName "user" true None false None.

Definition registered_household : HouseholdRow :=
  mkHousehold (uuid_of (S (next_uuid w))) (firstName +:+ "'s Household")
              (uuid_of (next_uuid w)) true.

Definition registered_member : MemberRow :=
  mkMember (uuid_of (S (S (next_uuid w)))) (uuid_of (S (next_uuid w)))
           (uuid_of (next_uuid w)) "admin" "full" true (clock w) true None.

Definition welcome_mail : Email :=
  mkEmail (toLowerCase email)
          "Welcome to Fire Finance! Please verify your email" "welcome".

Definition registered_response : Response :=
  mkResponse 201
    [("message", JStr
       "User registered successfully. Please check your email for verification.");
     ("user", JObj
       [("id", JStr (uuid_of (next_uuid w)));
        ("email", JStr (toLowerCase email));
        ("username", JStr username);
        ("firstName", JStr firstName);
        ("lastName", JStr lastName);
        ("role", JStr "user");
        ("household", JObj
           [("id", JStr (uuid_of (S (next_uuid w))));
            ("name", JStr (firstName +:+ "'s Household"))])])].
End registration.

(** The ids the next registration will hand out are not in use. *)
Definition ids_fresh (w : World) : Prop :=
  (∀ u, u ∈ users (db w) → u_id u ≠ uuid_of (next_uuid w))
  ∧ (∀ m, m ∈ household_members (db w) →
          m_household_id m ≠ uuid_of (S (next_uuid w))).

(** All five required fields of the registration form are truthy. *)
Definition form_complete (b : Body) : bool :=
  truthy (b_email b) && truthy (b_username b) && truthy (b_password b)
  && truthy (b_firstName b) && truthy (b_lastName b).

(** The world of [household_with 3] whose fifth round-trip fails. *)
Definition mailer_down : World :=
  set_faults [false; false; false; false; true] (household_with 3).

(** ** websocket.js: data subscriptions and notifications *)

(** One element of [data.subscriptions]. *)
Record Subscription : Type := mkSubscription {
  sub_type : option string;
  sub_id : option string
}.

Definition updates_channel (sub : Subscription) : string :=
  "updates:" +:+ tmpl (sub_type sub) +:+ ":" +:+ tmpl (sub_id sub).

(** [subscriptions.forEach(...)]: an element that is [null] or [undefined]
    ([None]) makes the destructuring throw, which ends the loop; the
    handler's [catch] only logs, so what was done before stays done. *)
Fixpoint each_subscription (f : string → World → World)
    (subs : list (option Subscription)) (w : World) : World :=
  match subs with
  | [] => w
  | None :: _ => w
  | Some sub :: rest => each_subscription f rest (f (updates_channel sub) w)
  end.

(** [socket.on('data:subscribe', ...)]; [None] is a payload without a
    [subscriptions] array. *)
Definition on_data_subscribe (s : Socket)
    (subscriptions : option (list (option Subscription))) (w : World) : World :=
  match subscriptions with
  | None => w
  | Some subs => each_subscription (join (sock_id s)) subs w
  end.

(** [socket.on('data:unsubscribe', ...)] *)
Definition on_data_unsubscribe (s : Socket)
    (subscriptions : option (list (option Subscription))) (w : World) : World :=
  match subscriptions with
  | None => w
  | Some subs => each_subscription (leave (sock_id s)) subs w
  end.

(** [sendUserNotification(userId, notification)] *)
Definition sendUserNotification (userId payload : string) : World → World :=
  emit (ToRoom ("user:" +:+ userId)) (notification payload).

(** ** websocket.js: edits, typing indicators, read notifications *)

Record EditData : Type := mkEditData {
  ed_documentType : option string;
  ed_documentId : option string;
  ed_operation : option string;
  ed_data : option string
}.

(** [db('activity_logs').insert({ id: require('uuid').v4(), ... })]; the
    id is drawn before the row is sent, and the table is not one of the
    tables of [Db]. *)
Definition insert_activity_log : World → Outcome unit * World :=
  λ w, query (λ w', (Resolved (), w')) (bump_uuid w).

(** [socket.on('collab:edit', ...)] *)
Definition on_collab_edit (s : Socket) (d : EditData) : Prog unit :=
  let u := sock_user s in
  try_catch
    (let roomName :=
       "collab:" +:+ tmpl (ed_documentType d) +:+ ":" +:+ tmpl (ed_documentId d) in
     match ed_operation d with
     | Some operation =>
       if bool_decide (operation ∈ ["update"; "delete"; "create"])
       then
         _ ← perform (λ w, emit (ToRoomExcept roomName (sock_id s))
                             (collab_edit (su_id u) (su_username u) operation
                                (ed_data d) (clock w)) w);
         await insert_activity_log
       else perform (emit (ToSocket (sock_id s))
                       (error_event "Invalid operation"))
     | None => perform (emit (ToSocket (sock_id s))
                          (error_event "Invalid operation"))
     end)
    (λ _, perform (emit (ToSocket (sock_id s))
                     (error_event "Edit operation failed"))).

Record TypingData : Type := mkTypingData {
  td_roomType : option string;
  td_roomId : option string;
  td_isTyping : option bool
}.

(** [socket.on('chat:typing', ...)] *)
Definition on_chat_typing (s : Socket) (d : TypingData) (w : World) : World :=
  let u := sock_user s in
  let roomName :=
    "chat:" +:+ tmpl (td_roomType d) +:+ ":" +:+ tmpl (td_roomId d) in
  emit (ToRoomExcept roomName (sock_id s))
       (chat_user_typing (su_id u) (su_username u) (td_isTyping d) (clock w))
       w.

(** [db('notifications').where({ id, user_id }).update({ read_at })]; the
    table is not one of the tables of [Db], and knex refuses to compile a
    [where] with an undefined value. *)
Definition mark_notification_read (notificationId : option string)
    (userId : string) : World → Outcome unit * World :=
  match notificationId with
  | Some _ => query (λ w, (Resolved (), w))
  | None => λ w, (Rejected TypeError, w)
  end.

(** [socket.on('notification:mark-read', ...)] *)
Definition on_notification_mark_read (s : Socket)
    (notificationId : option string) : Prog unit :=
  try_catch
    (_ ← await (mark_notification_read notificationId
                  (su_id (sock_user s)));
     perform (λ w, emit (ToSocket (sock_id s))
                     (notification_updated notificationId (clock w)) w))
    (λ _, Ret ()).

(** The events a client can send once connected. *)
Inductive ClientEvent : Type :=
| CollabJoin | CollabLeave | CollabEdit | CollabHighlight
| ChatJoin | ChatMessage | ChatTyping
| DataSubscribe | DataUnsubscribe | NotificationMarkRead.

(** An event sent with no payload, or with [null]: the destructuring
    assignment that opens every handler throws inside the handler's [try],
    and the [catch] logs the error; three of the handlers also tell the
    sender. *)
Definition on_null_payload (s : Socket) (e : ClientEvent) (w : World)
    : World :=
  match e with
  | CollabJoin =>
      emit (ToSocket (sock_id s))
           (error_event "Failed to join collaboration") w
  | CollabEdit =>
      emit (ToSocket (sock_id s)) (error_event "Edit operation failed") w
  | ChatMessage =>
      emit (ToSocket (sock_id s)) (error_event "Failed to send message") w
  | CollabLeave | CollabHighlight | ChatJoin | ChatTyping
  | DataSubscribe | DataUnsubscribe | NotificationMarkRead => w
  end.

(** The callback [io.on('connection')] subscribes to the user's channel:
    a message published there is passed on to the socket. *)
Definition on_channel_message (s : Socket) (message : string)
    : World → World :=
  emit (ToSocket (sock_id s)) (notification message).

(** [broadcastUpdate(type, id, data, excludeSocketId = null)] *)
Definition broadcastUpdate (type id data : string)
    (excludeSocketId : option string) (w : World) : World :=
  let channel := "updates:" +:+ type +:+ ":" +:+ id in
  if truthy excludeSocketId
  then emit (ToRoomExcept channel (default "" excludeSocketId))
            (data_update type id data (clock w)) w
  else emit (ToRoom channel) (data_update type id data (clock w)) w.

(** ** What the server does to the hub *)

(** The server has never used the socket id. *)
Definition sid_fresh (sid : string) (h : Hub) : Prop :=
  (sid ∉ dom (sockets h)) ∧ ∀ room, sid ∉ room_members room h.

(** One thing that happens on the server: a connection attempt, a
    disconnect, one of the ten socket events with a payload or without one,
    a notification, a message on a user's channel, a broadcast update, the
    passing of time, or anything that leaves the hub alone (the HTTP
    routes). *)
Inductive hub_step : World → World → Prop :=
| hub_connect verify sid hs w :
    sid_fresh sid (hub w) →
    hub_step w (connect verify sid hs w).2
| hub_disconnect s w :
    hub_step w (disconnect s w)
| hub_collab_join s d w :
    hub_step w (on_collab_join s d w)
| hub_collab_leave s d w :
    hub_step w (on_collab_leave s d w)
| hub_collab_highlight s d w :
    hub_step w (on_collab_highlight s d w)
| hub_chat_join s d w :
    hub_step w (run (on_chat_join s d) w).2
| hub_chat_message s d w :
    hub_step w (run (on_chat_message s d) w).2
| hub_data_subscribe s subs w :
    hub_step w (on_data_subscribe s subs w)
| hub_data_unsubscribe s subs w :
    hub_step w (on_data_unsubscribe s subs w)
| hub_collab_edit s d w :
    hub_step w (run (on_collab_edit s d) w).2
| hub_chat_typing s d w :
    hub_step w (on_chat_typing s d w)
| hub_mark_read s notificationId w :
    hub_step w (run (on_notification_mark_read s notificationId) w).2
| hub_null_payload s e w :
    hub_step w (on_null_payload s e w)
| hub_channel_message s message w :
    hub_step w (on_channel_message s message w)
| hub_broadcast type id data excludeSocketId w :
    hub_step w (broadcastUpdate type id data excludeSocketId w)
| hub_notify userId payload w :
    hub_step w (sendUserNotification userId payload w)
| hub_advance t w :
    hub_step w (advance t w)
| hub_elsewhere w w' :
    hub w' = hub w →
    hub_step w w'.

(** A room name that is not of the form [user:<id>]; the handlers join
    and leave rooms under their own prefixes only. *)
Definition not_a_user_room (r : string) : Prop :=
  ∀ uid, "user:" +:+ uid ≠ r.

(** Every socket in the room [user:<id>] is a connected socket of that
    user. *)
Definition user_rooms_private (h : Hub) : Prop :=
  ∀ uid sid, sid ∈ room_members ("user:" +:+ uid) h →
    ∃ s, sockets h !! sid = Some s ∧ su_id (sock_user s) = uid.

(** ** websocket.js: blank chat messages *)

(** Every character of the string is white space for [trim]. *)
Fixpoint blank (s : string) : bool :=
  match s with
  | EmptyString => true
  | String c rest => is_js_space c && blank rest
  end.

(** A payload whose message is missing or blank. *)
Definition blank_message (d : ChatData) : bool :=
  match ch_message d with
  | None => true
  | Some message => blank message
  end.

Definition only_spaces : ChatData :=
  mkChatData "household" "h1" (Some "   ") None.

(** ** Sample data: a session that outlives its membership *)

(** The table's unique constraint on [(household_id, user_id)]. *)
Definition member_pairs_unique (d : Db) : Prop :=
  NoDup ((λ m, (m_household_id m, m_user_id m)) <$> household_members d).

(** [u0] removes [u1] from [h1] while [u1]'s session [s1] is open. *)
Definition remove_u1 : Request :=
  mkRequest (PassportUser (sample_user 0)) (Some (sample_user 0)) empty_body
            (Some "h1") "" None None (Some (sample_member 0 true)).

Definition budget_in_h1 : CollabData :=
  mkCollabData (Some "budget") (Some "b1") (Some "h1") None None.

(** ** config/passport.js: the local strategy *)

(** The columns of [users] the local strategy reads and writes. *)
Record Account : Type := mkAccount {
  acc_id : string;
  acc_email : string;
  acc_is_active : bool;
  acc_password_hash : string;
  acc_login_attempts : option Z;
  acc_locked_until : option Z;
  acc_last_login : option Z
}.

(** The accounts and the outcome of the coming round-trips ([true] makes
    the next one reject). *)
Record AuthStore : Type := mkAuthStore {
  accounts : list Account;
  auth_faults : list bool
}.

(** What the strategy hands to [done]. *)
Inductive Verdict : Type :=
| Granted (user : Account)        (* done(null, user) *)
| Refused (message : option string) (* done(null, false, info) *)
| Errored.                        (* done(error, false) *)

Definition auth_query {T : Type} (f : list Account → T * list Account)
    (st : AuthStore) : option T * AuthStore :=
  match auth_faults st with
  | true :: fs => (None, mkAuthStore (accounts st) fs)
  | false :: fs => let '(r, a) := f (accounts st) in (Some r, mkAuthStore a fs)
  | [] => let '(r, a) := f (accounts st) in (Some r, mkAuthStore a [])
  end.

(** [user.locked_until && new Date() < new Date(user.locked_until)] *)
Definition is_locked (user : Account) (now : Z) : bool :=
  match acc_locked_until user with
  | Some until => now <? until
  | None => false
  end.

Definition record_failure (loginAttempts : Z) (lockedUntil : option Z)
    (u : Account) : Account :=
  mkAccount (acc_id u) (acc_email u) (acc_is_active u) (acc_password_hash u)
            (Some loginAttempts) lockedUntil (acc_last_login u).

Definition record_success (now : Z) (u : Account) : Account :=
  mkAccount (acc_id u) (acc_email u) (acc_is_active u) (acc_password_hash u)
            (Some 0) None (Some now).

Definition find_account (email : string) (a : list Account) : option Account :=
  first_where (λ u, acc_email u = toLowerCase email ∧ acc_is_active u = true) a.

Section local_strategy.
(** [bcrypt.compare(password, hash)] *)
Variable compare : string → string → bool.
(** [process.env.MAX_LOGIN_ATTEMPTS] and
    [process.env.ACCOUNT_LOCKOUT_DURATION_MINUTES] after [parseInt];
    [None] is [NaN]. *)
Variables MAX_LOGIN_ATTEMPTS ACCOUNT_LOCKOUT_DURATION_MINUTES : option Z.

Definition maxAttempts : Z := num_or MAX_LOGIN_ATTEMPTS 5.
Definition lockoutDuration : Z := num_or ACCOUNT_LOCKOUT_DURATION_MINUTES 30.

(** The verify callback of [new LocalStrategy(...)], called at time
    [now]. *)
Definition localStrategy (email password : string) (now : Z)
    (st : AuthStore) : Verdict * AuthStore :=
  match auth_query (λ a, (find_account email a, a)) st with
  | (None, st1) => (Errored, st1)
  | (Some None, st1) => (Refused (Some "Invalid email or password"), st1)
  | (Some (Some user), st1) =>
    if is_locked user now
    then (Refused
            (Some "Account is temporarily locked due to too many failed attempts"),
          st1)
    else if negb (compare password (acc_password_hash user))
    then
      let loginAttempts := num_or (acc_login_attempts user) 0 + 1 in
      let lockedUntil :=
        if maxAttempts <=? loginAttempts
        then Some (now + lockoutDuration * 60 * 1000) else None in
      match auth_query (λ a, ((),
              update_where (λ u, acc_id u = acc_id user)
                           (record_failure loginAttempts lockedUntil) a))
              st1 with
      | (None, st2) => (Errored, st2)
      | (Some _, st2) =>
          match lockedUntil with
          | Some _ =>
              (Refused
                 (Some "Account has been temporarily locked due to too many failed login attempts"),
               st2)
          | None => (Refused (Some "Invalid email or password"), st2)
          end
      end
    else
      match auth_query (λ a, ((),
              update_where (λ u, acc_id u = acc_id user)
                           (record_success now) a)) st1 with
      | (None, st2) => (Errored, st2)
      | (Some _, st2) => (Granted user, st2)
      end
  end.

(** Login attempts one after the other, each with its password and the
    time it is made at. *)
Fixpoint logins (email : string) (tries : list (string * Z))
    (st : AuthStore) : list Verdict * AuthStore :=
  match tries with
  | [] => ([], st)
  | (password, now) :: rest =>
      let '(v, st1) := localStrategy email password now st in
      let '(vs, st2) := logins email rest st1 in
      (v :: vs, st2)
  end.
End local_strategy.

(** ** config/passport.js: the JWT strategy *)

Definition find_account_by_id (id : string) (a : list Account)
    : option Account :=
  first_where (λ u, acc_id u = id ∧ acc_is_active u = true) a.

Definition record_reset (u : Account) : Account :=
  mkAccount (acc_id u) (acc_email u) (acc_is_active u) (acc_password_hash u)
            (Some 0) None (acc_last_login u).

(** The verify callback of [new JwtStrategy(...)] for a token whose
    payload carries [id], called at time [now]. *)
Definition jwtStrategy (id : string) (now : Z) (st : AuthStore)
    : Verdict * AuthStore :=
  match auth_query (λ a, (find_account_by_id id a, a)) st with
  | (None, st1) => (Errored, st1)
  | (Some None, st1) => (Refused None, st1)
  | (Some (Some user), st1) =>
    if is_locked user now
    then (Refused (Some "Account is temporarily locked"), st1)
    else if 0 <? num_or (acc_login_attempts user) 0
    then
      match auth_query (λ a, ((),
              update_where (λ u, acc_id u = acc_id user) record_reset a))
              st1 with
      | (None, st2) => (Errored, st2)
      | (Some _, st2) => (Granted user, st2)
      end
    else (Granted user, st1)
  end.

(** What reaches the server for one account: password guesses and, in
    between, requests that carry the account's token. *)
Inductive AuthEvent : Type :=
| Guess (password : string) (now : Z)
| TokenRequest (now : Z).

Fixpoint auth_events (compare : string → string → bool)
    (MAX LOCK : option Z) (email id : string) (evs : list AuthEvent)
    (st : AuthStore) : list Verdict * AuthStore :=
  match evs with
  | [] => ([], st)
  | ev :: rest =>
      let '(v, st1) :=
        match ev with
        | Guess password now => localStrategy compare MAX LOCK email password now st
        | TokenRequest now => jwtStrategy id now st
        end in
      let '(vs, st2) := auth_events compare MAX LOCK email id rest st1 in
      (v :: vs, st2)
  end.

(** The longest run of guesses without a token request in between, given
    the length [run] of the run the list starts in. *)
Fixpoint longest_run (run : nat) (evs : list AuthEvent) : nat :=
  match evs with
  | [] => run
  | Guess _ _ :: rest => longest_run (S run) rest
  | TokenRequest _ :: rest => Nat.max run (longest_run 0 rest)
  end.

(** The store answers every round-trip of the plan. *)
Definition auth_up (st : AuthStore) : Prop :=
  Forall (λ b, b = false) (auth_faults st).

(** One account, [ann@example.com], whose password is [secret]. *)
Definition ann : Account :=
  mkAccount "a1" "ann@example.com" true "hash-of-secret" None None None.

Definition ann_store : AuthStore := mkAuthStore [ann] [].

Definition sample_compare (password hash : string) : bool :=
  bool_decide (hash = "hash-of-" +:+ password).


(** Four wrong guesses, a request with the token, four more guesses. *)
Definition guessing : list AuthEvent :=
  [Guess "a" 1; Guess "b" 2; Guess "c" 3; Guess "d" 4; TokenRequest 5;
   Guess "e" 6; Guess "f" 7; Guess "g" 8; Guess "h" 9].

(** ** Sample data: a sender outside the room, an orphaned message *)

(** [u0]'s session sits in the chat room of [h1]; the outsider's session is
    connected but has not joined it. *)
Definition sender_outside_world : World :=
  join "s0" "chat:household:h1"
    (register_socket outsider (register_socket insider chat_world)).



(** ** websocket.js: the adapter's rooms *)

(** [io.sockets.adapter.rooms.get(room)]: the sockets that joined [room]
    with [socket.join], and, as Socket.IO puts every connected socket in
    the room named by its own id, that socket when [room] is a socket's
    id. *)
Definition adapter_room (room : string) (h : Hub) : gset string :=
  room_members room h
  ∪ (if decide (room ∈ dom (sockets h)) then {[room]} else ∅).

(** ** config/database.js: the JWT strategy in front of the routes *)

Definition with_passport (p : PassportResult) (r : Request) : Request :=
  mkRequest p (req_user r) (req_body r) (params_householdId r)
    (params_invitationId r) (req_userCount r) (req_maxUsers r)
    (req_householdMembership r).

(** [{ login_attempts: 0, locked_until: null }]; [login_attempts] is not a
    field of [UserRow]. *)
Definition clear_lock (u : UserRow) : UserRow :=
  mkUser (u_id u) (u_email u) (u_username u) (u_first_name u) (u_last_name u)
         (u_role u) (u_is_active u) None (u_email_verified u)
         (u_householdId u).

Definition reset_login_attempts (id : string)
    : World → Outcome unit * World :=
  query (λ w, (Resolved (),
    set_db (set_users (update_where (λ u, u_id u = id) clear_lock)) w)).

(** [passport.authenticate('jwt', ...)] up to its callback.  [bearer] is
    the token of the [Authorization] header and [jwt_verify] its
    verification, as in [io.use]; a missing or refused token fails without
    the strategy's verify function being called.  That function reads the
    account; [login_attempts] gives the column of that name, which is not
    a field of [UserRow]. *)
Definition passport_jwt (jwt_verify : string → option string)
    (login_attempts : string → option Z) (bearer : option string)
    : Prog PassportResult :=
  match bearer with
  | None | Some "" => Ret PassportNoUser
  | Some token =>
    match jwt_verify token with
    | None => Ret PassportNoUser
    | Some id =>
      try_catch
        (user ← await (first_active_user id);
         match user with
         | Some user =>
           locked ← match u_locked_until user with
                    | Some until => t ← peek clock; Ret (t <? until)
                    | None => Ret false
                    end;
           if (locked : bool) then Ret PassportNoUser
           else
             match login_attempts (u_id user) with
             | Some n =>
                 if 0 <? n
                 then _ ← await (reset_login_attempts (u_id user));
                      Ret (PassportUser user)
                 else Ret (PassportUser user)
             | None => Ret (PassportUser user)
             end
         | None => Ret PassportNoUser
         end)
        (λ _, Ret PassportError)
    end
  end.

(** [authenticateJWT] with the strategy it runs. *)
Definition authenticate (jwt_verify : string → option string)
    (login_attempts : string → option Z) (bearer : option string)
    : Middleware := λ req,
  outcome ← passport_jwt jwt_verify login_attempts bearer;
  authenticateJWT (with_passport outcome req).

(** [POST /:householdId/invite] as a request with a bearer token meets
    it. *)
Definition invite_endpoint (jwt_verify : string → option string)
    (login_attempts : string → option Z) (MAX_USERS : option Z)
    (bearer : option string) : Handler :=
  route [authenticate jwt_verify login_attempts bearer; authorize ["admin"];
         checkHouseholdMembership "full"; checkUserCap MAX_USERS]
        invite_handler.

(** Whether the strategy resets the counters of [user]. *)
Definition resets (login_attempts : string → option Z) (user : UserRow)
    : bool :=
  match login_attempts (u_id user) with
  | Some n => 0 <? n
  | None => false
  end.
(** * Properties *)

(** ** Running programs *)

Lemma run_bind {A B : Type} (p : Prog A) (f : A → Prog B) (w : World) :
  run (p ≫= f) w =
  match run p w with
  | (Resolved a, w') => run (f a) w'
  | (Rejected e, w') => (Rejected e, w')
  end.
Proof.
  revert w. induction p as [a|e|T act k IH]; intros w; try reflexivity.
  change (run (Await act k ≫= f) w)
    with (let '(o, w') := act w in run (k o ≫= f) w').
  simpl. destruct (act w) as [o w']. apply IH.
Qed.

Lemma run_try_catch {A : Type} (p : Prog A) (h : Err → Prog A) (w : World) :
  run (try_catch p h) w =
  match run p w with
  | (Resolved a, w') => (Resolved a, w')
  | (Rejected e, w') => run (h e) w'
  end.
Proof.
  revert w. induction p as [a|e|T act k IH]; intros w; simpl.
  - reflexivity.
  - destruct (run (h e) w); reflexivity.
  - destruct (act w) as [o w']. apply IH.
Qed.

Lemma run_await {T : Type} (act : World → Outcome T * World) (w : World) :
  run (await act) w = act w.
Proof.
  unfold await. simpl. destruct (act w) as [[v|e] w']; reflexivity.
Qed.

Lemma run_perform (f : World → World) (w : World) :
  run (perform f) w = (Resolved (), f w).
Proof. reflexivity. Qed.

Lemma query_up {T : Type} (f : World → Outcome T * World) (w : World) :
  store_up 1 w = true → query f w = f (served w).
Proof.
  unfold store_up, query, served.
  destruct w as [d h se pu fs c n]; simpl.
  destruct fs as [|[] fs]; simpl; try discriminate; reflexivity.
Qed.

Lemma query_down {T : Type} (f : World → Outcome T * World) (w : World) :
  store_up 1 w = false → query f w = (Rejected DbError, served w).
Proof.
  unfold store_up, query, served.
  destruct w as [d h se pu fs c n]; simpl.
  destruct fs as [|[] fs]; simpl; try discriminate; reflexivity.
Qed.

Lemma store_up_S (n : nat) (w : World) :
  store_up (S n) w = true → store_up 1 w = true ∧ store_up n (served w) = true.
Proof.
  unfold store_up, served. destruct w as [d h se pu fs c k]; simpl.
  destruct fs as [|[] fs]; simpl; try discriminate.
  - destruct n; auto.
  - auto.
Qed.

(** ** Registration without a household id *)

Lemma checkUserCap_without_household (MAX_USERS : option Z) (req : Request) :
  truthy (b_householdId (req_body req)) = false →
  truthy (params_householdId req) = false →
  truthy (req_user req ≫= u_householdId) = false →
  checkUserCap MAX_USERS req =
  Ret (inl (error_response 400 "Household ID is required")).
Proof.
  intros Hb Hp Hu. unfold checkUserCap, js_or.
  rewrite Hb, Hp, Hu. reflexivity.
Qed.

(** C9. A registration request that carries no household id (none in the
    body, none in the route parameters, none on an authenticated user; an
    empty string counts as none) is answered by the cap middleware with
    400 "Household ID is required": the route is that answer and nothing
    else, so the registration handler never runs, no store round-trip is
    made, and the world (users, households, memberships included) is left
    as it was. *)
Theorem register_without_household_is_rejected
    (MAX_USERS : option Z) (req : Request) (w : World) :
  truthy (b_householdId (req_body req)) = false →
  truthy (params_householdId req) = false →
  truthy (req_user req ≫= u_householdId) = false →
  register_route MAX_USERS req =
    Ret (error_response 400 "Household ID is required")
  ∧ run (register_route MAX_USERS req) w =
    (Resolved (error_response 400 "Household ID is required"), w).
Proof.
  intros Hb Hp Hu.
  assert (register_route MAX_USERS req =
          Ret (error_response 400 "Household ID is required")) as ->.
  { unfold register_route. simpl.
    rewrite (checkUserCap_without_household _ _ Hb Hp Hu). reflexivity. }
  split; reflexivity.
Qed.

Lemma register_without_household_is_rejected_witness :
  run (register_route None register_request) (household_with 0) =
  (Resolved (error_response 400 "Household ID is required"), household_with 0).
Proof.
  apply (register_without_household_is_rejected None register_request
           (household_with 0)); reflexivity.
Defined.

(** ** Accepting an invitation *)

Lemma query_cases {T : Type} (f : World → Outcome T * World) (w : World) :
  query f w = f (served w) ∨ query f w = (Rejected DbError, served w).
Proof.
  destruct (store_up 1 w) eqn:E.
  - left. by apply query_up.
  - right. by apply query_down.
Qed.

Lemma db_served (w : World) : db (served w) = db w.
Proof. reflexivity. Qed.

Lemma sendEmail_db (e : Email) (w : World) : db (sendEmail e w).2 = db w.
Proof.
  unfold sendEmail. destruct (query_cases (λ w, (Resolved (), add_email e w)) w)
    as [-> | ->]; reflexivity.
Qed.

Lemma for_each_sendEmail_db (admins : list UserRow) (mk : UserRow → Email)
    (w : World) :
  db (run (for_each admins (λ a, await (sendEmail (mk a)))) w).2 = db w.
Proof.
  revert w. induction admins as [|a rest IH]; intros w; [done|].
  cbn [for_each]. rewrite run_bind, run_await.
  pose proof (sendEmail_db (mk a) w) as Hdb.
  destruct (sendEmail (mk a) w) as [[[]|e] w1]; simpl in *.
  - rewrite IH. exact Hdb.
  - exact Hdb.
Qed.

Lemma sendUserLimitAlerts_run (hid : string) (c m : Z) (w : World) :
  ∃ w', run (sendUserLimitAlerts hid c m) w = (Resolved (), w') ∧ db w' = db w.
Proof.
  unfold sendUserLimitAlerts. rewrite run_try_catch.
  destruct (utilization_ge_80 c m); [|simpl; eauto].
  rewrite run_bind, run_await. unfold select_verified_admins.
  destruct (query_cases (λ w0, (Resolved (verified_admins hid (db w0)), w0)) w)
    as [-> | ->]; [|simpl; eauto].
  match goal with |- context [run (for_each ?l ?f) ?w0] =>
    pose proof (for_each_sendEmail_db l
      (λ admin, mkEmail (u_email admin) "Fire Finance - User Limit Alert"
                        "user-limit-warning") w0) as Hdb;
    cbv beta in Hdb;
    destruct (run (for_each l f) w0) as [[[]|e] w1] eqn:E
  end; rewrite ?E in Hdb; simpl in *; eauto.
Qed.

Ltac round_trip :=
  rewrite ?run_bind, ?run_await;
  match goal with
  | |- context [query ?f ?w] =>
      destruct (query_cases f w) as [-> | ->]
  end.

Lemma canAddUserToHousehold_run (MAX_USERS : option Z) (hid : string)
    (w : World) :
  run (canAddUserToHousehold MAX_USERS hid) w =
  (if store_up 1 w
   then Resolved (mkCapacity
          (activeMemberCount hid (db w) <? maxUsers_of MAX_USERS)
          (activeMemberCount hid (db w)) (maxUsers_of MAX_USERS)
          (maxUsers_of MAX_USERS - activeMemberCount hid (db w)))
   else Rejected DbError, served w).
Proof.
  unfold canAddUserToHousehold. rewrite run_try_catch, run_bind, run_await.
  unfold count_active. destruct (store_up 1 w) eqn:E.
  - rewrite query_up by done. reflexivity.
  - rewrite query_down by done. reflexivity.
Qed.

(** What one run of the accept handler can do to the store: nothing, or
    insert the membership row of a pending invitation whose household was
    below the cap when counted, and after that possibly mark that
    invitation accepted. *)
Lemma accept_handler_effect (MAX_USERS : option Z) (req : Request) (w : World) :
  let w' := (run (accept_handler MAX_USERS req) w).2 in
  db w' = db w
  ∨ ∃ user inv id,
      req_user req = Some user
      ∧ find_pending_invitation (params_invitationId req) (clock w) (db w)
        = Some inv
      ∧ activeMemberCount (i_household_id inv) (db w) < maxUsers_of MAX_USERS
      ∧ let row := accepted_member inv (u_id user) id (clock w) in
        db w' = set_members (λ rows, rows ++ [row]) (db w)
        ∨ db w' = set_invitations
                    (update_where (λ i, i_id i = params_invitationId req)
                                  (mark_accepted (clock w)))
                    (set_members (λ rows, rows ++ [row]) (db w)).
Proof.
  unfold accept_handler. rewrite run_try_catch.
  match goal with |- context [run ?p w] =>
    assert (H : ∀ o w1, run p w = (o, w1) →
       db w1 = db w
       ∨ ∃ user inv id,
          req_user req = Some user
          ∧ find_pending_invitation (params_invitationId req) (clock w) (db w)
            = Some inv
          ∧ activeMemberCount (i_household_id inv) (db w) < maxUsers_of MAX_USERS
          ∧ let row := accepted_member inv (u_id user) id (clock w) in
            db w1 = set_members (λ rows, rows ++ [row]) (db w)
            ∨ db w1 = set_invitations
                        (update_where (λ i, i_id i = params_invitationId req)
                                      (mark_accepted (clock w)))
                        (set_members (λ rows, rows ++ [row]) (db w)));
    [| destruct (run p w) as [[r|e] w1] eqn:E; simpl; eapply H; eauto ]
  end.
  intros o w1. destruct (req_user req) as [user|]; [|intros [= <- <-]; by left].
  unfold first_pending_invitation. round_trip; [|intros [= <- <-]; by left].
  cbn [db served set_faults clock].
  destruct (find_pending_invitation _ _ _) as [inv|] eqn:Hinv;
    [|intros [= <- <-]; by left].
  case_bool_decide; [intros [= <- <-]; by left|].
  rewrite run_bind, canAddUserToHousehold_run.
  destruct (store_up 1 (served w)); [|intros [= <- <-]; by left].
  cbn [canAdd maxUsers currentUsers].
  destruct (Z.ltb_spec (activeMemberCount (i_household_id inv) (db (served w)))
              (maxUsers_of MAX_USERS)) as [Hlt|Hge];
    [|intros [= <- <-]; by left].
  cbn [negb]. unfold insert_member. round_trip; [|intros [= <- <-]; by left].
  cbn [db served set_faults clock next_uuid].
  destruct (member_exists _ _ _); [intros [= <- <-]; by left|].
  unfold accept_invitation. round_trip.
  2:{ intros [= <- <-]. right. exists user, inv, (uuid_of (next_uuid w)).
      repeat split; try done. by left. }
  rewrite run_bind.
  match goal with |- context [run (if ?c then _ else _) ?w0] =>
    assert (∃ w2, run (if c then sendUserLimitAlerts (i_household_id inv)
                       (activeMemberCount (i_household_id inv) (db w) + 1)
                       (maxUsers_of MAX_USERS) else Ret ()) w0
                  = (Resolved (), w2) ∧ db w2 = db w0) as (w2 & -> & Hdb)
  end.
  { destruct (_ <=? _); [apply sendUserLimitAlerts_run|simpl; eauto]. }
  intros [= <- <-]. right. exists user, inv, (uuid_of (next_uuid w)).
  repeat split; try done. right. rewrite Hdb. reflexivity.
Qed.

Lemma elem_of_update_where {A : Type} (P : A → Prop) `{∀ x, Decision (P x)}
    (f : A → A) (rows : list A) (x : A) :
  x ∈ update_where P f rows → x ∈ rows ∨ ∃ y, y ∈ rows ∧ P y ∧ x = f y.
Proof.
  unfold update_where. rewrite list_elem_of_fmap. intros (y & -> & Hy).
  case_decide; eauto.
Qed.

Lemma accept_handler_denied (MAX_USERS : option Z) (req : Request) (w : World)
    (user : UserRow) (inv : InvitationRow) :
  req_user req = Some user →
  find_pending_invitation (params_invitationId req) (clock w) (db w) = Some inv →
  u_email user = i_email inv →
  maxUsers_of MAX_USERS ≤ activeMemberCount (i_household_id inv) (db w) →
  store_up 2 w = true →
  run (accept_handler MAX_USERS req) w =
  (Resolved (accept_denied (maxUsers_of MAX_USERS)), served (served w)).
Proof.
  intros Huser Hinv Hmail Hfull Hup.
  apply store_up_S in Hup as [Hup1 Hup2].
  unfold accept_handler. rewrite run_try_catch, Huser.
  rewrite run_bind, run_await. unfold first_pending_invitation.
  rewrite query_up by done. cbn [db served set_faults clock].
  change (db (set_faults (tail (faults w)) w)) with (db w).
  change (clock (set_faults (tail (faults w)) w)) with (clock w).
  rewrite Hinv. rewrite bool_decide_eq_false_2 by (intros ?; done).
  rewrite run_bind, canAddUserToHousehold_run.
  change (set_faults (tail (faults w)) w) with (served w).
  rewrite Hup2. cbn [canAdd maxUsers]. rewrite db_served.
  destruct (Z.ltb_spec (activeMemberCount (i_household_id inv) (db w))
              (maxUsers_of MAX_USERS)); [lia|]. reflexivity.
Qed.

(** C3. An accept request whose capacity check denies admission (the
    invitation is found pending and unexpired, it is addressed to the
    caller, and the household already has [maxUsers] active members)
    is answered 403 "User limit reached" and leaves the store as it was: the
    invitation stays pending and no membership row appears.  And whatever
    the request and the store do, an invitation row changed by the accept
    handler is an invitation marked accepted, and then the handler has
    inserted an active membership row for the caller. *)
Theorem accept_denied_keeps_invitation_pending
    (MAX_USERS : option Z) (req : Request) (w : World)
    (o : Outcome Response) (w' : World) :
  run (accept_handler MAX_USERS req) w = (o, w') →
  (∀ user inv,
     req_user req = Some user →
     find_pending_invitation (params_invitationId req) (clock w) (db w)
       = Some inv →
     u_email user = i_email inv →
     maxUsers_of MAX_USERS ≤ activeMemberCount (i_household_id inv) (db w) →
     store_up 2 w = true →
     o = Resolved (accept_denied (maxUsers_of MAX_USERS))
     ∧ status (accept_denied (maxUsers_of MAX_USERS)) = 403
     ∧ field "error" (body (accept_denied (maxUsers_of MAX_USERS)))
       = Some (JStr "User limit reached")
     ∧ db w' = db w
     ∧ inv ∈ household_invitations (db w') ∧ i_status inv = Pending)
  ∧ (∀ i', i' ∈ household_invitations (db w') →
           i' ∉ household_invitations (db w) →
           i_status i' = Accepted
           ∧ ∃ user row,
               req_user req = Some user
               ∧ household_members (db w') = household_members (db w) ++ [row]
               ∧ m_user_id row = u_id user
               ∧ m_is_active row = true).
Proof.
  intros Hrun. split.
  - intros user inv Huser Hinv Hmail Hfull Hup.
    rewrite (accept_handler_denied _ _ _ _ _ Huser Hinv Hmail Hfull Hup) in Hrun.
    injection Hrun as <- <-. repeat split.
    + unfold find_pending_invitation, first_where in Hinv.
      apply head_Some_elem_of in Hinv.
      apply list_elem_of_filter in Hinv as [_ Hin]. exact Hin.
    + unfold find_pending_invitation, first_where in Hinv.
      apply head_Some_elem_of in Hinv.
      apply list_elem_of_filter in Hinv as [(_ & Hst & _) _]. exact Hst.
  - intros i' Hnew Hold.
    pose proof (accept_handler_effect MAX_USERS req w) as Heff.
    rewrite Hrun in Heff. simpl in Heff.
    destruct Heff as [Hsame | (user & inv & id & Huser & _ & _ & [Hdb | Hdb])].
    + rewrite Hsame in Hnew. contradiction.
    + rewrite Hdb in Hnew. contradiction.
    + rewrite Hdb in Hnew |- *. simpl in Hnew |- *.
      apply elem_of_update_where in Hnew as [Hin | (y & Hy & _ & ->)];
        [contradiction|].
      split; [reflexivity|]. eexists user, _. repeat split; done.
Qed.

Lemma accept_denied_keeps_invitation_pending_witness :
  let req := with_user (sample_user 5) (accept_request 5) in
  let r := run (accept_handler None req) (household_with 5) in
  r.1 = Resolved (accept_denied 5) ∧ db r.2 = db (household_with 5).
Proof.
  intros req r.
  destruct (proj1 (accept_denied_keeps_invitation_pending None req
                     (household_with 5) r.1 r.2 (surjective_pairing r))
              (sample_user 5) (sample_invitation 5))
    as (H1 & _ & _ & H2 & _);
    [reflexivity | reflexivity | reflexivity
    | vm_compute; discriminate | reflexivity | split; [exact H1 | exact H2]].
Defined.

(** ** The admission cap *)

Lemma activeMemberCount_insert (hid : string) (row : MemberRow) (d : Db) :
  activeMemberCount hid (set_members (λ rows, rows ++ [row]) d) =
  activeMemberCount hid d + (if decide (is_active_in hid row) then 1 else 0).
Proof.
  unfold activeMemberCount. simpl.
  rewrite list.filter_app, length_app.
  rewrite list.filter_cons, list.filter_nil.
  case_decide; simpl; lia.
Qed.

Lemma activeMemberCount_invitations (hid : string)
    (f : list InvitationRow → list InvitationRow) (d : Db) :
  activeMemberCount hid (set_invitations f d) = activeMemberCount hid d.
Proof. reflexivity. Qed.

(** Served one at a time, accept requests keep every household within the
    cap. *)
Lemma sequential_accept_keeps_cap (MAX_USERS : option Z) (req : Request)
    (w : World) (hid : string) :
  activeMemberCount hid (db w) ≤ maxUsers_of MAX_USERS →
  activeMemberCount hid (db (run (accept_handler MAX_USERS req) w).2)
    ≤ maxUsers_of MAX_USERS.
Proof.
  intros Hcap.
  destruct (accept_handler_effect MAX_USERS req w)
    as [-> | (user & inv & id & _ & _ & Hlt & [-> | ->])]; [done| |].
  - rewrite activeMemberCount_insert. case_decide as Hrow; [|lia].
    destruct Hrow as [<- _]. simpl in *. lia.
  - rewrite activeMemberCount_invitations, activeMemberCount_insert.
    case_decide as Hrow; [|lia]. destruct Hrow as [<- _]. simpl in *. lia.
Qed.

(** C1 (the code breaks it).  Household [h1] has 4 active members and the
    cap is 5.  Two accept requests are in flight and the store serves their
    round-trips in turn: both counts read 4, both requests are told the
    invitation was accepted, and the committed store ends with 6 active
    members. *)
Theorem concurrent_accepts_exceed_cap :
  let r := interleave alternating two_accepts (household_with 4) in
  activeMemberCount "h1" (db (household_with 4)) = 4
  ∧ maxUsers_of None = 5
  ∧ (λ p, status <$> finished p) <$> r.1 = [Some 200; Some 200]
  ∧ activeMemberCount "h1" (db r.2) = 6.
Proof. vm_compute. repeat split. Qed.

(** ** The shape of an admission rejection *)

(** Every 403 of the cap middleware carries both counts. *)
Lemma checkUserCap_rejection_has_counts (MAX_USERS : option Z) (req : Request)
    (w w' : World) (resp : Response) :
  run (checkUserCap MAX_USERS req) w = (Resolved (inl resp), w') →
  status resp = 403 →
  ∃ n, body resp = user_limit_body n (maxUsers_of MAX_USERS)
       ∧ maxUsers_of MAX_USERS ≤ n
       ∧ field "currentUsers" (body resp) = Some (JNum n)
       ∧ field "maxUsers" (body resp) = Some (JNum (maxUsers_of MAX_USERS)).
Proof.
  unfold checkUserCap. rewrite run_try_catch.
  destruct (negb (truthy _)); [intros [= <- <-]; discriminate|].
  rewrite run_bind, run_await. unfold count_active.
  match goal with |- context [query ?f ?w] =>
    destruct (query_cases f w) as [-> | ->] end.
  - match goal with |- context [?a <=? ?b] => destruct (Z.leb_spec a b) end.
    + intros [= <- <-] _. eexists. repeat split. done.
    + intros [=].
  - intros [= <- <-]; discriminate.
Qed.

(** C2 (the code breaks it).  Household [h1] has 5 active members and the
    cap is 5.  A registration that names [h1] is refused by the cap
    middleware with 403, "User limit reached", [currentUsers = 5] and
    [maxUsers = 5]; the sixth accept is refused with 403 and
    "User limit reached" too, but its body has neither a [currentUsers] nor
    a [maxUsers] field. *)
Theorem accept_rejection_omits_counts :
  let capped := run (register_route None register_into_h1) (household_with 5) in
  let accept := run (accept_route None (accept_request 5)) (household_with 5) in
  activeMemberCount "h1" (db (household_with 5)) = 5
  ∧ capped.1 = Resolved (mkResponse 403 (user_limit_body 5 5))
  ∧ field "currentUsers" (user_limit_body 5 5) = Some (JNum 5)
  ∧ field "maxUsers" (user_limit_body 5 5) = Some (JNum 5)
  ∧ accept.1 = Resolved (accept_denied 5)
  ∧ status (accept_denied 5) = 403
  ∧ field "error" (body (accept_denied 5)) = Some (JStr "User limit reached")
  ∧ field "currentUsers" (body (accept_denied 5)) = None
  ∧ field "maxUsers" (body (accept_denied 5)) = None
  ∧ db accept.2 = db (household_with 5).
Proof. vm_compute. repeat split. Qed.

(** ** Inviting a deactivated member *)

Lemma elem_of_update_where_hit {A : Type} (P : A → Prop)
    `{∀ x, Decision (P x)} (f : A → A) (rows : list A) (x : A) :
  x ∈ rows → P x → f x ∈ update_where P f rows.
Proof.
  intros Hin HP. unfold update_where. apply list_elem_of_fmap.
  exists x. by rewrite decide_True.
Qed.

(** The whole invite route on sample data.  With 4 active members out of 5
    the guards let the admin's request through and [u4] is reactivated as a
    viewer; with 5 active members the cap middleware refuses the request
    and [u4] stays inactive. *)
Lemma invite_route_on_samples :
  let ok := run (invite_route None raw_invite_request) (admin_world 3) in
  let full := run (invite_route None raw_invite_request) (admin_world 4) in
  (status <$> (match ok.1 with Resolved r => Some r | Rejected _ => None end))
    = Some 200
  ∧ find_member "h1" "u4" (db ok.2)
    = Some (reactivate "viewer" "read_write" 10 (sample_member 4 false))
  ∧ household_invitations (db ok.2) = []
  ∧ sent_emails ok.2 = []
  ∧ full.1 = Resolved (mkResponse 403 (user_limit_body 5 5))
  ∧ db full.2 = db (admin_world 4).
Proof. vm_compute. repeat split. Qed.

(** ** Presence *)

Lemma socket_auth_run (verify : string → option string) (sid : string)
    (hs : Handshake) (w : World) :
  let r := run (socket_auth verify sid hs) w in
  hub r.2 = hub w ∧ clock r.2 = clock w ∧ db r.2 = db w
  ∧ ∀ s, r.1 = Resolved (inr s) → sock_id s = sid.
Proof.
  unfold socket_auth. rewrite run_try_catch.
  match goal with |- context [run ?p w] =>
    assert (H : ∀ o w1, run p w = (o, w1) →
              hub w1 = hub w ∧ clock w1 = clock w ∧ db w1 = db w
              ∧ ∀ s, o = Resolved (inr s) → sock_id s = sid);
    [| destruct (run p w) as [[a|e] w1]; simpl;
       destruct (H _ _ eq_refl) as (? & ? & ? & Hs); repeat split; try done;
       intros s [= ->]; by apply Hs ]
  end.
  intros o w1.
  destruct (auth_token hs) as [[|c token]|];
    try (intros [= <- <-]; repeat split; done).
  destruct (verify _) as [id|]; [|intros [= <- <-]; repeat split; done].
  unfold first_active_user. round_trip;
    [|intros [= <- <-]; repeat split; done].
  destruct (first_where _ _) as [user|];
    [|intros [= <- <-]; repeat split; done].
  rewrite run_bind.
  assert (∃ b, run (match u_locked_until user with
                    | Some until => t ← peek clock; Ret (t <? until)
                    | None => Ret false
                    end) (served w) = (Resolved b, served w)) as [b ->].
  { destruct (u_locked_until user); simpl; eauto. }
  destruct b; [intros [= <- <-]; repeat split; done|].
  unfold select_households. round_trip;
    intros [= <- <-]; repeat split; try done.
  by intros s [= <-].
Qed.

Lemma emitted_emit (t : Target) (ev : Event) (w : World) :
  emitted (hub (emit t ev w)) =
  emitted (hub w) ++ [mkEmission t ev (recipients (hub w) t)].
Proof. reflexivity. Qed.

Lemma joins_keep_log (sid : string) (hs : list HouseholdInfo) (w : World) :
  let w' := foldl (λ w' household,
                     join sid ("household:" +:+ hi_id household) w') w hs in
  emitted (hub w') = emitted (hub w) ∧ sockets (hub w') = sockets (hub w)
  ∧ clock w' = clock w.
Proof.
  revert w. induction hs as [|h hs IH]; intros w; simpl; [done|].
  destruct (IH (join sid ("household:" +:+ hi_id h) w)) as (-> & -> & ->).
  done.
Qed.

Lemma on_connection_log (s : Socket) (w : World) :
  emitted (hub (on_connection s w)) =
  emitted (hub w) ++
  [mkEmission (ToAllExcept (sock_id s))
     (user_online (su_id (sock_user s)) (su_username (sock_user s)) (clock w))
     (elements (dom (sockets (hub w)) ∖ {[sock_id s]}))]
  ∧ sockets (hub (on_connection s w)) = sockets (hub w).
Proof.
  unfold on_connection.
  pose proof (joins_keep_log (sock_id s) (su_households (sock_user s))
                (join (sock_id s) ("user:" +:+ su_id (sock_user s)) w))
    as (Hlog & Hsock & Hclock).
  simpl in *. rewrite Hlog, Hsock, Hclock. done.
Qed.

Lemma connect_success (verify : string → option string) (sid : string)
    (hs : Handshake) (w w' : World) (s : Socket) :
  connect verify sid hs w = (Some s, w') →
  sock_id s = sid
  ∧ emitted (hub w') =
    emitted (hub w) ++
    [mkEmission (ToAllExcept sid)
       (user_online (su_id (sock_user s)) (su_username (sock_user s)) (clock w))
       (elements (dom (sockets (hub w)) ∖ {[sid]}))]
  ∧ sockets (hub w') = <[sid := s]> (sockets (hub w)).
Proof.
  unfold connect.
  pose proof (socket_auth_run verify sid hs w) as (Hhub & Hclock & _ & Hsid).
  destruct (run (socket_auth verify sid hs) w) as [[[msg|s0]|e] w1];
    simpl in *; try (intros [=]; fail).
  intros [= -> <-]. specialize (Hsid s eq_refl). subst sid.
  destruct (on_connection_log s (register_socket s w1)) as [-> ->].
  simpl. rewrite Hhub, Hclock. repeat split.
  rewrite dom_insert_L.
  replace (({[sock_id s]} ∪ dom (sockets (hub w))) ∖ {[sock_id s]})
    with (dom (sockets (hub w)) ∖ {[sock_id s]}) by set_solver.
  reflexivity.
Qed.

Lemma disconnect_log (s : Socket) (w : World) :
  emitted (hub (disconnect s w)) =
  emitted (hub w) ++
  [mkEmission (ToAllExcept (sock_id s))
     (user_offline (su_id (sock_user s)) (su_username (sock_user s)) (clock w))
     (elements (dom (sockets (hub w)) ∖ {[sock_id s]}))]
  ∧ sockets (hub (disconnect s w)) = delete (sock_id s) (sockets (hub w)).
Proof.
  unfold disconnect, on_disconnect. simpl. split; [|done].
  rewrite dom_delete_L.
  replace (dom (sockets (hub w)) ∖ {[sock_id s]} ∖ {[sock_id s]})
    with (dom (sockets (hub w)) ∖ {[sock_id s]}) by set_solver.
  reflexivity.
Qed.

(** C7. Presence is announced per connection.  A connection that passes the
    authentication middleware adds exactly one emission to the log, a
    [user:online] broadcast to every other socket; a disconnect adds exactly
    one, a [user:offline] broadcast.  So when the same user opens two
    sessions and the first one closes, the log has grown by two online
    events and one offline event for that user, while the second session is
    still connected (and is among the receivers of the offline event). *)
Theorem presence_is_per_connection (verify : string → option string) :
  (∀ sid hs w s w',
     connect verify sid hs w = (Some s, w') →
     ∃ to, emitted (hub w') =
           emitted (hub w) ++
           [mkEmission (ToAllExcept sid)
              (user_online (su_id (sock_user s)) (su_username (sock_user s))
                 (clock w)) to])
  ∧ (∀ s w,
       ∃ to, emitted (hub (disconnect s w)) =
             emitted (hub w) ++
             [mkEmission (ToAllExcept (sock_id s))
                (user_offline (su_id (sock_user s)) (su_username (sock_user s))
                   (clock w)) to])
  ∧ (∀ sid1 sid2 hs1 hs2 w s1 w1 s2 w2,
       connect verify sid1 hs1 w = (Some s1, w1) →
       connect verify sid2 hs2 w1 = (Some s2, w2) →
       su_id (sock_user s1) = su_id (sock_user s2) →
       sid1 ≠ sid2 →
       ∃ to1 to2 to3,
         emitted (hub (disconnect s1 w2)) =
         emitted (hub w) ++
         [mkEmission (ToAllExcept sid1)
            (user_online (su_id (sock_user s1)) (su_username (sock_user s1))
               (clock w)) to1;
          mkEmission (ToAllExcept sid2)
            (user_online (su_id (sock_user s1)) (su_username (sock_user s2))
               (clock w1)) to2;
          mkEmission (ToAllExcept sid1)
            (user_offline (su_id (sock_user s1)) (su_username (sock_user s1))
               (clock w2)) to3]
         ∧ sockets (hub (disconnect s1 w2)) !! sid2 = Some s2
         ∧ sid2 ∈ to3).
Proof.
  split; [|split].
  - intros sid hs w s w' Hc.
    apply connect_success in Hc as (_ & -> & _). eauto.
  - intros s w. destruct (disconnect_log s w) as [-> _]. eauto.
  - intros sid1 sid2 hs1 hs2 w s1 w1 s2 w2 Hc1 Hc2 Hsame Hne.
    apply connect_success in Hc1 as (Hs1 & Hlog1 & Hsock1).
    apply connect_success in Hc2 as (Hs2 & Hlog2 & Hsock2).
    destruct (disconnect_log s1 w2) as [-> ->].
    rewrite Hlog2, Hlog1, <- Hsame, Hs1, <- !app_assoc. simpl.
    do 3 eexists. split; [reflexivity|]. split.
    + rewrite Hsock2, lookup_delete_ne by done. apply lookup_insert_eq.
    + apply elem_of_elements. rewrite Hsock2, dom_insert_L. set_solver.
Qed.

Lemma presence_is_per_connection_witness :
  let w0 := household_with 4 in
  let w1 := (connect sample_verify "s1" (token_of "u1") w0).2 in
  let w2 := (connect sample_verify "s2" (token_of "u1") w1).2 in
  let s1 := session_of_u1 "s1" in
  let s2 := session_of_u1 "s2" in
  ∃ to1 to2 to3,
    emitted (hub (disconnect s1 w2)) =
    emitted (hub w0) ++
    [mkEmission (ToAllExcept "s1")
       (user_online (su_id (sock_user s1)) (su_username (sock_user s1))
          (clock w0)) to1;
     mkEmission (ToAllExcept "s2")
       (user_online (su_id (sock_user s1)) (su_username (sock_user s2))
          (clock w1)) to2;
     mkEmission (ToAllExcept "s1")
       (user_offline (su_id (sock_user s1)) (su_username (sock_user s1))
          (clock w2)) to3]
    ∧ sockets (hub (disconnect s1 w2)) !! "s2" = Some s2
    ∧ "s2" ∈ to3.
Proof.
  intros w0 w1 w2 s1 s2.
  apply (proj2 (proj2 (presence_is_per_connection sample_verify))
           "s1" "s2" (token_of "u1") (token_of "u1") w0 s1 w1 s2 w2).
  - vm_compute. reflexivity.
  - vm_compute. reflexivity.
  - reflexivity.
  - discriminate.
Defined.

(** ** Joining rooms *)

(** C4 (as the code has it).  A [collab:join] that names a document is
    checked against the session's household list, loaded when it connected,
    only when it carries a household id.  If it does, the session is let
    in exactly when the list contains that household: otherwise it gets the
    error "Access denied to this household" and the rooms stay as they
    were.  If it carries none, the session is let in unchecked, and so is
    every [chat:join].  Let in means: put in the room, no error sent. *)
Theorem join_checks_only_named_household
    (s : Socket) (d : CollabData) (w : World) :
  truthy (cd_documentType d) = true →
  truthy (cd_documentId d) = true →
  let w' := on_collab_join s d w in
  let denied :=
    rooms (hub w') = rooms (hub w)
    ∧ emitted (hub w') =
      emitted (hub w) ++
      [mkEmission (ToSocket (sock_id s))
         (error_event "Access denied to this household")
         (recipients (hub w) (ToSocket (sock_id s)))] in
  let admitted :=
    sock_id s ∈ room_members (collab_room d) (hub w')
    ∧ ∀ em msg, em ∈ emitted (hub w') → em_event em = error_event msg →
                em ∈ emitted (hub w) in
  (∀ householdId,
     cd_householdId d = Some householdId → householdId ≠ "" →
     (hasAccess s householdId = false → denied)
     ∧ (hasAccess s householdId = true → admitted))
  ∧ (truthy (cd_householdId d) = false → admitted)
  ∧ (∀ c : ChatData,
       let joined := (run (on_chat_join s c) w).2 in
       sock_id s ∈ room_members (chat_room (ch_roomType c) (ch_roomId c))
                                (hub joined)
       ∧ ∀ em msg, em ∈ emitted (hub joined) →
                   em_event em = error_event msg → em ∈ emitted (hub w)).
Proof.
  intros Htype Hid w' denied admitted.
  assert (on_collab_join s d w =
          (if truthy (cd_householdId d)
              && negb (hasAccess s (default "" (cd_householdId d)))
           then emit (ToSocket (sock_id s))
                  (error_event "Access denied to this household") w
           else
             let w1 := join (sock_id s) (collab_room d) w in
             emit (ToSocket (sock_id s))
               (collab_collaborators (tmpl (cd_documentType d))
                  (tmpl (cd_documentId d))
                  (collaborators_of (collab_room d) (hub w1)))
               (emit (ToRoomExcept (collab_room d) (sock_id s))
                  (collab_user_joined (userInfo (sock_user s)) (clock w1))
                  w1))) as Hjoin.
  { unfold on_collab_join. by rewrite Htype, Hid. }
  assert (truthy (cd_householdId d)
          && negb (hasAccess s (default "" (cd_householdId d))) = false
          → admitted) as Hadmitted.
  { intros Hpass. subst admitted w'. rewrite Hjoin, Hpass. split.
    - unfold room_members at 1. simpl. rewrite lookup_insert_eq. set_solver.
    - intros em msg Hem Hev. simpl in Hem. rewrite <- app_assoc in Hem.
      apply elem_of_app in Hem as [Hem | Hem]; [done|].
      apply elem_of_cons in Hem as [-> | Hem]; [discriminate Hev|].
      apply list_elem_of_singleton in Hem as ->. discriminate Hev. }
  split; [|split].
  - intros householdId Hh Hne. split; intros Hacc.
    + subst denied w'. rewrite Hjoin, Hh. simpl.
      rewrite (bool_decide_eq_true_2 (householdId ≠ "")) by done.
      rewrite Hacc. done.
    + apply Hadmitted. rewrite Hh. simpl. rewrite Hacc.
      by rewrite andb_false_r.
  - intros Hnone. apply Hadmitted. by rewrite Hnone.
  - intros c joined. subst joined. unfold on_chat_join.
    rewrite run_bind, run_perform. unfold sendRecentMessages.
    rewrite run_try_catch, run_bind, run_await.
    unfold select_recent. round_trip; simpl.
    + split.
      * unfold room_members at 1. simpl. rewrite lookup_insert_eq. set_solver.
      * intros em msg Hem Hev.
        apply elem_of_app in Hem as [Hem | Hem]; [done|].
        apply list_elem_of_singleton in Hem as ->. discriminate Hev.
    + split; [|done].
      unfold room_members at 1. simpl. rewrite lookup_insert_eq. set_solver.
Qed.

Lemma join_checks_only_named_household_witness :
  rooms (hub (on_collab_join outsider (budget_of (Some "h1")) chat_world)) = ∅
  ∧ bool_decide ("s0" ∈ room_members "collab:budget:b1"
       (hub (on_collab_join insider (budget_of (Some "h1")) chat_world))) = true
  ∧ bool_decide ("s7" ∈ room_members "collab:budget:b1"
       (hub (on_collab_join outsider (budget_of None) chat_world))) = true.
Proof.
  destruct (join_checks_only_named_household outsider (budget_of (Some "h1"))
              chat_world eq_refl eq_refl) as [H1 _].
  destruct (H1 "h1" eq_refl) as [[H1' _] _];
    [discriminate | reflexivity |].
  destruct (join_checks_only_named_household insider (budget_of (Some "h1"))
              chat_world eq_refl eq_refl) as [H2 _].
  destruct (H2 "h1" eq_refl) as [_ H2']; [discriminate|].
  destruct (join_checks_only_named_household outsider (budget_of None)
              chat_world eq_refl eq_refl) as (_ & H3 & _).
  split; [exact H1'|]. split.
  - apply bool_decide_eq_true_2. apply H2'. reflexivity.
  - apply bool_decide_eq_true_2. apply H3. reflexivity.
Defined.

(** C4 (as stated, refuted).  [u7] belongs to no household: the session the
    gateway builds for [u7] has an empty household list.  Its [chat:join] for
    the chat room of household [h1] nevertheless puts it in the room and
    sends it the room's three messages, and its [collab:join] that names no
    household puts it in the document's room; no access error is sent. *)
Lemma joins_without_membership :
  let c := connect sample_verify "s7" (token_of "u7") chat_world in
  let chat := (run (on_chat_join outsider join_h1_chat) c.2).2 in
  let collab := on_collab_join outsider (budget_of None) c.2 in
  c.1 = Some outsider
  ∧ find_member "h1" "u7" (db chat_world) = None
  ∧ hasAccess outsider "h1" = false
  ∧ bool_decide ("s7" ∈ room_members (chat_room "household" "h1") (hub chat))
    = true
  ∧ (em_event <$> emitted (hub chat)) =
    [user_online "u7" "user7" 10;
     chat_history "household" "h1"
       (format_message "household" "h1" <$>
          [(sample_chat 1 1, sample_user 0); (sample_chat 2 2, sample_user 0);
           (sample_chat 3 3, sample_user 0)])]
  ∧ bool_decide ("s7" ∈ room_members "collab:budget:b1" (hub collab)) = true
  ∧ (em_event <$> emitted (hub collab)) =
    [user_online "u7" "user7" 10;
     collab_user_joined (userInfo (sock_user outsider)) 10;
     collab_collaborators "budget" "b1" [userInfo (sock_user outsider)]].
Proof. vm_compute. repeat split. Qed.

(** ** Sending a chat message *)

Lemma inbox_app (sid : string) (log1 log2 : list Emission) :
  inbox sid (log1 ++ log2) = inbox sid log1 ++ inbox sid log2.
Proof. unfold inbox. apply bind_app. Qed.

Lemma deliveries_NoDup (sid : string) (ev : Event) (to : list string) :
  NoDup to →
  (x ← to; if decide (x = sid) then [ev] else []) =
  if decide (sid ∈ to) then [ev] else [].
Proof.
  induction 1 as [|x to Hx Hnd IH]; [done|].
  rewrite bind_cons, IH. destruct (decide (x = sid)) as [->|Hne].
  - rewrite (decide_True (P := sid ∈ sid :: to)) by set_solver.
    rewrite decide_False by done. done.
  - simpl. destruct (decide (sid ∈ to)).
    + rewrite decide_True by set_solver. done.
    + rewrite decide_False by set_solver. done.
Qed.

Lemma inbox_room_emit (sid room : string) (ev : Event) (w : World) :
  inbox sid (emitted (hub (emit (ToRoom room) ev w))) =
  inbox sid (emitted (hub w)) ++
  (if decide (sid ∈ room_members room (hub w)) then [ev] else []).
Proof.
  rewrite emitted_emit, inbox_app. f_equal.
  unfold inbox. rewrite bind_singleton. simpl.
  rewrite deliveries_NoDup by apply NoDup_elements.
  destruct (decide (sid ∈ room_members room (hub w))).
  - rewrite decide_True by (by apply elem_of_elements). done.
  - rewrite decide_False by (by rewrite elem_of_elements). done.
Qed.

Lemma push_one_run (user_id mid : string) (w : World) :
  let r := run (userPrefs ← await (first_prefs user_id);
                match userPrefs with
                | Some p =>
                    if p_push_notifications_enabled p
                    then await (sendPushNotification user_id mid)
                    else Ret ()
                | None => Ret ()
                end) w in
  hub r.2 = hub w ∧ db r.2 = db w.
Proof.
  rewrite run_bind, run_await.
  unfold first_prefs. round_trip; [|done].
  destruct (first_where _ _) as [p|];
    [destruct (p_push_notifications_enabled p)|]; try done.
  rewrite run_await. unfold sendPushNotification.
  match goal with |- context [query ?f ?w0] =>
    destruct (query_cases f w0) as [-> | ->] end; done.
Qed.

Lemma push_loop_run (users : list string) (mid : string) (w : World) :
  let r := run (for_each users (λ user_id,
                 userPrefs ← await (first_prefs user_id);
                 match userPrefs with
                 | Some p =>
                     if p_push_notifications_enabled p
                     then await (sendPushNotification user_id mid)
                     else Ret ()
                 | None => Ret ()
                 end)) w in
  hub r.2 = hub w ∧ db r.2 = db w.
Proof.
  revert w. induction users as [|u users IH]; intros w; [done|].
  cbn [for_each]. rewrite run_bind.
  pose proof (push_one_run u mid w) as [Hhub Hdb]. cbv beta in *.
  match goal with |- context [run ?p w] =>
    destruct (run p w) as [[[]|e] w1] end; simpl in Hhub, Hdb.
  - destruct (IH w1) as [H1 H2]. cbv zeta in H1, H2.
    rewrite H1, H2. done.
  - done.
Qed.

Lemma sendChatNotifications_run (roomType roomId : string) (md : MessageData)
    (w : World) :
  ∃ w', run (sendChatNotifications roomType roomId md) w = (Resolved (), w')
        ∧ hub w' = hub w ∧ db w' = db w.
Proof.
  unfold sendChatNotifications. rewrite run_try_catch, run_bind, run_await.
  unfold select_other_members. round_trip; [|simpl; eauto].
  match goal with |- context [run (for_each ?l ?f) ?w0] =>
    pose proof (push_loop_run l (md_id md) w0) as [Hhub Hdb];
    destruct (run (for_each l f) w0) as [[[]|e] w1]
  end; simpl in *; eauto.
Qed.

Lemma trim_nonempty (message : string) : trim message ≠ "" → message ≠ "".
Proof. intros H ->. by apply H. Qed.

(** C6. A [chat:message] with non-blank text first stores the message: the
    first atomic step of the handler is the insert, and after it the row is
    in [chat_messages] while nothing has been emitted yet.  If the insert
    succeeded the rest of the handler adds exactly one emission, the
    message addressed to the room, and every socket that is in the room
    finds exactly one new entry in its inbox while a socket outside the
    room finds none.  That goes for the sender's own socket too: it gets
    its one copy when it sits in the room and nothing when it does not,
    the handler does not look at that.  If the insert was rejected, nothing
    is stored and the only emission is the error sent to the sender. *)
Theorem chat_message_persisted_then_broadcast
    (s : Socket) (d : ChatData) (w : World) (message : string) :
  ch_message d = Some message →
  trim message ≠ "" →
  let room := chat_room (ch_roomType d) (ch_roomId d) in
  let row := chat_row s d message (uuid_of (next_uuid w)) (clock w) in
  let md := chat_payload s d message (uuid_of (next_uuid w)) (clock w) in
  let w' := (run (on_chat_message s d) w).2 in
  let w1 := (step (on_chat_message s d) w).2 in
  run (step (on_chat_message s d) w).1 w1 = run (on_chat_message s d) w
  ∧ (store_up 1 w = true →
       chat_messages (db w1) = chat_messages (db w) ++ [row]
       ∧ emitted (hub w1) = emitted (hub w)
       ∧ rooms (hub w1) = rooms (hub w)
       ∧ chat_messages (db w') = chat_messages (db w) ++ [row]
       ∧ emitted (hub w') =
         emitted (hub w) ++
         [mkEmission (ToRoom room) (chat_message md)
            (elements (room_members room (hub w)))]
       ∧ (∀ sid, sid ∈ room_members room (hub w) →
            inbox sid (emitted (hub w')) =
            inbox sid (emitted (hub w)) ++ [chat_message md])
       ∧ (∀ sid, sid ∉ room_members room (hub w) →
            inbox sid (emitted (hub w')) = inbox sid (emitted (hub w)))
       ∧ (sock_id s ∈ room_members room (hub w) →
            inbox (sock_id s) (emitted (hub w')) =
            inbox (sock_id s) (emitted (hub w)) ++ [chat_message md]))
  ∧ (store_up 1 w = false →
       chat_messages (db w1) = chat_messages (db w)
       ∧ chat_messages (db w') = chat_messages (db w)
       ∧ emitted (hub w') =
         emitted (hub w) ++
         [mkEmission (ToSocket (sock_id s))
            (error_event "Failed to send message")
            (recipients (hub w) (ToSocket (sock_id s)))]).
Proof.
  intros Hmsg Htrim room row md w' w1.
  assert (message ≠ "") as Hne by by apply trim_nonempty.
  subst w' w1. unfold on_chat_message. rewrite Hmsg.
  rewrite (bool_decide_eq_false_2 (message = "")) by done.
  rewrite (bool_decide_eq_false_2 (trim message = "")) by done.
  cbn [orb]. split; [|split].
  - cbn [step try_catch prog_bind mbind Prog_bind await fst snd run].
    destruct (insert_chat_message _ w) as [o w1]. reflexivity.
  - intros Hup.
    assert (∀ T (f : World → Outcome T * World) k,
              (step (try_catch (await (query f) ≫= k)
                       (λ _, perform (emit (ToSocket (sock_id s))
                          (error_event "Failed to send message")))) w).2
              = (f (served w)).2) as Hstep.
    { intros T f k.
      cbn [step try_catch prog_bind mbind Prog_bind await fst snd].
      rewrite query_up by done. by destruct (f (served w)). }
    unfold insert_chat_message at 1 2 3. rewrite Hstep. clear Hstep.
    rewrite run_try_catch, run_bind, run_await.
    unfold insert_chat_message. rewrite query_up by done.
    rewrite run_bind, run_perform.
    match goal with |- context [run (sendChatNotifications ?a ?b ?c) ?w0] =>
      destruct (sendChatNotifications_run a b c w0) as (w2 & -> & Hhub & Hdb)
    end.
    cbn [fst snd]. rewrite Hhub, Hdb.
    pose proof (inbox_room_emit) as Hin.
    repeat split; try done.
    + intros sid Hsid.
      change (inbox sid (emitted (hub (emit (ToRoom room) (chat_message md)
                (set_db (set_chat (λ rows, rows ++ [row]))
                   (bump_uuid (served w)))))) = inbox sid (emitted (hub w)) ++ [chat_message md]).
      rewrite Hin. change (hub (set_db _ _)) with (hub w).
      by rewrite decide_True.
    + intros sid Hsid.
      change (inbox sid (emitted (hub (emit (ToRoom room) (chat_message md)
                (set_db (set_chat (λ rows, rows ++ [row]))
                   (bump_uuid (served w)))))) = inbox sid (emitted (hub w))).
      rewrite Hin. change (hub (set_db _ _)) with (hub w).
      rewrite decide_False by done. by rewrite app_nil_r.
    + intros Hsid.
      change (inbox (sock_id s) (emitted (hub (emit (ToRoom room)
                (chat_message md)
                (set_db (set_chat (λ rows, rows ++ [row]))
                   (bump_uuid (served w))))))
              = inbox (sock_id s) (emitted (hub w)) ++ [chat_message md]).
      rewrite Hin. change (hub (set_db _ _)) with (hub w).
      by rewrite decide_True.
  - intros Hdown.
    assert (∀ T (f : World → Outcome T * World) k,
              (step (try_catch (await (query f) ≫= k)
                       (λ _, perform (emit (ToSocket (sock_id s))
                          (error_event "Failed to send message")))) w).2
              = served w) as Hstep.
    { intros T f k.
      cbn [step try_catch prog_bind mbind Prog_bind await fst snd].
      rewrite query_down by done. reflexivity. }
    unfold insert_chat_message at 1. rewrite Hstep. clear Hstep.
    rewrite run_try_catch, run_bind, run_await.
    unfold insert_chat_message. rewrite query_down by done.
    rewrite run_perform. done.
Qed.

Lemma chat_message_persisted_then_broadcast_witness :
  let w := chat_room_world in
  let w' := (run (on_chat_message insider hello) w).2 in
  let md := chat_payload insider hello "  hello " (uuid_of (next_uuid w))
                         (clock w) in
  inbox "s0" (emitted (hub w')) = inbox "s0" (emitted (hub w)) ++ [chat_message md]
  ∧ inbox "s7" (emitted (hub w')) = inbox "s7" (emitted (hub w)) ++ [chat_message md].
Proof.
  intros w w' md.
  destruct (chat_message_persisted_then_broadcast insider hello
              chat_room_world "  hello " eq_refl)
    as (_ & Hok & _); [vm_compute; discriminate|].
  destruct (Hok eq_refl) as (_ & _ & _ & _ & _ & Hin & _ & _).
  split.
  - apply (Hin "s0"). refine (bool_decide_eq_true_1 _ _).
    vm_compute. reflexivity.
  - apply (Hin "s7"). refine (bool_decide_eq_true_1 _ _).
    vm_compute. reflexivity.
Defined.

(** ** Chat history *)











(** ** Highlights *)

Lemma elem_of_insert_timer (tm x : Timer) (ts : list Timer) :
  x ∈ insert_timer tm ts ↔ x = tm ∨ x ∈ ts.
Proof.
  induction ts as [|t ts IH]; simpl; [set_solver|].
  destruct (_ <? _); [set_solver|]. rewrite elem_of_cons, IH. set_solver.
Qed.

Lemma fire_all_log (due : list Timer) (w : World) :
  let w' := foldl (λ w' tm, fire (t_action tm) w') w due in
  rooms (hub w') = rooms (hub w)
  ∧ sockets (hub w') = sockets (hub w)
  ∧ timers (hub w') = timers (hub w)
  ∧ emitted (hub w') = emitted (hub w) ++ (timer_emission (hub w) <$> due).
Proof.
  revert w. induction due as [|tm due IH]; intros w; simpl.
  - by rewrite app_nil_r.
  - destruct (IH (fire (t_action tm) w)) as (-> & -> & -> & ->).
    destruct tm as [due_at [sid room uid item]]. simpl.
    by rewrite <- app_assoc.
Qed.

Lemma advance_log (t : Z) (w : World) :
  rooms (hub (advance t w)) = rooms (hub w)
  ∧ sockets (hub (advance t w)) = sockets (hub w)
  ∧ timers (hub (advance t w)) = filter (λ tm, ¬ t_due tm ≤ t) (timers (hub w))
  ∧ emitted (hub (advance t w)) =
    emitted (hub w) ++
    (timer_emission (hub w) <$> filter (λ tm, t_due tm ≤ t) (timers (hub w))).
Proof.
  unfold advance.
  match goal with |- context [foldl ?f ?w0 ?l] =>
    destruct (fire_all_log l w0) as (-> & -> & -> & ->)
  end. done.
Qed.

(** C8 (as the code has it).  [collab:highlight] at time [T] sets one timer,
    due at [T + 30000] ms.  In whatever state the hub is when the clock
    reaches that time or passes it (the creating socket connected or
    not), the timer's firing adds a [collab:highlight-remove] emission
    for the item, delivered to exactly the sockets then in the room other
    than the creating socket; before that time the timer stays pending.  A
    disconnect of the creating socket leaves the timer in place. *)
Theorem highlight_removal_reaches_the_others
    (s : Socket) (d : CollabData) (w : World) :
  let tm := highlight_timer s d (clock w) in
  let w1 := on_collab_highlight s d w in
  timers (hub w1) = insert_timer tm (timers (hub w))
  ∧ tm ∈ timers (hub w1)
  ∧ tm ∈ timers (hub (disconnect s w1))
  ∧ (∀ w2 t, tm ∈ timers (hub w2) → t < clock w + 30000 →
       tm ∈ timers (hub (advance t w2)))
  ∧ (∀ w2 t, tm ∈ timers (hub w2) → clock w + 30000 ≤ t →
       ∃ before after to,
         emitted (hub (advance t w2)) =
         emitted (hub w2) ++ before ++
         [mkEmission (ToRoomExcept (collab_room d) (sock_id s))
            (collab_highlight_remove (su_id (sock_user s)) (cd_itemId d)) to]
         ++ after
         ∧ (∀ x, x ∈ to ↔
                 x ∈ room_members (collab_room d) (hub w2) ∧ x ≠ sock_id s)
         ∧ tm ∉ timers (hub (advance t w2))).
Proof.
  intros tm w1.
  assert (timers (hub w1) = insert_timer tm (timers (hub w))) as Hset
    by reflexivity.
  assert (tm ∈ timers (hub w1)) as Hin
    by (rewrite Hset, elem_of_insert_timer; by left).
  repeat split; try done.
  - intros w2 t Htm Hearly.
    destruct (advance_log t w2) as (_ & _ & -> & _).
    apply list_elem_of_filter. split; [|done]. simpl. unfold highlight_ttl. lia.
  - intros w2 t Htm Hdue.
    destruct (advance_log t w2) as (_ & _ & Htimers & Hlog).
    assert (tm ∈ filter (λ tm, t_due tm ≤ t) (timers (hub w2))) as Hfire.
    { apply list_elem_of_filter. split; [|done].
      simpl. unfold highlight_ttl. lia. }
    apply list_elem_of_split in Hfire as (l1 & l2 & Hsplit).
    exists (timer_emission (hub w2) <$> l1), (timer_emission (hub w2) <$> l2),
           (elements (room_members (collab_room d) (hub w2) ∖ {[sock_id s]})).
    split; [|split].
    + rewrite Hlog, Hsplit, fmap_app. reflexivity.
    + intros x. rewrite elem_of_elements, elem_of_difference.
      by rewrite elem_of_singleton.
    + rewrite Htimers. intros Hstill.
      apply list_elem_of_filter in Hstill as [Hnot _]. apply Hnot.
      simpl. unfold highlight_ttl. lia.
Qed.

(** C8 (as stated, refuted).  [s0] and [s7] are in the room of budget [b1];
    [s0] highlights [row-3] at 10 ms and stays connected and in the room.
    At 30010 ms the removal is emitted and delivered to [s7] only: [s0], a
    session still subscribed to the room, is not reached. *)
Lemma highlight_removal_skips_creator :
  let w1 := on_collab_highlight insider highlight_row3 budget_world in
  let w2 := advance 30010 w1 in
  bool_decide ("s0" ∈ room_members "collab:budget:b1" (hub w2)) = true
  ∧ bool_decide ("s0" ∈ dom (sockets (hub w2))) = true
  ∧ emitted (hub w2) =
    [mkEmission (ToRoomExcept "collab:budget:b1" "s0")
       (collab_highlight "u0" "user0" (Some "row-3") None 10) ["s7"];
     mkEmission (ToRoomExcept "collab:budget:b1" "s0")
       (collab_highlight_remove "u0" (Some "row-3")) ["s7"]]
  ∧ inbox "s0" (emitted (hub w2)) = []
  ∧ inbox "s7" (emitted (hub w2)) =
    [collab_highlight "u0" "user0" (Some "row-3") None 10;
     collab_highlight_remove "u0" (Some "row-3")].
Proof. vm_compute. repeat split. Qed.

Lemma highlight_removal_reaches_the_others_witness :
  let w1 := on_collab_highlight insider highlight_row3 budget_world in
  ∃ before after to,
    emitted (hub (advance 30010 w1)) =
    emitted (hub w1) ++ before ++
    [mkEmission (ToRoomExcept (collab_room highlight_row3) (sock_id insider))
       (collab_highlight_remove (su_id (sock_user insider))
          (cd_itemId highlight_row3)) to]
    ++ after
    ∧ (∀ x, x ∈ to ↔
            x ∈ room_members (collab_room highlight_row3) (hub w1)
            ∧ x ≠ sock_id insider)
    ∧ highlight_timer insider highlight_row3 (clock budget_world)
      ∉ timers (hub (advance 30010 w1)).
Proof.
  intros w1.
  destruct (highlight_removal_reaches_the_others insider highlight_row3
              budget_world) as (_ & Hin & _ & _ & Hfire).
  apply (Hfire w1 30010 Hin). vm_compute. discriminate.
Defined.

(** * Further properties *)

(** ** The cap middleware and the capacity query *)

Lemma checkUserCap_run (MAX_USERS : option Z) (req : Request) (w : World)
    (hid : string) :
  cap_household req = Some hid → hid ≠ "" →
  run (checkUserCap MAX_USERS req) w =
  if store_up 1 w
  then (if maxUsers_of MAX_USERS <=? activeMemberCount hid (db w)
        then Resolved (inl (mkResponse 403
               (user_limit_body (activeMemberCount hid (db w))
                                (maxUsers_of MAX_USERS))))
        else Resolved (inr (with_counts (activeMemberCount hid (db w))
                                        (maxUsers_of MAX_USERS) req)),
        served w)
  else (Resolved (inl (error_response 500 "Failed to check user limit")),
        served w).
Proof.
  intros Hhid Hne. unfold checkUserCap. fold (cap_household req).
  rewrite Hhid. simpl truthy. rewrite bool_decide_eq_true_2 by done.
  cbn [negb default]. rewrite run_try_catch, run_bind, run_await.
  unfold count_active. destruct (store_up 1 w) eqn:Hup.
  - rewrite query_up by done. rewrite db_served.
    by destruct (_ <=? _).
  - rewrite query_down by done. reflexivity.
Qed.

(** X1. For one state of the store, the capacity query and the cap
    middleware agree: [canAdd] holds exactly when at least one slot
    remains, and exactly when the middleware lets a request for that
    household through; the slots and the count add up to the cap, and
    neither of the two writes to the store. *)
Theorem capacity_agrees_with_cap_check
    (MAX_USERS : option Z) (req : Request) (w : World) (hid : string) :
  cap_household req = Some hid → hid ≠ "" →
  store_up 1 w = true →
  ∃ c, (run (canAddUserToHousehold MAX_USERS hid) w).1 = Resolved c
       ∧ currentUsers c = activeMemberCount hid (db w)
       ∧ remainingSlots c + currentUsers c = maxUsers c
       ∧ (canAdd c = true ↔ 1 ≤ remainingSlots c)
       ∧ (canAdd c = true ↔
          ∃ req', (run (checkUserCap MAX_USERS req) w).1 = Resolved (inr req'))
       ∧ db (run (canAddUserToHousehold MAX_USERS hid) w).2 = db w
       ∧ db (run (checkUserCap MAX_USERS req) w).2 = db w.
Proof.
  intros Hhid Hne Hup.
  rewrite canAddUserToHousehold_run, (checkUserCap_run _ _ _ _ Hhid Hne), Hup.
  eexists. split; [reflexivity|]. cbn [currentUsers remainingSlots maxUsers canAdd].
  split; [reflexivity|]. split; [lia|]. split; [rewrite Z.ltb_lt; lia|].
  split; [|split; [reflexivity|by destruct (_ <=? _)]].
  rewrite Z.ltb_lt.
  destruct (Z.leb_spec (maxUsers_of MAX_USERS) (activeMemberCount hid (db w)));
    cbn [fst]; split.
  - lia.
  - intros [req' Hreq]. discriminate Hreq.
  - eauto.
  - lia.
Qed.

Lemma capacity_agrees_with_cap_check_witness :
  ∃ c, (run (canAddUserToHousehold None "h1") (household_with 4)).1 = Resolved c
       ∧ currentUsers c = activeMemberCount "h1" (db (household_with 4))
       ∧ remainingSlots c + currentUsers c = maxUsers c
       ∧ (canAdd c = true ↔ 1 ≤ remainingSlots c)
       ∧ (canAdd c = true ↔
          ∃ req', (run (checkUserCap None names_h1) (household_with 4)).1
                  = Resolved (inr req'))
       ∧ db (run (canAddUserToHousehold None "h1") (household_with 4)).2
         = db (household_with 4)
       ∧ db (run (checkUserCap None names_h1) (household_with 4)).2
         = db (household_with 4).
Proof.
  apply (capacity_agrees_with_cap_check None names_h1 (household_with 4) "h1");
    [reflexivity | discriminate | reflexivity].
Defined.

Lemma activeMemberCount_nonneg (hid : string) (d : Db) :
  0 ≤ activeMemberCount hid d.
Proof. unfold activeMemberCount. lia. Qed.

(** X2. A negative [MAX_USERS] closes every household: whatever the request
    and the store, the cap middleware never calls [next()] and the capacity
    query never answers [canAdd].  A [MAX_USERS] of 0 does not: it is read
    as the default, 5. *)
Theorem negative_cap_admits_nobody (n : Z) (req : Request) (w : World) :
  n < 0 →
  (∀ req', (run (checkUserCap (Some n) req) w).1 ≠ Resolved (inr req'))
  ∧ (∀ hid c, (run (canAddUserToHousehold (Some n) hid) w).1 = Resolved c →
              canAdd c = false)
  ∧ maxUsers_of (Some 0) = 5.
Proof.
  intros Hneg.
  assert (maxUsers_of (Some n) = n) as Hmax by (by destruct n).
  split; [|split; [|done]].
  - intros req'. unfold checkUserCap. fold (cap_household req).
    rewrite run_try_catch.
    destruct (negb (truthy (cap_household req))); [discriminate|].
    rewrite run_bind, run_await. unfold count_active.
    match goal with |- context [query ?f ?w] =>
      destruct (query_cases f w) as [-> | ->] end; [|discriminate].
    rewrite Hmax.
    pose proof (activeMemberCount_nonneg
                  (default "" (cap_household req)) (db (served w))).
    destruct (Z.leb_spec n (activeMemberCount (default "" (cap_household req))
                              (db (served w)))); [discriminate|lia].
  - intros hid c. rewrite canAddUserToHousehold_run.
    destruct (store_up 1 w); [|discriminate].
    cbn [fst]. intros Hc.
    assert (canAdd c = (activeMemberCount hid (db w) <? maxUsers_of (Some n)))
      as -> by (by injection Hc as <-).
    rewrite Hmax.
    pose proof (activeMemberCount_nonneg hid (db w)). apply Z.ltb_ge. lia.
Qed.

Lemma negative_cap_admits_nobody_witness :
  (∀ req', (run (checkUserCap (Some (-1)) names_h1) (household_with 0)).1
           ≠ Resolved (inr req'))
  ∧ (∀ hid c,
       (run (canAddUserToHousehold (Some (-1)) hid) (household_with 0)).1
       = Resolved c → canAdd c = false)
  ∧ maxUsers_of (Some 0) = 5.
Proof.
  apply (negative_cap_admits_nobody (-1) names_h1 (household_with 0)). lia.
Defined.

(** ** Limit alerts *)

Lemma store_up_add_email (n : nat) (e : Email) (w : World) :
  store_up n (add_email e w) = store_up n w.
Proof. reflexivity. Qed.

Lemma send_all_run (admins : list UserRow) (mk : UserRow → Email) (w : World) :
  store_up (length admins) w = true →
  ∃ w', run (for_each admins (λ a, await (sendEmail (mk a)))) w
        = (Resolved (), w')
        ∧ sent_emails w' = sent_emails w ++ (mk <$> admins)
        ∧ db w' = db w.
Proof.
  revert w. induction admins as [|a rest IH]; intros w Hup.
  - exists w. simpl. by rewrite app_nil_r.
  - cbn [for_each]. rewrite run_bind, run_await.
    cbn [length] in Hup. apply store_up_S in Hup as [Hup1 Hup].
    unfold sendEmail at 1. rewrite query_up by done.
    destruct (IH (add_email (mk a) (served w))) as (w' & -> & Hmail & Hdb);
      [by rewrite store_up_add_email|].
    exists w'. split; [done|]. rewrite Hmail, Hdb. split; [|done].
    simpl. by rewrite <- app_assoc.
Qed.

(** X3. [sendUserLimitAlerts] never throws and never writes to the store,
    whatever fails underneath.  Below 80% utilization it does nothing at
    all; from 80% on, when the store and the mailer answer, every verified
    active admin of the household is sent exactly one alert, in order.  For
    a positive cap the threshold is [4 * max ≤ 5 * current]. *)
Theorem limit_alerts_reach_every_admin
    (householdId : string) (currentCount maxCount : Z) (w : World) :
  (∃ w', run (sendUserLimitAlerts householdId currentCount maxCount) w
         = (Resolved (), w') ∧ db w' = db w)
  ∧ (utilization_ge_80 currentCount maxCount = false →
     run (sendUserLimitAlerts householdId currentCount maxCount) w
     = (Resolved (), w))
  ∧ (utilization_ge_80 currentCount maxCount = true →
     store_up (S (length (verified_admins householdId (db w)))) w = true →
     sent_emails (run (sendUserLimitAlerts householdId currentCount maxCount) w).2
     = sent_emails w ++ (alert_mail <$> verified_admins householdId (db w)))
  ∧ (0 < maxCount →
     (utilization_ge_80 currentCount maxCount = true
      ↔ 4 * maxCount ≤ 5 * currentCount)).
Proof.
  split; [apply sendUserLimitAlerts_run|]. split; [|split].
  - intros Hlow. unfold sendUserLimitAlerts. by rewrite Hlow.
  - intros Hhigh Hup. unfold sendUserLimitAlerts.
    rewrite Hhigh, run_try_catch, run_bind, run_await.
    apply store_up_S in Hup as [Hup1 Hup].
    unfold select_verified_admins. rewrite query_up by done.
    rewrite db_served.
    destruct (send_all_run (verified_admins householdId (db w)) alert_mail
                (served w) Hup) as (w' & Hrun & Hmail & _).
    unfold alert_mail in Hrun. rewrite Hrun. exact Hmail.
  - intros Hpos. unfold utilization_ge_80.
    destruct (Z.ltb_spec 0 maxCount); [|lia]. rewrite Z.leb_le. lia.
Qed.

Lemma limit_alerts_reach_every_admin_witness :
  sent_emails (run (sendUserLimitAlerts "h1" 4 5) (alert_world 3)).2
  = sent_emails (alert_world 3)
    ++ (alert_mail <$> verified_admins "h1" (db (alert_world 3))).
Proof.
  apply (proj1 (proj2 (proj2 (limit_alerts_reach_every_admin "h1" 4 5
                                (alert_world 3))))); reflexivity.
Defined.

(** ** Household statistics *)

Lemma insert_asc_Permutation (r : StatsRow) (l : list StatsRow) :
  insert_asc r l ≡ₚ r :: l.
Proof.
  induction l as [|x l IH]; simpl; [done|].
  destruct (_ <? _); [done|]. rewrite IH. apply Permutation_swap.
Qed.

Lemma insert_asc_sorted (r : StatsRow) (l : list StatsRow) :
  StronglySorted joined_earlier l → StronglySorted joined_earlier (insert_asc r l).
Proof.
  induction 1 as [|x l Hl IH Hx]; simpl.
  - repeat constructor.
  - destruct (Z.ltb_spec (m_joined_at r.1) (m_joined_at x.1)) as [Hlt|Hge].
    + constructor; [by constructor|]. constructor; [unfold joined_earlier; lia|].
      rewrite Forall_forall in Hx |- *. intros y Hy.
      specialize (Hx y Hy). unfold joined_earlier in *. lia.
    + constructor; [done|]. rewrite insert_asc_Permutation. by constructor.
Qed.

Lemma orderBy_asc_Permutation (l : list StatsRow) :
  orderBy_joined_at_asc l ≡ₚ l.
Proof.
  induction l as [|x l IH]; simpl; [done|].
  by rewrite insert_asc_Permutation, IH.
Qed.

Lemma orderBy_asc_sorted (l : list StatsRow) :
  StronglySorted joined_earlier (orderBy_joined_at_asc l).
Proof.
  induction l as [|x l IH]; simpl; [constructor|]. by apply insert_asc_sorted.
Qed.

Lemma filter_sorted {A : Type} (R : relation A) (P : A → Prop)
    `{∀ x, Decision (P x)} (l : list A) :
  StronglySorted R l → StronglySorted R (filter P l).
Proof.
  induction 1 as [|x l Hl IH Hx]; [constructor|].
  rewrite list.filter_cons. case_decide; [|done].
  constructor; [done|]. rewrite Forall_forall in Hx |- *.
  intros y Hy. apply list_elem_of_filter in Hy as [_ Hy]. by apply Hx.
Qed.

Lemma filter_none {A : Type} (P : A → Prop) `{∀ x, Decision (P x)}
    (l : list A) :
  (∀ x, x ∈ l → ¬ P x) → filter P l = [].
Proof.
  induction l as [|a l IH]; [done|]. intros Hno.
  rewrite list.filter_cons, decide_False by (apply Hno; left).
  apply IH. intros x Hx. apply Hno. by right.
Qed.

Lemma unique_id_matches (d : list UserRow) (x : string) :
  NoDup (u_id <$> d) → (length (filter (λ u, u_id u = x) d) ≤ 1)%nat.
Proof.
  induction d as [|u d IH]; simpl; [lia|].
  rewrite NoDup_cons. intros [Hnew Hnd]. rewrite list.filter_cons.
  case_decide as Hu; [|by apply IH].
  assert (filter (λ u, u_id u = x) d = []) as ->; [|simpl; lia].
  apply filter_none. intros v Hv Heq.
  apply Hnew. rewrite Hu, <- Heq. by apply list_elem_of_fmap_2.
Qed.

Lemma left_join_users_fst (d : Db) (ms : list MemberRow) :
  user_ids_unique d = true → (left_join_users d ms).*1 = ms.
Proof.
  intros Huniq%bool_decide_eq_true_1. unfold left_join_users.
  induction ms as [|m ms IH]; [done|].
  rewrite bind_cons, fmap_app, IH. f_equal.
  pose proof (unique_id_matches (users d) (m_user_id m) Huniq) as Hlen.
  destruct (filter _ (users d)) as [|u [|??]]; simpl in *; [done|done|lia].
Qed.

Lemma active_rows_length (l : list StatsRow) :
  length (filter (λ user : StatsRow, m_is_active user.1 = true) l)
  = length (filter (λ m, m_is_active m = true) l.*1).
Proof.
  induction l as [|[m u] l IH]; [done|].
  rewrite fmap_cons, !list.filter_cons. cbn [fst].
  destruct (decide (m_is_active m = true)); simpl; by rewrite IH.
Qed.

Lemma getHouseholdUserStats_run (MAX_USERS : option Z) (hid : string)
    (w : World) :
  run (getHouseholdUserStats MAX_USERS hid) w =
  if store_up 1 w
  then
    let stats := orderBy_joined_at_asc
                   (left_join_users (db w)
                      (filter (λ m, m_household_id m = hid)
                              (household_members (db w)))) in
    let activeUsers := filter (λ user, m_is_active user.1 = true) stats in
    let inactiveUsers := filter (λ user, ¬ m_is_active user.1 = true) stats in
    let maxUsers := maxUsers_of MAX_USERS in
    (Resolved (mkStats (len stats) (len activeUsers) (len inactiveUsers)
       maxUsers (maxUsers - len activeUsers)
       (QArith_base.Qmult
          (QArith_base.Qdiv (QArith_base.inject_Z (len activeUsers))
                            (QArith_base.inject_Z maxUsers))
          (QArith_base.inject_Z 100))
       activeUsers inactiveUsers
       (maxUsers - 1 <=? len activeUsers) (maxUsers <=? len activeUsers)
       (maxUsers <? len activeUsers)), served w)
  else (Rejected DbError, served w).
Proof.
  unfold getHouseholdUserStats.
  rewrite run_try_catch, run_bind, run_await. unfold select_stats.
  destruct (store_up 1 w) eqn:Hup.
  - rewrite query_up by done. reflexivity.
  - rewrite query_down by done. reflexivity.
Qed.

(** X4. Whatever [getHouseholdUserStats] returns is consistent: active and
    inactive rows partition the total and each list is ordered by joining
    date; the remaining slots and the active count add up to the cap;
    [overLimit] implies [atLimit], which implies [nearLimit]; [atLimit]
    holds exactly when no slot remains; the store is not written.  With
    unique user ids the active count is the very count the cap check uses,
    so [atLimit] is the negation of [canAdd].  A rejected query is
    rethrown, and the route answers 500. *)
Theorem household_stats_are_consistent
    (MAX_USERS : option Z) (hid : string) (w : World) :
  (store_up 1 w = false →
   (run (getHouseholdUserStats MAX_USERS hid) w).1 = Rejected DbError
   ∧ (run (stats_handler MAX_USERS hid) w).1
     = Resolved (inl (error_response 500 "Failed to get household statistics")))
  ∧ (∀ st w',
       run (getHouseholdUserStats MAX_USERS hid) w = (Resolved st, w') →
       st_totalUsers st = st_activeUsers st + st_inactiveUsers st
       ∧ st_activeUsers st = len (st_active st)
       ∧ st_inactiveUsers st = len (st_inactive st)
       ∧ Forall (λ r, m_is_active r.1 = true) (st_active st)
       ∧ Forall (λ r, m_is_active r.1 = false) (st_inactive st)
       ∧ StronglySorted joined_earlier (st_active st)
       ∧ StronglySorted joined_earlier (st_inactive st)
       ∧ st_remainingSlots st + st_activeUsers st = st_maxUsers st
       ∧ (st_overLimit st = true → st_atLimit st = true)
       ∧ (st_atLimit st = true → st_nearLimit st = true)
       ∧ (st_atLimit st = true ↔ st_remainingSlots st ≤ 0)
       ∧ db w' = db w
       ∧ (user_ids_unique (db w) = true →
          st_activeUsers st = activeMemberCount hid (db w)
          ∧ ∀ c, (run (canAddUserToHousehold MAX_USERS hid) w).1 = Resolved c →
                 st_atLimit st = negb (canAdd c))).
Proof.
  split.
  - intros Hdown. unfold stats_handler.
    rewrite run_try_catch, run_bind, getHouseholdUserStats_run, Hdown. done.
  - intros st w'. rewrite getHouseholdUserStats_run.
    destruct (store_up 1 w) eqn:Hup; [|discriminate].
    cbv zeta. intros [= <- <-].
    cbn [st_totalUsers st_activeUsers st_inactiveUsers st_active st_inactive
         st_remainingSlots st_maxUsers st_overLimit st_atLimit st_nearLimit].
    set (stats := orderBy_joined_at_asc _).
    assert (len (filter (λ user, m_is_active user.1 = true) stats)
            = len (filter (is_active_in hid) (household_members (db w)))
            ∨ user_ids_unique (db w) ≠ true) as Hcount.
    { destruct (user_ids_unique (db w)) eqn:Huniq; [left|by right].
      unfold len. f_equal.
      rewrite active_rows_length. subst stats.
      rewrite (Permutation_length
                 (filter_Permutation _ _ _
                    (fmap_Permutation fst _ _ (orderBy_asc_Permutation _)))).
      rewrite left_join_users_fst by done.
      rewrite list_filter_filter. f_equal.
      apply list_filter_iff. unfold is_active_in. naive_solver. }
    split_and!.
    + unfold len. rewrite <- Nat2Z.inj_add, <- length_app.
      by rewrite (Permutation_length (filter_app_complement _ stats)).
    + done.
    + done.
    + apply Forall_forall. intros r Hr.
      by apply list_elem_of_filter in Hr as [Hr _].
    + apply Forall_forall. intros r Hr.
      apply list_elem_of_filter in Hr as [Hr _]. by destruct (m_is_active r.1).
    + apply filter_sorted, orderBy_asc_sorted.
    + apply filter_sorted, orderBy_asc_sorted.
    + lia.
    + rewrite Z.ltb_lt, Z.leb_le. lia.
    + rewrite !Z.leb_le. lia.
    + rewrite Z.leb_le. lia.
    + done.
    + intros Huniq. destruct Hcount as [Hcount|]; [|done]. split; [done|].
      intros c. rewrite canAddUserToHousehold_run, Hup.
      intros [= <-]. cbn [canAdd]. rewrite Hcount.
      unfold activeMemberCount, len. apply Z.leb_antisym.
Qed.

Lemma household_stats_are_consistent_witness :
  ∃ st, (run (getHouseholdUserStats None "h1") (admin_world 3)).1 = Resolved st
        ∧ st_totalUsers st = 5 ∧ st_activeUsers st = 4
        ∧ st_inactiveUsers st = 1 ∧ st_remainingSlots st = 1
        ∧ st_nearLimit st = true ∧ st_atLimit st = false
        ∧ st_activeUsers st = activeMemberCount "h1" (db (admin_world 3)).
Proof.
  destruct (run (getHouseholdUserStats None "h1") (admin_world 3))
    as [[st|e] w'] eqn:Hrun; [|vm_compute in Hrun; discriminate Hrun].
  destruct (proj2 (household_stats_are_consistent None "h1" (admin_world 3))
              st w' Hrun)
    as (_ & _ & _ & _ & _ & _ & _ & _ & _ & _ & _ & _ & Hcount).
  exists st. split; [reflexivity|].
  assert (st = (mkStats 5 4 1 5 1 (st_utilization st) (st_active st)
                  (st_inactive st) true false false)) as Hst.
  { vm_compute in Hrun. injection Hrun as <- _. reflexivity. }
  rewrite Hst at 1 2 3 4 5 6. repeat split.
  apply Hcount. reflexivity.
Defined.

(** ** Guards *)

(** X5. When [checkHouseholdMembership] calls [next()], the request carries
    a membership row of the store that belongs to the caller, is for the
    household named by the route (or else by the body), and is active; for
    the permission [full] the row's role is [admin], for [write] its
    permissions are not [read_only].  Nothing else of the request changes
    and the store is not written. *)
Theorem membership_guard_attaches_callers_row
    (requiredPermission : string) (req req' : Request) (w w' : World) :
  run (checkHouseholdMembership requiredPermission req) w
    = (Resolved (inr req'), w') →
  ∃ user hid m,
    req_user req = Some user
    ∧ js_or (params_householdId req) (b_householdId (req_body req)) = Some hid
    ∧ hid ≠ ""
    ∧ req' = with_membership m req
    ∧ m ∈ household_members (db w)
    ∧ m_user_id m = u_id user
    ∧ m_household_id m = hid
    ∧ m_is_active m = true
    ∧ (requiredPermission = "full" → m_role m = "admin")
    ∧ (requiredPermission = "write" → m_permissions m ≠ "read_only")
    ∧ db w' = db w.
Proof.
  unfold checkHouseholdMembership. rewrite run_try_catch.
  destruct (req_user req) as [user|]; [|discriminate].
  destruct (js_or (params_householdId req) (b_householdId (req_body req)))
    as [hid|] eqn:Hhid; [|discriminate].
  cbn [truthy default]. case_bool_decide as Hne; [|discriminate].
  cbn [negb]. rewrite run_bind, run_await. unfold first_active_member.
  match goal with |- context [query ?f ?w] =>
    destruct (query_cases f w) as [-> | ->] end; [|discriminate].
  rewrite db_served.
  destruct (first_where _ _) as [m|] eqn:Hm; [|discriminate].
  unfold first_where in Hm. apply head_Some_elem_of in Hm.
  apply list_elem_of_filter in Hm as [(Hu & Hh & Ha) Hin].
  case_bool_decide as Hwrite; [discriminate|].
  case_bool_decide as Hfull; [discriminate|].
  intros [= <- <-]. exists user, hid, m. split_and!; try done.
  - intros ->. destruct (decide (m_role m = "admin")); [done|].
    exfalso. by apply Hfull.
  - intros -> Hro. by apply Hwrite.
Qed.

Lemma membership_guard_attaches_callers_row_witness :
  ∃ user hid m,
    req_user (member_request 0) = Some user
    ∧ js_or (params_householdId (member_request 0))
            (b_householdId (req_body (member_request 0))) = Some hid
    ∧ hid ≠ ""
    ∧ with_membership (sample_member 0 true) (member_request 0)
      = with_membership m (member_request 0)
    ∧ m ∈ household_members (db (household_with 4))
    ∧ m_user_id m = u_id user
    ∧ m_household_id m = hid
    ∧ m_is_active m = true
    ∧ ("write" = "full" → m_role m = "admin")
    ∧ ("write" = "write" → m_permissions m ≠ "read_only")
    ∧ db (household_with 4) = db (household_with 4).
Proof.
  apply (membership_guard_attaches_callers_row "write" (member_request 0)
           (with_membership (sample_member 0 true) (member_request 0))
           (household_with 4) (household_with 4)).
  vm_compute. reflexivity.
Defined.

Lemma passport_jwt_run (verify : string → option string)
    (attempts : string → option Z) (token id : string) (w : World) :
  token ≠ "" →
  verify token = Some id →
  run (passport_jwt verify attempts (Some token)) w
  = if store_up 1 w
    then match first_where (λ u, u_id u = id ∧ u_is_active u = true)
                           (users (db w)) with
         | None => (Resolved PassportNoUser, served w)
         | Some user =>
             if match u_locked_until user with
                | Some until => clock w <? until
                | None => false
                end
             then (Resolved PassportNoUser, served w)
             else if resets attempts user
             then if store_up 1 (served w)
                  then (Resolved (PassportUser user),
                        set_db (set_users (update_where
                                  (λ u, u_id u = u_id user) clear_lock))
                               (served (served w)))
                  else (Resolved PassportError, served (served w))
             else (Resolved (PassportUser user), served w)
         end
    else (Resolved PassportError, served w).
Proof.
  intros Htoken Hverify. unfold passport_jwt.
  destruct token as [|c token]; [done|]. rewrite Hverify.
  rewrite run_try_catch, run_bind, run_await. unfold first_active_user.
  destruct (store_up 1 w) eqn:Hup.
  - rewrite query_up by done. rewrite db_served.
    destruct (first_where _ (users (db w))) as [user|]; [|done].
    rewrite run_bind.
    assert (run (match u_locked_until user with
                 | Some until => t ← peek clock; Ret (t <? until)
                 | None => Ret false
                 end) (served w)
            = (Resolved match u_locked_until user with
                        | Some until => clock w <? until
                        | None => false
                        end, served w)) as ->.
    { destruct (u_locked_until user) as [until|]; [|done].
      rewrite run_bind. unfold peek. rewrite run_await. done. }
    destruct (match u_locked_until user with
              | Some until => clock w <? until
              | None => false
              end); [done|].
    unfold resets. destruct (attempts (u_id user)) as [n|]; [|done].
    destruct (0 <? n); [|done].
    rewrite run_bind, run_await. unfold reset_login_attempts.
    destruct (store_up 1 (served w)) eqn:Hup2.
    + by rewrite query_up by done.
    + by rewrite query_down by done.
  - by rewrite query_down by done.
Qed.

Lemma authenticate_run (verify : string → option string)
    (attempts : string → option Z) (bearer : option string) (req : Request)
    (w : World) :
  run (authenticate verify attempts bearer req) w
  = match run (passport_jwt verify attempts bearer) w with
    | (Resolved outcome, w') =>
        run (authenticateJWT (with_passport outcome req)) w'
    | (Rejected e, w') => (Rejected e, w')
    end.
Proof. unfold authenticate. apply run_bind. Qed.

Lemma first_where_active (id : string) (rows : list UserRow) (user : UserRow) :
  first_where (λ u, u_id u = id ∧ u_is_active u = true) rows = Some user →
  u_is_active user = true.
Proof.
  unfold first_where. intros Hin%head_Some_elem_of.
  by apply list_elem_of_filter in Hin as [[_ ?] _].
Qed.

(** X6. What the invite endpoint answers before it looks at the household.
    Passport's JWT strategy runs in front of [authenticateJWT] and goes to
    the [users] table itself.  A request with no token, or with one that
    does not verify, is answered 401 "Unauthorized - Invalid or expired
    token" without a round-trip.  With a verified token the strategy reads
    the account: a rejected read is answered 500; an account that is
    missing, deactivated or locked is answered the same 401 after that one
    read, so the answer "Account is deactivated" of [authenticateJWT] is
    never given; an active, unlocked account whose role is not [admin] is
    answered 403 "Insufficient permissions" once the strategy has read it
    and, when its failure counter is above 0, has reset it.  None of these
    requests reaches a query on the household.  The role looked at is the
    account's, not the caller's role in the household. *)
Theorem invite_endpoint_refuses_before_the_household
    (verify : string → option string) (attempts : string → option Z)
    (MAX_USERS : option Z) (bearer : option string) (req : Request)
    (w : World) :
  let r := run (invite_endpoint verify attempts MAX_USERS bearer req) w in
  let unauthorized :=
    error_response 401 "Unauthorized - Invalid or expired token" in
  ((bearer = None ∨ bearer = Some ""
    ∨ ∃ token, bearer = Some token ∧ verify token = None) →
   r = (Resolved unauthorized, w))
  ∧ (∀ token id, bearer = Some token → token ≠ "" → verify token = Some id →
       (store_up 1 w = false →
        r = (Resolved (error_response 500 "Authentication error"), served w))
       ∧ (store_up 1 w = true →
          (∀ u, u ∈ users (db w) → u_id u = id → u_is_active u = false) →
          r = (Resolved unauthorized, served w))
       ∧ (∀ user until,
            store_up 1 w = true →
            first_where (λ u, u_id u = id ∧ u_is_active u = true)
                        (users (db w)) = Some user →
            u_locked_until user = Some until → clock w < until →
            r = (Resolved unauthorized, served w))
       ∧ (∀ user,
            store_up 2 w = true →
            first_where (λ u, u_id u = id ∧ u_is_active u = true)
                        (users (db w)) = Some user →
            (∀ until, u_locked_until user = Some until → until ≤ clock w) →
            u_role user ≠ "admin" →
            r = (Resolved (error_response 403 "Insufficient permissions"),
                 if resets attempts user
                 then set_db (set_users (update_where
                                (λ u, u_id u = u_id user)
                                (λ u, mkUser (u_id u) (u_email u)
                                        (u_username u) (u_first_name u)
                                        (u_last_name u) (u_role u)
                                        (u_is_active u) None
                                        (u_email_verified u)
                                        (u_householdId u))))
                             (served (served w))
                 else served w)))
  ∧ (run (authenticate verify attempts bearer req) w).1
    ≠ Resolved (inl (error_response 401 "Account is deactivated")).
Proof.
  intros r unauthorized. subst r unauthorized. unfold invite_endpoint.
  cbn [route]. rewrite run_bind, !authenticate_run. split; [|split].
  - intros [-> | [-> | (token & -> & Hverify)]]; try done.
    unfold passport_jwt. destruct token as [|c token]; [done|].
    by rewrite Hverify.
  - intros token id -> Htoken Hverify.
    rewrite (passport_jwt_run verify attempts token id w Htoken Hverify).
    split; [|split; [|split]].
    + by intros ->.
    + intros -> Hnone.
      assert (first_where (λ u, u_id u = id ∧ u_is_active u = true)
                          (users (db w)) = None) as ->; [|done].
      unfold first_where. rewrite filter_none; [done|].
      intros u Hu [Hid Hon]. rewrite (Hnone u Hu Hid) in Hon. done.
    + intros user until -> -> Hlock Hnow. rewrite Hlock.
      by rewrite (proj2 (Z.ltb_lt _ _) Hnow).
    + intros user Hup Hfind Hfree Hrole.
      pose proof (first_where_active _ _ _ Hfind) as Hon.
      apply store_up_S in Hup as [Hup1 Hup2]. rewrite Hup1, Hfind.
      assert (match u_locked_until user with
              | Some until => clock w <? until
              | None => false
              end = false) as ->.
      { destruct (u_locked_until user) as [until|] eqn:Hl; [|done].
        apply Z.ltb_ge. by apply Hfree. }
      assert (∀ w1, clock w1 = clock w →
                run (authenticateJWT
                       (with_passport (PassportUser user) req)) w1
                = (Resolved (inr (with_user user
                            (with_passport (PassportUser user) req))), w1))
        as Hpass.
      { intros w1 Hclock. unfold authenticateJWT.
        cbn [with_passport req_passport]. rewrite Hon. cbn [negb].
        destruct (u_locked_until user) as [until|] eqn:Hl; [|done].
        rewrite run_bind. unfold peek. rewrite run_await, Hclock.
        by rewrite (proj2 (Z.ltb_ge _ _) (Hfree until eq_refl)). }
      assert (∀ w1, run (authorize ["admin"]
                           (with_user user
                              (with_passport (PassportUser user) req))) w1
                    = (Resolved (inl (error_response 403
                                        "Insufficient permissions")), w1))
        as Hrefuse.
      { intros w1. unfold authorize. cbn [with_user req_user].
        rewrite bool_decide_eq_false_2 by done.
        rewrite bool_decide_eq_false_2; [done|].
        by intros Hin%list_elem_of_singleton. }
      destruct (resets attempts user).
      * assert (store_up 1 (served w) = true) as -> by done.
        rewrite Hpass by done. rewrite run_bind, Hrefuse. done.
      * rewrite Hpass by done. rewrite run_bind, Hrefuse. done.
  - destruct bearer as [token|]; [|done].
    destruct (decide (token = "")) as [->|Htoken]; [done|].
    destruct (verify token) as [id|] eqn:Hverify.
    2:{ unfold passport_jwt. destruct token; [done|]. by rewrite Hverify. }
    rewrite (passport_jwt_run verify attempts token id w Htoken Hverify).
    destruct (store_up 1 w); [|done].
    destruct (first_where _ (users (db w))) as [user|] eqn:Hfind; [|done].
    pose proof (first_where_active _ _ _ Hfind) as Hon.
    assert (∀ w1, (run (authenticateJWT
                          (with_passport (PassportUser user) req)) w1).1
                  ≠ Resolved (inl (error_response 401
                                     "Account is deactivated"))) as Hgo.
    { intros w1. unfold authenticateJWT.
      cbn [with_passport req_passport]. rewrite Hon. cbn [negb].
      destruct (u_locked_until user) as [until|]; [|done].
      rewrite run_bind. unfold peek. rewrite run_await.
      by destruct (clock w1 <? until). }
    destruct (match u_locked_until user with
              | Some until => clock w <? until
              | None => false
              end); [done|].
    destruct (resets attempts user); [|apply Hgo].
    destruct (store_up 1 (served w)); [apply Hgo|done].
Qed.

Lemma invite_endpoint_refuses_before_the_household_witness :
  run (invite_endpoint sample_verify (λ _, Some 2) None (Some "u0")
         (member_request 0)) (household_with 4)
  = (Resolved (error_response 403 "Insufficient permissions"),
     set_db (set_users (update_where (λ u, u_id u = "u0") clear_lock))
            (served (served (household_with 4)))).
Proof.
  apply (proj2 (proj2 (proj2
           (proj1 (proj2 (invite_endpoint_refuses_before_the_household
                    sample_verify (λ _, Some 2) None (Some "u0")
                    (member_request 0) (household_with 4)))
              "u0" "u0" eq_refl ltac:(discriminate) eq_refl)))
           (sample_user 0)).
  - reflexivity.
  - reflexivity.
  - discriminate.
  - discriminate.
Defined.

(** ** Rate limiter *)

(** X7. One call of the rate limiter for user [uid]: other users' entries
    are untouched; a refusal (429) leaves the whole map as it was; a pass
    stores the timestamps still inside the window followed by the current
    one, never more than [maxRequests] of them; and the call passes exactly
    when fewer than [maxRequests] stored timestamps are inside the window. *)
Theorem rate_limiter_counts_the_window
    (maxRequests windowMs now : Z) (uid : string)
    (requests : gmap string (list Z)) :
  uid ≠ "" →
  let r := rateLimitByUser maxRequests windowMs (Some uid) now requests in
  let inside := filter (λ time, now - time < windowMs)
                       (default [] (requests !! uid)) in
  (∀ other, other ≠ uid → r.2 !! other = requests !! other)
  ∧ (r.1 = None ↔ len inside < maxRequests)
  ∧ (r.1 ≠ None →
     r.1 = Some (error_response 429 "Too many requests") ∧ r.2 = requests)
  ∧ (r.1 = None →
     r.2 !! uid = Some (inside ++ [now]) ∧ len (inside ++ [now]) ≤ maxRequests).
Proof.
  intros Hne r inside. subst r. unfold rateLimitByUser.
  cbn [truthy]. rewrite bool_decide_eq_true_2 by done. cbn [negb].
  cbv zeta. change (default "" (Some uid)) with uid. fold inside. destruct (Z.leb_spec maxRequests (len inside)) as [Hfull|Hroom];
    cbn [fst snd]; split_and!.
  - done.
  - split; [discriminate|lia].
  - done.
  - discriminate.
  - intros other Hother. by rewrite lookup_insert_ne.
  - split; [lia|done].
  - intros H. by destruct H.
  - intros _. rewrite lookup_insert_eq. split; [done|].
    unfold len in *. rewrite length_app. simpl. lia.
Qed.

Lemma rate_limiter_counts_the_window_witness :
  let r := rateLimitByUser 3 1000 (Some "u1") 1500
             {["u1" := [100; 900; 1400]]} in
  r.1 = None ∧ r.2 !! "u1" = Some [900; 1400; 1500].
Proof.
  destruct (rate_limiter_counts_the_window 3 1000 1500 "u1"
              {["u1" := [100; 900; 1400]]}) as (_ & Hpass & _ & Hstore);
    [discriminate|].
  assert ((rateLimitByUser 3 1000 (Some "u1") 1500
             {["u1" := [100; 900; 1400]]}).1 = None) as Hnone.
  { apply Hpass. vm_compute. reflexivity. }
  split; [exact Hnone|]. destruct (Hstore Hnone) as [-> _].
  vm_compute. reflexivity.
Defined.

Lemma burst_from (maxRequests windowMs now : Z) (uid : string) (n k : nat)
    (requests : gmap string (list Z)) :
  uid ≠ "" → 0 < windowMs →
  default [] (requests !! uid) = replicate k now →
  (Z.of_nat k ≤ maxRequests) →
  (burst maxRequests windowMs uid now n requests).1
  = replicate (n `min` (Z.to_nat maxRequests - k)) None
    ++ replicate (n - (Z.to_nat maxRequests - k))
                 (Some (error_response 429 "Too many requests")).
Proof.
  intros Hne Hwin. revert k requests.
  induction n as [|n IH]; intros k requests Hstored Hk; [done|].
  cbn [burst]. unfold rateLimitByUser at 1.
  cbn [truthy]. rewrite bool_decide_eq_true_2 by done. cbn [negb].
  cbv zeta. change (default "" (Some uid)) with uid. rewrite Hstored.
  assert (filter (λ time, now - time < windowMs) (replicate k now)
          = replicate k now) as ->.
  { clear -Hwin. induction k as [|k IHk]; [done|]. simpl.
    rewrite list.filter_cons, decide_True by lia. by rewrite IHk. }
  unfold len. rewrite length_replicate.
  destruct (Z.leb_spec maxRequests (Z.of_nat k)) as [Hfull|Hroom].
  - specialize (IH k requests Hstored Hk).
    destruct (burst maxRequests windowMs uid now n requests) as [rs rq].
    cbn [fst] in *. rewrite IH.
    replace (Z.to_nat maxRequests - k)%nat with 0%nat by lia.
    rewrite !Nat.min_0_r, !Nat.sub_0_r. done.
  - specialize (IH (S k) (<[uid := replicate k now ++ [now]]> requests)).
    destruct (burst maxRequests windowMs uid now n
                (<[uid := replicate k now ++ [now]]> requests)) as [rs rq].
    cbn [fst] in *. rewrite IH.
    + replace (Z.to_nat maxRequests - k)%nat
        with (S (Z.to_nat maxRequests - S k))%nat by lia.
      rewrite <- Nat.succ_min_distr. done.
    + rewrite lookup_insert_eq. simpl.
      clear. induction k as [|k IHk]; [done|]. simpl. by rewrite IHk.
    + lia.
Qed.

(** X8. A burst of [n] requests of one user at one instant, starting with no
    entry for that user: with a positive window the first [maxRequests]
    pass and every later one is refused with 429; with a window of zero or
    less and a positive [maxRequests] the limiter never refuses. *)
Theorem rate_limiter_caps_a_burst
    (maxRequests windowMs now : Z) (uid : string) (n : nat)
    (requests : gmap string (list Z)) :
  uid ≠ "" → requests !! uid = None → 0 ≤ maxRequests →
  (0 < windowMs →
   (burst maxRequests windowMs uid now n requests).1
   = replicate (n `min` Z.to_nat maxRequests) None
     ++ replicate (n - Z.to_nat maxRequests)
                  (Some (error_response 429 "Too many requests")))
  ∧ (windowMs ≤ 0 → 0 < maxRequests →
     (burst maxRequests windowMs uid now n requests).1 = replicate n None).
Proof.
  intros Hne Hfresh Hmax. split.
  - intros Hwin.
    rewrite (burst_from maxRequests windowMs now uid n 0 requests);
      [by rewrite !Nat.sub_0_r|done|done|by rewrite Hfresh|lia].
  - intros Hwin Hpos.
    assert (Forall (λ t, t ≤ now) (default [] (requests !! uid))) as Hpast
      by (by rewrite Hfresh).
    clear Hfresh. revert requests Hpast.
    induction n as [|n IH]; intros requests Hpast; [done|].
    cbn [burst]. unfold rateLimitByUser at 1.
    cbn [truthy]. rewrite bool_decide_eq_true_2 by done. cbn [negb].
    cbv zeta. change (default "" (Some uid)) with uid.
    rewrite filter_none
      by (rewrite Forall_forall in Hpast; intros t Ht; specialize (Hpast t Ht);
          lia).
    destruct (Z.leb_spec maxRequests (len (@nil Z))) as [Hbad|_];
      [unfold len in Hbad; simpl in Hbad; lia|].
    specialize (IH (<[uid := [] ++ [now]]> requests)).
    destruct (burst maxRequests windowMs uid now n _) as [rs rq].
    cbn [fst] in *. rewrite IH; [done|].
    rewrite lookup_insert_eq. simpl. by constructor.
Qed.

Lemma rate_limiter_caps_a_burst_witness :
  (burst 10 900000 "u1" 5000 12 ∅).1
  = replicate 10 None
    ++ replicate 2 (Some (error_response 429 "Too many requests")).
Proof.
  apply (proj1 (rate_limiter_caps_a_burst 10 900000 5000 "u1" 12 ∅
                  ltac:(discriminate) eq_refl ltac:(lia))). lia.
Defined.

(** ** More on accepting an invitation *)

Lemma run_route_cons (m : Middleware) (ms : list Middleware) (h : Handler)
    (req : Request) (w : World) :
  run (route (m :: ms) h req) w =
  match run (m req) w with
  | (Resolved (inl resp), w') => (Resolved resp, w')
  | (Resolved (inr req'), w') => run (route ms h req') w'
  | (Rejected e, w') => (Rejected e, w')
  end.
Proof.
  cbn [route]. rewrite run_bind.
  by destruct (run (m req) w) as [[[resp|req']|e] w'].
Qed.

Lemma elem_of_update_where_cases {A : Type} (P : A → Prop)
    `{∀ x, Decision (P x)} (f : A → A) (rows : list A) (x : A) :
  x ∈ update_where P f rows ↔
  (x ∈ rows ∧ ¬ P x) ∨ ∃ y, y ∈ rows ∧ P y ∧ x = f y.
Proof.
  unfold update_where. rewrite list_elem_of_fmap. split.
  - intros (y & -> & Hy). case_decide; eauto.
  - intros [[Hx Hn] | (y & Hy & HP & ->)].
    + exists x. by rewrite decide_False.
    + exists y. by rewrite decide_True.
Qed.

Lemma no_pending_after_accept (id : string) (t t' : Z)
    (rows : list InvitationRow) :
  first_where (λ i, i_id i = id ∧ i_status i = Pending ∧ t' < i_expires_at i)
    (update_where (λ i, i_id i = id) (mark_accepted t) rows) = None.
Proof.
  unfold first_where. rewrite filter_none; [done|].
  intros i Hi (Hid & Hst & _).
  apply elem_of_update_where_cases in Hi as [[_ Hi] | (y & _ & _ & ->)].
  - done.
  - discriminate Hst.
Qed.

Lemma accept_handler_success (MAX_USERS : option Z) (req : Request) (w : World)
    (user : UserRow) (inv : InvitationRow) :
  req_user req = Some user →
  find_pending_invitation (params_invitationId req) (clock w) (db w) = Some inv →
  u_email user = i_email inv →
  activeMemberCount (i_household_id inv) (db w) < maxUsers_of MAX_USERS →
  member_exists (i_household_id inv) (u_id user) (household_members (db w))
    = false →
  store_up 4 w = true →
  ∃ w', run (accept_handler MAX_USERS req) w
        = (Resolved (mkResponse 200
             [("message", JStr "Invitation accepted successfully");
              ("householdId", JStr (i_household_id inv))]), w')
        ∧ db w' = set_invitations
                    (update_where (λ i, i_id i = params_invitationId req)
                                  (mark_accepted (clock w)))
                    (set_members
                       (λ rows, rows ++ [accepted_member inv (u_id user)
                                           (uuid_of (next_uuid w)) (clock w)])
                       (db w)).
Proof.
  intros Huser Hinv Hmail Hroom Hnew Hup.
  apply store_up_S in Hup as [Hup1 Hup].
  apply store_up_S in Hup as [Hup2 Hup].
  apply store_up_S in Hup as [Hup3 Hup].
  apply store_up_S in Hup as [Hup4 _].
  unfold accept_handler. rewrite run_try_catch, Huser.
  rewrite run_bind, run_await. unfold first_pending_invitation.
  rewrite query_up by done.
  change (db (served w)) with (db w). change (clock (served w)) with (clock w).
  rewrite Hinv. rewrite bool_decide_eq_false_2 by (intros ?; done).
  rewrite run_bind, canAddUserToHousehold_run, Hup2.
  cbn [canAdd maxUsers currentUsers]. rewrite db_served.
  destruct (Z.ltb_spec (activeMemberCount (i_household_id inv) (db w))
              (maxUsers_of MAX_USERS)); [|lia].
  cbn [negb]. rewrite run_bind, run_await. unfold insert_member.
  rewrite query_up by done.
  cbn [db served set_faults clock next_uuid accepted_member
       m_household_id m_user_id].
  rewrite Hnew.
  rewrite run_bind, run_await. unfold accept_invitation.
  rewrite query_up by done.
  rewrite run_bind.
  match goal with |- context [run (if ?c then _ else _) ?w0] =>
    assert (∃ w2, run (if c then sendUserLimitAlerts (i_household_id inv)
                       (activeMemberCount (i_household_id inv) (db w) + 1)
                       (maxUsers_of MAX_USERS) else Ret ()) w0
                  = (Resolved (), w2) ∧ db w2 = db w0) as (w2 & -> & Hdb)
  end.
  { destruct (_ <=? _); [apply sendUserLimitAlerts_run|simpl; eauto]. }
  eexists. split; [reflexivity|]. rewrite Hdb. reflexivity.
Qed.

(** X9. An accept that passes every check (pending unexpired invitation
    addressed to the caller, household below the cap, caller without a
    membership row there, store answering) is answered 200; exactly one
    membership row is appended, for the caller, in the invitation's
    household, active, with the invitation's role and permissions and with
    [can_invite] set for admins only; the household's active count grows by
    one; and no invitation with that id is pending any more. *)
Theorem accept_admits_the_invited_user
    (MAX_USERS : option Z) (req : Request) (w : World)
    (user : UserRow) (inv : InvitationRow) :
  req_user req = Some user →
  find_pending_invitation (params_invitationId req) (clock w) (db w) = Some inv →
  u_email user = i_email inv →
  activeMemberCount (i_household_id inv) (db w) < maxUsers_of MAX_USERS →
  member_exists (i_household_id inv) (u_id user) (household_members (db w))
    = false →
  store_up 4 w = true →
  let r := run (accept_handler MAX_USERS req) w in
  ∃ row,
    (status <$> (match r.1 with Resolved x => Some x | Rejected _ => None end))
      = Some 200
    ∧ household_members (db r.2) = household_members (db w) ++ [row]
    ∧ m_household_id row = i_household_id inv
    ∧ m_user_id row = u_id user
    ∧ m_role row = i_role inv
    ∧ m_permissions row = i_permissions inv
    ∧ m_is_active row = true
    ∧ (m_can_invite row = true ↔ i_role inv = "admin")
    ∧ activeMemberCount (i_household_id inv) (db r.2)
      = activeMemberCount (i_household_id inv) (db w) + 1
    ∧ (∀ t, find_pending_invitation (params_invitationId req) t (db r.2) = None)
    ∧ users (db r.2) = users (db w).
Proof.
  intros Huser Hinv Hmail Hroom Hnew Hup r.
  destruct (accept_handler_success MAX_USERS req w user inv
              Huser Hinv Hmail Hroom Hnew Hup) as (w' & Hrun & Hdb).
  subst r. rewrite Hrun. cbn [fst snd]. rewrite Hdb.
  eexists. split_and!; try reflexivity.
  - cbn [accepted_member m_can_invite]. by rewrite bool_decide_eq_true.
  - rewrite activeMemberCount_invitations, activeMemberCount_insert.
    rewrite decide_True; [done|]. by split.
  - intros t. apply no_pending_after_accept.
Qed.

Lemma accept_admits_the_invited_user_witness :
  let r := run (accept_handler None (accept_as 6 6)) (household_with 4) in
  ∃ row,
    (status <$> (match r.1 with Resolved x => Some x | Rejected _ => None end))
      = Some 200
    ∧ household_members (db r.2)
      = household_members (db (household_with 4)) ++ [row]
    ∧ m_household_id row = i_household_id (sample_invitation 6)
    ∧ m_user_id row = u_id (sample_user 6)
    ∧ m_role row = i_role (sample_invitation 6)
    ∧ m_permissions row = i_permissions (sample_invitation 6)
    ∧ m_is_active row = true
    ∧ (m_can_invite row = true ↔ i_role (sample_invitation 6) = "admin")
    ∧ activeMemberCount (i_household_id (sample_invitation 6)) (db r.2)
      = activeMemberCount (i_household_id (sample_invitation 6))
          (db (household_with 4)) + 1
    ∧ (∀ t, find_pending_invitation
              (params_invitationId (accept_as 6 6)) t (db r.2) = None)
    ∧ users (db r.2) = users (db (household_with 4)).
Proof.
  apply (accept_admits_the_invited_user None (accept_as 6 6) (household_with 4)
           (sample_user 6) (sample_invitation 6));
    [reflexivity | reflexivity | reflexivity | reflexivity | reflexivity
    | reflexivity].
Defined.

(** X10. An invitation is accepted once.  After an accept that passed every
    check, any later accept request for the same invitation, by whoever and
    at whatever time, leaves the store as it is, and is answered 400
    "Invalid or expired invitation" when its lookup is answered. *)
Theorem accepted_invitation_cannot_be_reused
    (MAX_USERS : option Z) (req : Request) (w : World)
    (user : UserRow) (inv : InvitationRow) :
  req_user req = Some user →
  find_pending_invitation (params_invitationId req) (clock w) (db w) = Some inv →
  u_email user = i_email inv →
  activeMemberCount (i_household_id inv) (db w) < maxUsers_of MAX_USERS →
  member_exists (i_household_id inv) (u_id user) (household_members (db w))
    = false →
  store_up 4 w = true →
  let w1 := (run (accept_handler MAX_USERS req) w).2 in
  ∀ (again : Request) (w2 : World),
    params_invitationId again = params_invitationId req →
    db w2 = db w1 →
    db (run (accept_handler MAX_USERS again) w2).2 = db w2
    ∧ (store_up 1 w2 = true → is_Some (req_user again) →
       (run (accept_handler MAX_USERS again) w2).1
       = Resolved (error_response 400 "Invalid or expired invitation")).
Proof.
  intros Huser Hinv Hmail Hroom Hnew Hup w1 again w2 Hid Hsame.
  destruct (accept_handler_success MAX_USERS req w user inv
              Huser Hinv Hmail Hroom Hnew Hup) as (w' & Hrun & Hdb).
  subst w1. rewrite Hrun in Hsame. cbn [snd] in Hsame.
  assert (find_pending_invitation (params_invitationId again) (clock w2) (db w2)
          = None) as Hgone.
  { rewrite Hsame, Hdb, Hid. apply no_pending_after_accept. }
  split.
  - destruct (accept_handler_effect MAX_USERS again w2)
      as [Hkeep | (u2 & i2 & id2 & _ & Hfound & _)]; [done|].
    rewrite Hgone in Hfound. discriminate.
  - intros Hup2 [u2 Hu2]. unfold accept_handler.
    rewrite run_try_catch, Hu2, run_bind, run_await.
    unfold first_pending_invitation. rewrite query_up by done.
    change (db (served w2)) with (db w2).
    change (clock (served w2)) with (clock w2). by rewrite Hgone.
Qed.

Lemma accepted_invitation_cannot_be_reused_witness :
  let w1 := (run (accept_handler None (accept_as 6 6)) (household_with 4)).2 in
  db (run (accept_handler None (accept_as 6 6)) w1).2 = db w1
  ∧ (store_up 1 w1 = true → is_Some (req_user (accept_as 6 6)) →
     (run (accept_handler None (accept_as 6 6)) w1).1
     = Resolved (error_response 400 "Invalid or expired invitation")).
Proof.
  apply (accepted_invitation_cannot_be_reused None (accept_as 6 6)
           (household_with 4) (sample_user 6) (sample_invitation 6));
    reflexivity.
Defined.

(** X11. Refused accepts change nothing.  With the caller authenticated and
    the lookup answered: when no pending unexpired invitation has the id,
    the answer is 400; when one has but is addressed to another email, the
    answer is 403; either way the store is as before.  An invitation is
    never found from the millisecond it expires on, nor once it is no
    longer pending. *)
Theorem refused_accepts_change_nothing
    (MAX_USERS : option Z) (req : Request) (w : World) (user : UserRow) :
  req_user req = Some user →
  store_up 1 w = true →
  let found := find_pending_invitation (params_invitationId req) (clock w)
                                       (db w) in
  let r := run (accept_handler MAX_USERS req) w in
  (found = None →
   r.1 = Resolved (error_response 400 "Invalid or expired invitation")
   ∧ db r.2 = db w)
  ∧ (∀ inv, found = Some inv → u_email user ≠ i_email inv →
       r.1 = Resolved (error_response 403
                         "Invitation is for a different email address")
       ∧ db r.2 = db w)
  ∧ (∀ inv, found = Some inv →
       inv ∈ household_invitations (db w)
       ∧ i_id inv = params_invitationId req
       ∧ i_status inv = Pending
       ∧ clock w < i_expires_at inv).
Proof.
  intros Huser Hup found r. subst r.
  assert (∀ (k : option InvitationRow → Prog Response),
            run (try_catch
                   (invitation ← await (first_pending_invitation
                                          (params_invitationId req));
                    k invitation)
                   (λ _, Ret (error_response 500 "Failed to accept invitation")))
                w
            = run (try_catch (k found)
                     (λ _, Ret (error_response 500
                                  "Failed to accept invitation")))
                  (served w)) as Hlookup.
  { intros k. rewrite !run_try_catch, run_bind, run_await.
    unfold first_pending_invitation. by rewrite query_up by done. }
  unfold accept_handler. rewrite Huser, Hlookup.
  split_and!.
  - intros ->. done.
  - intros inv -> Hmail. by rewrite bool_decide_eq_true_2.
  - intros inv Hsome. subst found.
    unfold find_pending_invitation, first_where in Hsome.
    apply head_Some_elem_of in Hsome.
    apply list_elem_of_filter in Hsome as [(? & ? & ?) ?]. done.
Qed.

Lemma refused_accepts_change_nothing_witness :
  let r := run (accept_handler None (accept_as 6 5)) (household_with 4) in
  r.1 = Resolved (error_response 403
                    "Invitation is for a different email address")
  ∧ db r.2 = db (household_with 4).
Proof.
  apply (proj1 (proj2 (refused_accepts_change_nothing None (accept_as 6 5)
                         (household_with 4) (sample_user 6)
                         eq_refl eq_refl)) (sample_invitation 5));
    [reflexivity | vm_compute; discriminate].
Defined.

(** X12. A caller who already has a membership row in the invitation's
    household, active or not, cannot accept: the unique key on (household,
    user) rejects the insert, the answer is 500 "Failed to accept
    invitation", no row is added and the invitation stays pending. *)
Theorem former_member_cannot_accept
    (MAX_USERS : option Z) (req : Request) (w : World)
    (user : UserRow) (inv : InvitationRow) :
  req_user req = Some user →
  find_pending_invitation (params_invitationId req) (clock w) (db w) = Some inv →
  u_email user = i_email inv →
  activeMemberCount (i_household_id inv) (db w) < maxUsers_of MAX_USERS →
  member_exists (i_household_id inv) (u_id user) (household_members (db w))
    = true →
  store_up 3 w = true →
  let r := run (accept_handler MAX_USERS req) w in
  r.1 = Resolved (error_response 500 "Failed to accept invitation")
  ∧ db r.2 = db w
  ∧ find_pending_invitation (params_invitationId req) (clock w) (db r.2)
    = Some inv.
Proof.
  intros Huser Hinv Hmail Hroom Hold Hup r.
  apply store_up_S in Hup as [Hup1 Hup].
  apply store_up_S in Hup as [Hup2 Hup].
  apply store_up_S in Hup as [Hup3 _].
  assert (run (accept_handler MAX_USERS req) w
          = (Resolved (error_response 500 "Failed to accept invitation"),
             bump_uuid (served (served (served w))))) as Hrun.
  { unfold accept_handler. rewrite run_try_catch, Huser.
    rewrite run_bind, run_await. unfold first_pending_invitation.
    rewrite query_up by done.
    change (db (served w)) with (db w). change (clock (served w)) with (clock w).
    rewrite Hinv. rewrite bool_decide_eq_false_2 by (intros ?; done).
    rewrite run_bind, canAddUserToHousehold_run, Hup2.
    cbn [canAdd maxUsers currentUsers]. rewrite db_served.
    destruct (Z.ltb_spec (activeMemberCount (i_household_id inv) (db w))
                (maxUsers_of MAX_USERS)); [|lia].
    cbn [negb]. rewrite run_bind, run_await. unfold insert_member.
    rewrite query_up by done.
    cbn [db served set_faults clock next_uuid accepted_member
         m_household_id m_user_id].
    rewrite Hold. reflexivity. }
  subst r. rewrite Hrun. cbn [fst snd]. split_and!; try done.
Qed.

Lemma former_member_cannot_accept_witness :
  let r := run (accept_handler None (accept_as 5 5))
               household_with_former_member in
  r.1 = Resolved (error_response 500 "Failed to accept invitation")
  ∧ db r.2 = db household_with_former_member
  ∧ find_pending_invitation (params_invitationId (accept_as 5 5))
      (clock household_with_former_member) (db r.2)
    = Some (sample_invitation 5).
Proof.
  apply (former_member_cannot_accept None (accept_as 5 5)
           household_with_former_member (sample_user 5) (sample_invitation 5));
    reflexivity.
Defined.

(** ** More on inviting *)

(** What one run of the invite handler can do to the world: the invitation
    table and the mail log stay as they are; the membership table stays as
    it is or has the rows with the id of one inactive row of the route's
    household reactivated. *)
Lemma invite_handler_effect (req : Request) (w : World) :
  let w' := (run (invite_handler req) w).2 in
  household_invitations (db w') = household_invitations (db w)
  ∧ sent_emails w' = sent_emails w
  ∧ users (db w') = users (db w)
  ∧ (household_members (db w') = household_members (db w)
     ∨ ∃ hid target m,
         params_householdId req = Some hid
         ∧ find_member hid (u_id target) (db w) = Some m
         ∧ m_is_active m = false
         ∧ household_members (db w')
           = update_where (λ x, m_id x = m_id m)
               (reactivate (default "member" (b_role (req_body req)))
                           (default "read_write" (b_permissions (req_body req)))
                           (clock w))
               (household_members (db w))).
Proof.
  unfold invite_handler. rewrite run_try_catch.
  match goal with |- context [run ?p w] =>
    assert (H : ∀ o w1, run p w = (o, w1) →
      household_invitations (db w1) = household_invitations (db w)
      ∧ sent_emails w1 = sent_emails w
      ∧ users (db w1) = users (db w)
      ∧ (household_members (db w1) = household_members (db w)
         ∨ ∃ hid target m,
             params_householdId req = Some hid
             ∧ find_member hid (u_id target) (db w) = Some m
             ∧ m_is_active m = false
             ∧ household_members (db w1)
               = update_where (λ x, m_id x = m_id m)
                   (reactivate (default "member" (b_role (req_body req)))
                      (default "read_write" (b_permissions (req_body req)))
                      (clock w))
                   (household_members (db w))));
    [| destruct (run p w) as [[r|e] w1]; simpl; by apply (H _ _ eq_refl) ]
  end.
  intros o w1.
  destruct (params_householdId req) as [hid|];
    [|intros [= <- <-]; split_and!; try done; by left].
  destruct (req_user req) as [admin|];
    [|intros [= <- <-]; split_and!; try done; by left].
  destruct (b_email (req_body req)) as [[|c email]|];
    try (intros [= <- <-]; split_and!; try done; by left).
  unfold first_user_by_email. round_trip;
    [|intros [= <- <-]; split_and!; try done; by left].
  rewrite db_served.
  assert (∀ w0 o1 w2,
            db w0 = db w → sent_emails w0 = sent_emails w →
            run (invitationId ← await (λ w, (Resolved (uuid_of (next_uuid w)),
                                            bump_uuid w));
                 invitationToken ← jwt_sign_unbound;
                 _ ← await (insert_invitation (λ t,
                       mkInvitation invitationId hid
                         (toLowerCase (String c email))
                         (default "member" (b_role (req_body req)))
                         (default "read_write" (b_permissions (req_body req)))
                         (u_id admin) invitationToken Pending
                         (t + ms_7_days) t None));
                 household ← await (first_household hid);
                 match household with
                 | None => Throw TypeError
                 | Some household =>
                   _ ← await (sendEmail (mkEmail (String c email)
                         ("Invitation to join " +:+ h_name household +:+
                          " on Fire Finance") "household-invitation"));
                   Ret (mkResponse 200
                     [("message", JStr "Invitation sent successfully");
                      ("invitationId", JStr invitationId);
                      ("remainingSlots",
                       match req_maxUsers req, req_userCount req with
                       | Some mx, Some n => JNum (mx - (n + 1))
                       | _, _ => JNull
                       end)])
                 end) w0 = (o1, w2) →
            db w2 = db w ∧ sent_emails w2 = sent_emails w) as Htail.
  { intros w0 o1 w2 Hdb Hmail. rewrite run_bind, run_await. cbn.
    intros [= <- <-]. done. }
  destruct (find_user_by_email _ _) as [target|] eqn:Htarget.
  - rewrite run_bind, run_bind, run_await. unfold first_member.
    round_trip; [|intros [= <- <-]; split_and!; try done; by left].
    rewrite !db_served.
    destruct (find_member hid (u_id target) (db w)) as [m|] eqn:Hm.
    + destruct (m_is_active m) eqn:Hact.
      * intros [= <- <-]. split_and!; try done; by left.
      * rewrite run_bind, run_await. unfold reactivate_member.
        round_trip; intros [= <- <-]; split_and!; try done; [|by left].
        right. by exists hid, target, m.
    + cbn [run]. intros Hrun. apply Htail in Hrun as [Hdb Hmail]; [|done..].
      rewrite Hdb, Hmail. split_and!; try done; by left.
  - rewrite run_bind. cbn [run]. intros Hrun.
    apply Htail in Hrun as [Hdb Hmail]; [|done..].
    rewrite Hdb, Hmail. split_and!; try done; by left.
Qed.

(** X13. The invite handler never adds an invitation row and never sends an
    email, whatever the request and the store do: the module does not bind
    [jwt], so signing the invitation token throws before the insert.  An
    invitation for someone who has no membership row in the household
    (unknown address, or a user of another household) is answered 500
    "Failed to send invitation"; the membership table is untouched. *)
Theorem invite_never_creates_an_invitation (req : Request) (w : World) :
  let r := run (invite_handler req) w in
  household_invitations (db r.2) = household_invitations (db w)
  ∧ sent_emails r.2 = sent_emails w
  ∧ (∀ hid admin email,
       params_householdId req = Some hid →
       req_user req = Some admin →
       b_email (req_body req) = Some email → email ≠ "" →
       store_up 2 w = true →
       match find_user_by_email (toLowerCase email) (db w) with
       | None => True
       | Some target => find_member hid (u_id target) (db w) = None
       end →
       r.1 = Resolved (error_response 500 "Failed to send invitation")
       ∧ db r.2 = db w).
Proof.
  intros r. subst r.
  destruct (invite_handler_effect req w) as (Hinv & Hmail & _ & _).
  split; [done|]. split; [done|].
  intros hid admin email Hhid Hadmin Hemail Hne Hup Hstranger.
  apply store_up_S in Hup as [Hup1 Hup].
  apply store_up_S in Hup as [Hup2 _].
  unfold invite_handler. rewrite run_try_catch, Hhid, Hadmin, Hemail.
  destruct email as [|c email]; [done|].
  rewrite run_bind, run_await. unfold first_user_by_email.
  rewrite query_up by done. rewrite db_served.
  destruct (find_user_by_email _ _) as [target|].
  - rewrite run_bind, run_bind, run_await. unfold first_member.
    rewrite query_up by done. rewrite !db_served, Hstranger.
    cbn [run]. rewrite run_bind, run_await. cbn. done.
  - rewrite run_bind. cbn [run]. rewrite run_bind, run_await. cbn. done.
Qed.

Lemma invite_never_creates_an_invitation_witness :
  let r := run (invite_handler invite_stranger) (household_with 4) in
  r.1 = Resolved (error_response 500 "Failed to send invitation")
  ∧ db r.2 = db (household_with 4).
Proof.
  apply (proj2 (proj2 (invite_never_creates_an_invitation invite_stranger
                         (household_with 4)))
           "h1" (sample_user 0) "stranger@example.com");
    [reflexivity | reflexivity | reflexivity | discriminate | reflexivity
    | vm_compute; exact I].
Defined.

(** X14. Two refusals of the invite handler.  Without an email (absent or
    empty) it answers 400 "Email is required" and is nothing but that
    answer: no store round-trip.  For the email of a user who is an active
    member of the household it answers 400 "User is already a member of
    this household" and leaves the store as it was. *)
Theorem invite_refuses_missing_email_and_members
    (req : Request) (w : World) (hid : string) (admin : UserRow) :
  params_householdId req = Some hid →
  req_user req = Some admin →
  (truthy (b_email (req_body req)) = false →
   invite_handler req = Ret (error_response 400 "Email is required"))
  ∧ (∀ email target m,
       b_email (req_body req) = Some email → email ≠ "" →
       find_user_by_email (toLowerCase email) (db w) = Some target →
       find_member hid (u_id target) (db w) = Some m →
       m_is_active m = true →
       store_up 2 w = true →
       (run (invite_handler req) w).1
       = Resolved (error_response 400
                     "User is already a member of this household")
       ∧ db (run (invite_handler req) w).2 = db w).
Proof.
  intros Hhid Hadmin. split.
  - intros Hfalsy. unfold invite_handler. rewrite Hhid, Hadmin.
    by destruct (b_email (req_body req)) as [[|c email]|].
  - intros email target m Hemail Hne Htarget Hm Hact Hup.
    apply store_up_S in Hup as [Hup1 Hup].
    apply store_up_S in Hup as [Hup2 _].
    unfold invite_handler. rewrite run_try_catch, Hhid, Hadmin, Hemail.
    destruct email as [|c email]; [done|].
    rewrite run_bind, run_await. unfold first_user_by_email.
    rewrite query_up by done. rewrite db_served, Htarget.
    rewrite run_bind, run_bind, run_await. unfold first_member.
    rewrite query_up by done. rewrite !db_served, Hm, Hact. done.
Qed.

Lemma invite_refuses_missing_email_and_members_witness :
  (run (invite_handler invite_member) (household_with 4)).1
  = Resolved (error_response 400 "User is already a member of this household")
  ∧ db (run (invite_handler invite_member) (household_with 4)).2
    = db (household_with 4).
Proof.
  apply (proj2 (invite_refuses_missing_email_and_members invite_member
                  (household_with 4) "h1" (sample_user 0) eq_refl eq_refl)
           "u1@example.com" (sample_user 1) (sample_member 1 true));
    [reflexivity | discriminate | reflexivity | reflexivity | reflexivity
    | reflexivity].
Defined.

(** ** Removing a member *)

Lemma deactivate_count (h : string) (P : MemberRow → Prop)
    `{∀ x, Decision (P x)} (t : Z) (rows : list MemberRow) :
  (length (filter (is_active_in h) (update_where P (deactivate t) rows))
   ≤ length (filter (is_active_in h) rows))%nat
  ∧ ((∃ m, m ∈ rows ∧ P m ∧ is_active_in h m) →
     (length (filter (is_active_in h) (update_where P (deactivate t) rows))
      < length (filter (is_active_in h) rows))%nat).
Proof.
  unfold update_where. induction rows as [|x rows [IHle IHlt]].
  - split; [done|]. intros (m & Hm & _). by apply elem_of_nil in Hm.
  - rewrite fmap_cons, !list.filter_cons.
    destruct (decide (P x)) as [HP|HP].
    + rewrite (decide_False (P := is_active_in h (deactivate t x)))
        by (unfold is_active_in; simpl; naive_solver).
      destruct (decide (is_active_in h x)); simpl; split; try lia.
      intros (m & Hm & HPm & Hact).
      apply elem_of_cons in Hm as [-> | Hm]; [done|].
      apply IHlt. eauto.
    + destruct (decide (is_active_in h x)); simpl; split; try lia.
      * intros (m & Hm & HPm & Hact).
        apply elem_of_cons in Hm as [-> | Hm]; [done|].
        apply Nat.succ_lt_mono with (n := length _) (m := length _).
        apply IHlt. eauto.
      * intros (m & Hm & HPm & Hact).
        apply elem_of_cons in Hm as [-> | Hm]; [done|].
        apply IHlt. eauto.
Qed.

(** X15. Removing a member frees a slot.  When an admin removes another
    user who has an active membership row in the household and the store
    answers, the answer is 200, that row is deactivated in place, the
    household's active count drops, no household's count grows, and if
    the household was within its cap the next capacity check allows an
    admission.  Invitations and users are untouched. *)
Theorem removing_a_member_frees_a_slot
    (MAX_USERS : option Z) (userId : string) (req : Request) (w : World)
    (hid : string) (admin : UserRow) (m : MemberRow) :
  params_householdId req = Some hid →
  req_user req = Some admin →
  userId ≠ u_id admin →
  find_active_member userId hid (db w) = Some m →
  store_up 2 w = true →
  let r := run (remove_handler userId req) w in
  r.1 = Resolved (mkResponse 200
          [("message", JStr "User removed from household successfully")])
  ∧ household_members (db r.2)
    = update_where (λ x, m_id x = m_id m) (deactivate (clock w))
                   (household_members (db w))
  ∧ deactivate (clock w) m ∈ household_members (db r.2)
  ∧ activeMemberCount hid (db r.2) < activeMemberCount hid (db w)
  ∧ (∀ h, activeMemberCount h (db r.2) ≤ activeMemberCount h (db w))
  ∧ (activeMemberCount hid (db w) ≤ maxUsers_of MAX_USERS →
     ∀ w2 c, db w2 = db r.2 →
             (run (canAddUserToHousehold MAX_USERS hid) w2).1 = Resolved c →
             canAdd c = true)
  ∧ household_invitations (db r.2) = household_invitations (db w)
  ∧ users (db r.2) = users (db w).
Proof.
  intros Hhid Hadmin Hother Hm Hup r.
  apply store_up_S in Hup as [Hup1 Hup].
  apply store_up_S in Hup as [Hup2 _].
  assert (run (remove_handler userId req) w
          = (Resolved (mkResponse 200
               [("message", JStr "User removed from household successfully")]),
             set_db (set_members
               (update_where (λ x, m_id x = m_id m) (deactivate (clock w))))
               (served (served w)))) as Hrun.
  { unfold remove_handler. rewrite run_try_catch, Hhid, Hadmin.
    rewrite bool_decide_eq_false_2 by done.
    rewrite run_bind, run_await. unfold first_active_member.
    rewrite query_up by done. rewrite db_served.
    unfold find_active_member in Hm. rewrite Hm.
    rewrite run_bind, run_await. unfold deactivate_member.
    rewrite query_up by done. reflexivity. }
  assert (m ∈ household_members (db w) ∧ is_active_in hid m) as [Hin Hact].
  { unfold find_active_member, first_where in Hm.
    apply head_Some_elem_of in Hm.
    apply list_elem_of_filter in Hm as [(_ & ? & ?) ?]. by repeat split. }
  subst r. rewrite Hrun. cbn [fst snd].
  assert (activeMemberCount hid
            (db (set_db (set_members
               (update_where (λ x, m_id x = m_id m) (deactivate (clock w))))
               (served (served w))))
          < activeMemberCount hid (db w)) as Hdrop.
  { unfold activeMemberCount. simpl.
    destruct (deactivate_count hid (λ x, m_id x = m_id m) (clock w)
                (household_members (db w))) as [_ Hlt].
    apply inj_lt, Hlt. eauto. }
  split_and!; try done.
  - simpl. by apply elem_of_update_where_hit.
  - intros h. unfold activeMemberCount. simpl.
    destruct (deactivate_count h (λ x, m_id x = m_id m) (clock w)
                (household_members (db w))) as [Hle _].
    by apply inj_le.
  - intros Hcap w2 c Hsame. rewrite canAddUserToHousehold_run.
    destruct (store_up 1 w2); [|discriminate].
    intros [= <-]. cbn [canAdd]. rewrite Hsame. apply Z.ltb_lt. lia.
Qed.

Lemma removing_a_member_frees_a_slot_witness :
  let r := run (remove_handler "u3" remove_request) (household_with 5) in
  r.1 = Resolved (mkResponse 200
          [("message", JStr "User removed from household successfully")])
  ∧ activeMemberCount "h1" (db r.2)
    < activeMemberCount "h1" (db (household_with 5)).
Proof.
  destruct (removing_a_member_frees_a_slot None "u3" remove_request
              (household_with 5) "h1" (sample_user 0) (sample_member 3 true))
    as (H1 & _ & _ & H2 & _);
    [reflexivity | reflexivity | discriminate | reflexivity | reflexivity |].
  split; [exact H1 | exact H2].
Defined.

(** X16. Two refusals of the remove handler.  An admin who names their own
    user id is answered 400 "Cannot remove yourself from the household"
    without a store round-trip.  A user id without an active membership row
    in the household (never a member, or already removed) is answered 404
    and the store is left as it was. *)
Theorem remove_refuses_self_and_strangers
    (userId : string) (req : Request) (w : World)
    (hid : string) (admin : UserRow) :
  params_householdId req = Some hid →
  req_user req = Some admin →
  (userId = u_id admin →
   remove_handler userId req
   = Ret (error_response 400 "Cannot remove yourself from the household"))
  ∧ (userId ≠ u_id admin →
     find_active_member userId hid (db w) = None →
     store_up 1 w = true →
     (run (remove_handler userId req) w).1
     = Resolved (error_response 404 "User not found in household")
     ∧ db (run (remove_handler userId req) w).2 = db w).
Proof.
  intros Hhid Hadmin. split.
  - intros Hself. unfold remove_handler. rewrite Hhid, Hadmin.
    by rewrite bool_decide_eq_true_2.
  - intros Hother Hnone Hup. unfold remove_handler.
    rewrite run_try_catch, Hhid, Hadmin.
    rewrite bool_decide_eq_false_2 by done.
    rewrite run_bind, run_await. unfold first_active_member.
    rewrite query_up by done. rewrite db_served.
    unfold find_active_member in Hnone. by rewrite Hnone.
Qed.

Lemma remove_refuses_self_and_strangers_witness :
  remove_handler "u0" remove_request
  = Ret (error_response 400 "Cannot remove yourself from the household").
Proof.
  apply (proj1 (remove_refuses_self_and_strangers "u0" remove_request
                  (household_with 5) "h1" (sample_user 0) eq_refl eq_refl)).
  reflexivity.
Defined.

(** ** The invite route and the cap *)

Lemma update_where_miss {A : Type} (P : A → Prop) `{∀ x, Decision (P x)}
    (f : A → A) (rows : list A) :
  (∀ y, y ∈ rows → ¬ P y) → update_where P f rows = rows.
Proof.
  intros Hmiss. unfold update_where. induction rows as [|x rows IH]; [done|].
  rewrite fmap_cons, decide_False by (apply Hmiss; left).
  f_equal. apply IH. intros y Hy. apply Hmiss. by right.
Qed.

Lemma reactivate_count (h role permissions : string) (t : Z) (m : MemberRow)
    (rows : list MemberRow) :
  NoDup (m_id <$> rows) → m ∈ rows →
  length (filter (is_active_in h)
            (update_where (λ x, m_id x = m_id m)
                          (reactivate role permissions t) rows))
  = (length (filter (is_active_in h) rows)
     + (if decide (m_household_id m = h ∧ m_is_active m = false)
        then 1 else 0))%nat.
Proof.
  induction rows as [|x rows IH]; intros Hnd Hin.
  { by apply elem_of_nil in Hin. }
  rewrite fmap_cons in Hnd. apply NoDup_cons in Hnd as [Hx Hnd].
  apply elem_of_cons in Hin as [-> | Hin].
  - unfold update_where at 1. rewrite fmap_cons, decide_True by done.
    fold (update_where (λ y, m_id y = m_id x)
            (reactivate role permissions t) rows).
    rewrite update_where_miss.
    2:{ intros y Hy Heq. apply Hx. rewrite <- Heq.
        apply list_elem_of_fmap. eauto. }
    rewrite !list.filter_cons.
    destruct (decide (is_active_in h (reactivate role permissions t x)))
      as [H1|H1];
      destruct (decide (is_active_in h x)) as [H2|H2];
      destruct (decide (m_household_id x = h ∧ m_is_active x = false))
        as [H3|H3];
      simpl; try lia; exfalso; unfold is_active_in in *; simpl in *;
      destruct (m_is_active x); naive_solver.
  - assert (m_id x ≠ m_id m) as Hne.
    { intros Heq. apply Hx. rewrite Heq. apply list_elem_of_fmap. eauto. }
    unfold update_where at 1. rewrite fmap_cons, decide_False by done.
    fold (update_where (λ y, m_id y = m_id m)
            (reactivate role permissions t) rows).
    rewrite !list.filter_cons.
    specialize (IH Hnd Hin).
    destruct (decide (is_active_in h x)); simpl; lia.
Qed.

Lemma find_member_Some (hid uid : string) (d : Db) (m : MemberRow) :
  find_member hid uid d = Some m →
  m ∈ household_members d ∧ m_household_id m = hid ∧ m_user_id m = uid.
Proof.
  unfold find_member, first_where. intros Hm%head_Some_elem_of.
  apply list_elem_of_filter in Hm as [[? ?] ?]. done.
Qed.

Lemma js_or_Some (s : string) (b : option string) :
  s ≠ "" → js_or (Some s) b = Some s.
Proof.
  intros Hs. unfold js_or. cbn [truthy]. by rewrite bool_decide_eq_true_2.
Qed.

Lemma invite_handler_reactivates_run
    (req : Request) (w : World) (admin target : UserRow) (hid email : string)
    (m : MemberRow) :
  params_householdId req = Some hid →
  req_user req = Some admin →
  b_email (req_body req) = Some email →
  email ≠ "" →
  find_user_by_email (toLowerCase email) (db w) = Some target →
  find_member hid (u_id target) (db w) = Some m →
  m_is_active m = false →
  store_up 3 w = true →
  run (invite_handler req) w =
  (Resolved (mkResponse 200
     [("message", JStr "User reactivated successfully");
      ("user", user_json target)]),
   set_db (set_members (update_where (λ x, m_id x = m_id m)
             (reactivate (default "member" (b_role (req_body req)))
                         (default "read_write" (b_permissions (req_body req)))
                         (clock w))))
          (served (served (served w)))).
Proof.
  intros Hhid Hadmin Hemail Hne Htarget Hm Hinactive Hup.
  apply store_up_S in Hup as [Hup1 Hup].
  apply store_up_S in Hup as [Hup2 Hup].
  apply store_up_S in Hup as [Hup3 _].
  unfold invite_handler. rewrite run_try_catch, Hhid, Hadmin, Hemail.
  destruct email as [|c email]; [done|].
  rewrite run_bind, run_await. unfold first_user_by_email.
  rewrite query_up by done. rewrite db_served, Htarget.
  rewrite run_bind, run_bind, run_await. unfold first_member.
  rewrite query_up by done. rewrite !db_served, Hm, Hinactive.
  rewrite run_bind, run_await. unfold reactivate_member.
  rewrite query_up by done. reflexivity.
Qed.

Lemma authenticateJWT_cases (req : Request) (w : World) :
  (∃ resp, run (authenticateJWT req) w = (Resolved (inl resp), w))
  ∨ (∃ user, run (authenticateJWT req) w
             = (Resolved (inr (with_user user req)), w)).
Proof.
  unfold authenticateJWT.
  destruct (req_passport req) as [| |user]; [left; eauto..|].
  destruct (u_is_active user); cbn [negb]; [|left; eauto].
  destruct (u_locked_until user) as [until|]; [|right; eauto].
  rewrite run_bind. unfold peek. rewrite run_await.
  destruct (clock w <? until); [left|right]; eauto.
Qed.

Lemma authorize_cases (roles : list string) (req : Request) (w : World) :
  (∃ resp, run (authorize roles req) w = (Resolved (inl resp), w))
  ∨ run (authorize roles req) w = (Resolved (inr req), w).
Proof.
  unfold authorize. destruct (req_user req) as [user|]; [|left; eauto].
  repeat case_bool_decide; eauto.
Qed.

Lemma checkHouseholdMembership_cases (requiredPermission : string)
    (req : Request) (w : World) :
  ∃ x w', run (checkHouseholdMembership requiredPermission req) w
          = (Resolved x, w')
    ∧ db w' = db w
    ∧ ∀ req', x = inr req' →
        truthy (js_or (params_householdId req) (b_householdId (req_body req)))
        = true
        ∧ ∃ m, req' = with_membership m req.
Proof.
  unfold checkHouseholdMembership. rewrite run_try_catch.
  destruct (req_user req) as [user|]; [|by eexists _, _].
  destruct (truthy (js_or _ _)) eqn:Htruthy; cbn [negb];
    [|by eexists _, _].
  rewrite run_bind, run_await. unfold first_active_member.
  match goal with |- context [query ?f ?w] =>
    destruct (query_cases f w) as [-> | ->] end; [|by eexists _, _].
  destruct (first_where _ _) as [m|]; [|by eexists _, _].
  repeat case_bool_decide; eexists _, _; split_and!; try done.
  intros req' [= <-]. eauto.
Qed.

Lemma checkUserCap_cases (MAX_USERS : option Z) (req : Request) (w : World) :
  ∃ x w', run (checkUserCap MAX_USERS req) w = (Resolved x, w')
    ∧ db w' = db w
    ∧ ∀ req', x = inr req' →
        ∃ hid, cap_household req = Some hid
               ∧ activeMemberCount hid (db w) < maxUsers_of MAX_USERS
               ∧ req' = with_counts (activeMemberCount hid (db w))
                                    (maxUsers_of MAX_USERS) req.
Proof.
  destruct (cap_household req) as [hid|] eqn:Hcap.
  - destruct (decide (hid = "")) as [->|Hne].
    + unfold checkUserCap. fold (cap_household req). rewrite Hcap.
      by eexists _, _.
    + rewrite (checkUserCap_run _ _ _ hid) by done.
      destruct (store_up 1 w); [|by eexists _, _].
      destruct (_ <=? _) eqn:Hle; eexists _, _; split_and!; try done.
      intros req' [= <-]. exists hid. split_and!; [done| |done].
      by apply Z.leb_gt.
  - unfold checkUserCap. fold (cap_household req). rewrite Hcap.
    by eexists _, _.
Qed.

(** X17. The invite route keeps the cap.  For a request whose body names no
    household, with membership ids unique (the table's primary key), one run
    of the whole route ([authenticateJWT], [authorize], the membership
    guard, the cap middleware and the handler) leaves every household's
    active count as it was or raises it by one, and raises it only for the
    household of the path and only when that household was below the cap.
    So a household within the cap stays within it. *)
Theorem invite_route_keeps_the_cap
    (MAX_USERS : option Z) (req : Request) (w : World) :
  truthy (b_householdId (req_body req)) = false →
  NoDup (m_id <$> household_members (db w)) →
  let r := run (invite_route MAX_USERS req) w in
  (∀ h, activeMemberCount h (db r.2) = activeMemberCount h (db w)
        ∨ (params_householdId req = Some h
           ∧ activeMemberCount h (db w) < maxUsers_of MAX_USERS
           ∧ activeMemberCount h (db r.2) = activeMemberCount h (db w) + 1))
  ∧ (∀ h, activeMemberCount h (db w) ≤ maxUsers_of MAX_USERS →
          activeMemberCount h (db r.2) ≤ maxUsers_of MAX_USERS).
Proof.
  intros Hbody Hnd r.
  assert (∀ h, activeMemberCount h (db r.2) = activeMemberCount h (db w)
        ∨ (params_householdId req = Some h
           ∧ activeMemberCount h (db w) < maxUsers_of MAX_USERS
           ∧ activeMemberCount h (db r.2) = activeMemberCount h (db w) + 1))
    as Hstep.
  2:{ split; [done|]. intros h Hle.
      destruct (Hstep h) as [-> | (_ & ? & ->)]; lia. }
  intros h. subst r. unfold invite_route.
  rewrite run_route_cons.
  destruct (authenticateJWT_cases req w) as [[resp ->] | [user ->]];
    [by left|].
  rewrite run_route_cons.
  destruct (authorize_cases ["admin"] (with_user user req) w)
    as [[resp ->] | ->]; [by left|].
  rewrite run_route_cons.
  destruct (checkHouseholdMembership_cases "full" (with_user user req) w)
    as (x & w1 & -> & Hdb1 & Hpass).
  destruct x as [resp|req1]; [left; simpl; by rewrite Hdb1|].
  destruct (Hpass _ eq_refl) as [Htruthy [am ->]].
  change (params_householdId (with_user user req))
    with (params_householdId req) in Htruthy.
  change (req_body (with_user user req)) with (req_body req) in Htruthy.
  rewrite run_route_cons.
  destruct (checkUserCap_cases MAX_USERS
              (with_membership am (with_user user req)) w1)
    as (y & w2 & -> & Hdb2 & Hcap).
  destruct y as [resp|req2]; [left; simpl; by rewrite Hdb2, Hdb1|].
  destruct (Hcap _ eq_refl) as (hid & Hhid & Hbelow & ->).
  assert (params_householdId req = Some hid) as Hparams.
  { unfold cap_household in Hhid.
    change (req_body (with_membership am (with_user user req)))
      with (req_body req) in Hhid.
    change (params_householdId (with_membership am (with_user user req)))
      with (params_householdId req) in Hhid.
    unfold js_or in Hhid, Htruthy. rewrite Hbody in Hhid.
    destruct (truthy (params_householdId req)) eqn:Hp; [done|].
    congruence. }
  set (req3 := with_counts _ _ _).
  assert (params_householdId req3 = params_householdId req) as Hp3 by done.
  change (route [] invite_handler req3) with (invite_handler req3).
  destruct (invite_handler_effect req3 w2) as (_ & _ & _ & Hmem).
  cbv zeta in Hmem. rewrite Hdb2, Hdb1 in Hmem.
  destruct Hmem as [Hsame | (hid' & target & m & Hhid' & Hm & Hoff & Hupd)].
  - left. unfold activeMemberCount. by rewrite Hsame.
  - apply find_member_Some in Hm as (Hin & Hhh & _).
    unfold activeMemberCount. rewrite Hupd.
    rewrite (reactivate_count h _ _ _ m) by done.
    case_decide as Hh.
    + right. destruct Hh as [Hh _].
      rewrite Hp3 in Hhid'. rewrite Hdb1 in Hbelow.
      assert (h = hid) as -> by congruence.
      split_and!; [done|done|lia].
    + left. lia.
Qed.

Lemma invite_route_keeps_the_cap_witness :
  (activeMemberCount "h1"
     (db (run (invite_route None raw_invite_request) (admin_world 3)).2)
   <=? 5) = true.
Proof.
  apply Z.leb_le.
  refine (proj2 (invite_route_keeps_the_cap None raw_invite_request
                   (admin_world 3) _ _) "h1" _).
  - reflexivity.
  - refine (bool_decide_eq_true_1 _ _). vm_compute. reflexivity.
  - vm_compute. discriminate.
Defined.

(** X18. The cap check and the handler can look at different households.
    The cap middleware reads the household id from the body before the
    path; the membership guard and the handler read the path.  So when an
    admin of the household of the path sends a body that names another
    household with a free slot, the route reactivates the inactive member
    in the household of the path whatever its count: the count there goes
    up by one, and a household already at its cap ends above it. *)
Theorem body_household_sidesteps_the_cap
    (MAX_USERS : option Z) (req : Request) (w : World)
    (admin target : UserRow) (am m : MemberRow) (hid other email : string) :
  req_passport req = PassportUser admin →
  u_is_active admin = true →
  u_locked_until admin = None →
  u_role admin = "admin" →
  params_householdId req = Some hid → hid ≠ "" →
  b_householdId (req_body req) = Some other → other ≠ "" →
  find_active_member (u_id admin) hid (db w) = Some am →
  m_role am = "admin" →
  activeMemberCount other (db w) < maxUsers_of MAX_USERS →
  b_email (req_body req) = Some email → email ≠ "" →
  find_user_by_email (toLowerCase email) (db w) = Some target →
  find_member hid (u_id target) (db w) = Some m →
  m_is_active m = false →
  NoDup (m_id <$> household_members (db w)) →
  store_up 5 w = true →
  let r := run (invite_route MAX_USERS req) w in
  r.1 = Resolved (mkResponse 200
          [("message", JStr "User reactivated successfully");
           ("user", user_json target)])
  ∧ activeMemberCount hid (db r.2) = activeMemberCount hid (db w) + 1
  ∧ (maxUsers_of MAX_USERS ≤ activeMemberCount hid (db w) →
     maxUsers_of MAX_USERS < activeMemberCount hid (db r.2)).
Proof.
  intros Hp Hon Hlock Hrole Hhid Hne Hbody Hone Ham Hamrole Hfree
         Hemail Hmail Htarget Hm Hoff Hnd Hup r.
  apply store_up_S in Hup as [Hup1 Hup].
  apply store_up_S in Hup as [Hup2 Hup].
  assert (run (invite_route MAX_USERS req) w
          = (Resolved (mkResponse 200
               [("message", JStr "User reactivated successfully");
                ("user", user_json target)]),
             set_db (set_members (update_where (λ x, m_id x = m_id m)
               (reactivate (default "member" (b_role (req_body req)))
                  (default "read_write" (b_permissions (req_body req)))
                  (clock w))))
               (served (served (served (served (served w))))))) as Hrun.
  { unfold invite_route. rewrite run_route_cons.
    unfold authenticateJWT at 1. rewrite Hp, Hon, Hlock. cbn [negb run].
    rewrite run_route_cons. unfold authorize at 1.
    cbn [req_user with_user]. rewrite Hrole.
    rewrite bool_decide_eq_false_2 by done.
    rewrite bool_decide_eq_true_2 by (apply list_elem_of_singleton; done).
    cbn [run]. rewrite run_route_cons.
    unfold checkHouseholdMembership at 1. rewrite run_try_catch.
    cbn [req_user with_user params_householdId req_body].
    rewrite Hhid, !js_or_Some by done. cbn [truthy].
    rewrite bool_decide_eq_true_2 by done.
    change (default "" (Some hid)) with hid. cbn [negb].
    rewrite run_bind, run_await. unfold first_active_member.
    rewrite query_up by done. rewrite db_served.
    unfold find_active_member in Ham. rewrite Ham.
    rewrite bool_decide_eq_false_2 by (intros [? _]; done).
    rewrite bool_decide_eq_false_2 by (intros [_ ?]; done).
    cbn [run]. rewrite run_route_cons.
    rewrite (checkUserCap_run _ _ _ other); [|
      unfold cap_household; cbn [req_body with_membership with_user];
      by rewrite Hbody, !js_or_Some | done].
    rewrite Hup2, db_served.
    rewrite (proj2 (Z.leb_gt _ _)) by done.
    change (route [] invite_handler ?q) with (invite_handler q).
    erewrite invite_handler_reactivates_run; [reflexivity|..]; try done. }
  subst r. rewrite Hrun. cbn [fst snd].
  apply find_member_Some in Hm as (Hin & Hhh & _).
  assert (activeMemberCount hid
            (db (set_db (set_members (update_where (λ x, m_id x = m_id m)
               (reactivate (default "member" (b_role (req_body req)))
                  (default "read_write" (b_permissions (req_body req)))
                  (clock w))))
               (served (served (served (served (served w)))))))
          = activeMemberCount hid (db w) + 1) as Hcount.
  { unfold activeMemberCount. simpl.
    rewrite (reactivate_count hid _ _ _ m) by done.
    rewrite decide_True by done. lia. }
  split_and!; [done|done|lia].
Qed.

Lemma body_household_sidesteps_the_cap_witness :
  let r := run (invite_route None invite_naming_h2) (admin_world 4) in
  activeMemberCount "h1" (db (admin_world 4)) = 5
  ∧ activeMemberCount "h1" (db r.2) = 5 + 1.
Proof.
  split; [reflexivity|].
  refine (proj1 (proj2 (body_household_sidesteps_the_cap None invite_naming_h2
            (admin_world 4) admin_user (sample_user 4)
            (mkMember "ma" "h1" "a0" "admin" "full" true 0 true None)
            (sample_member 4 false) "h1" "h2" "U4@Example.com"
            _ _ _ _ _ _ _ _ _ _ _ _ _ _ _ _ _ _)));
    try reflexivity; try discriminate.
  refine (bool_decide_eq_true_1 _ _). vm_compute. reflexivity.
Defined.

(** ** Registration *)

Lemma alerts_without_admins (hid : string) (c m : Z) (w : World) :
  verified_admins hid (db w) = [] →
  ∃ w', run (sendUserLimitAlerts hid c m) w = (Resolved (), w')
        ∧ db w' = db w ∧ sent_emails w' = sent_emails w.
Proof.
  intros Hnone. unfold sendUserLimitAlerts. rewrite run_try_catch.
  destruct (utilization_ge_80 c m); [|by eexists].
  rewrite run_bind, run_await. unfold select_verified_admins.
  match goal with |- context [query ?f ?w] =>
    destruct (query_cases f w) as [-> | ->] end; [|by eexists].
  rewrite db_served, Hnone. by eexists.
Qed.

Lemma register_handler_form (req : Request) :
  form_complete (req_body req) = true →
  ∃ email username password firstName lastName,
    b_email (req_body req) = Some email ∧ email ≠ ""
    ∧ b_username (req_body req) = Some username ∧ username ≠ ""
    ∧ b_password (req_body req) = Some password ∧ password ≠ ""
    ∧ b_firstName (req_body req) = Some firstName ∧ firstName ≠ ""
    ∧ b_lastName (req_body req) = Some lastName ∧ lastName ≠ "".
Proof.
  unfold form_complete. rewrite !andb_true_iff.
  intros [[[[He Hu] Hp] Hf] Hl].
  destruct (b_email _) as [email|]; [|done].
  destruct (b_username _) as [username|]; [|done].
  destruct (b_password _) as [password|]; [|done].
  destruct (b_firstName _) as [firstName|]; [|done].
  destruct (b_lastName _) as [lastName|]; [|done].
  cbn [truthy] in *.
  apply bool_decide_eq_true_1 in He, Hu, Hp, Hf, Hl.
  by exists email, username, password, firstName, lastName.
Qed.

(** X19. The registration handler validates before it touches the store.
    A form in which one of [email], [username], [password], [firstName],
    [lastName] is missing or empty is answered 400 "All required fields
    must be provided"; a complete form whose password has fewer than 8
    characters is answered 400 "Password must be at least 8 characters
    long".  In both cases the world is left exactly as it was. *)
Theorem register_validates_before_the_store (req : Request) (w : World) :
  (form_complete (req_body req) = false →
   run (register_handler req) w
   = (Resolved (error_response 400 "All required fields must be provided"), w))
  ∧ (∀ password,
       form_complete (req_body req) = true →
       b_password (req_body req) = Some password →
       String_length password < 8 →
       run (register_handler req) w
       = (Resolved (error_response 400
                      "Password must be at least 8 characters long"), w)).
Proof.
  split.
  - unfold form_complete, register_handler. intros Hform.
    rewrite run_try_catch.
    destruct (b_email _) as [email|]; [|done].
    destruct (b_username _) as [username|]; [|done].
    destruct (b_password _) as [password|]; [|done].
    destruct (b_firstName _) as [firstName|]; [|done].
    destruct (b_lastName _) as [lastName|]; [|done].
    by rewrite Hform.
  - intros password Hform Hpw Hshort.
    destruct (register_handler_form req Hform)
      as (email & username & password' & firstName & lastName
          & He & _ & Hu & _ & Hp & _ & Hf & _ & Hl & _).
    unfold register_handler. rewrite run_try_catch.
    unfold form_complete in Hform. rewrite He, Hu, Hp, Hf, Hl in *.
    rewrite Hform. cbn [negb]. injection Hpw as ->.
    by rewrite (proj2 (Z.ltb_lt _ _)) by done.
Qed.

Lemma register_validates_before_the_store_witness :
  run (register_handler (names_h1)) (household_with 3)
  = (Resolved (error_response 400 "All required fields must be provided"),
     household_with 3).
Proof.
  apply (proj1 (register_validates_before_the_store names_h1
                  (household_with 3))).
  reflexivity.
Defined.

Lemma store_up_succ (n : nat) (w : World) :
  store_up (S n) w = store_up 1 w && store_up n (served w).
Proof.
  unfold store_up, served. destruct w as [d h se pu fs c k]; simpl.
  destruct fs as [|[] fs]; destruct n; simpl; try done;
    by rewrite ?andb_true_r.
Qed.

Lemma registration_has_no_verified_admin (w : World) (d : Db)
    (email username firstName lastName : string) :
  ids_fresh w →
  users d = users (db w)
            ++ [registered_user email username firstName lastName w] →
  household_members d = household_members (db w) ++ [registered_member w] →
  verified_admins (uuid_of (S (next_uuid w))) d = [].
Proof.
  intros [Hu Hm] Hd1 Hd2. unfold verified_admins. rewrite Hd1, Hd2.
  rewrite list.filter_app, bind_app.
  rewrite filter_none.
  2:{ intros m Hin [Hh _]. by apply (Hm m). }
  rewrite list.filter_cons, list.filter_nil.
  case_decide; [|done]. rewrite bind_singleton, app_nil_l.
  rewrite list.filter_app, list.filter_cons, list.filter_nil.
  rewrite filter_none.
  2:{ intros u Hin [Hid _]. by apply (Hu u). }
  rewrite decide_False; [done|]. by intros [_ ?].
Qed.

Lemma register_handler_run (req : Request) (w : World)
    (email username password firstName lastName : string) :
  b_email (req_body req) = Some email → email ≠ "" →
  b_username (req_body req) = Some username → username ≠ "" →
  b_password (req_body req) = Some password → 8 ≤ String_length password →
  b_firstName (req_body req) = Some firstName → firstName ≠ "" →
  b_lastName (req_body req) = Some lastName → lastName ≠ "" →
  first_where (λ u, u_email u = toLowerCase email ∨ u_username u = username)
              (users (db w)) = None →
  ids_fresh w →
  store_up 4 w = true →
  ∃ w', run (register_handler req) w
        = (Resolved (if store_up 5 w
                     then registered_response email username firstName
                                              lastName w
                     else error_response 500 "Registration failed"), w')
    ∧ users (db w')
      = users (db w) ++ [registered_user email username firstName lastName w]
    ∧ households (db w')
      = households (db w) ++ [registered_household firstName w]
    ∧ household_members (db w')
      = household_members (db w) ++ [registered_member w]
    ∧ household_invitations (db w') = household_invitations (db w)
    ∧ sent_emails w'
      = sent_emails w ++ (if store_up 5 w then [welcome_mail email] else []).
Proof.
  intros He Hne Hu Hnu Hp Hlen Hf Hnf Hl Hnl Hnone Hfresh Hup.
  rewrite (store_up_succ 4 w), (store_up_succ 3 (served w)),
          (store_up_succ 2 (served (served w))),
          (store_up_succ 1 (served (served (served w)))).
  apply store_up_S in Hup as [Hup1 Hup].
  apply store_up_S in Hup as [Hup2 Hup].
  apply store_up_S in Hup as [Hup3 Hup].
  apply store_up_S in Hup as [Hup4 _].
  rewrite Hup1, Hup2, Hup3, Hup4. cbn [andb].
  unfold register_handler. rewrite run_try_catch.
  cbv zeta. rewrite He, Hu, Hp, Hf, Hl. cbn [truthy].
  assert (password ≠ "") as Hnp.
  { intros ->. unfold String_length in Hlen. simpl in Hlen. lia. }
  repeat (rewrite bool_decide_eq_true_2 by done; cbn [andb negb]).
  rewrite (proj2 (Z.ltb_ge _ _)) by done.
  rewrite run_bind, run_await. unfold first_user_by_email_or_username.
  rewrite query_up by done. rewrite db_served, Hnone.
  rewrite run_bind, run_await. unfold insert_user.
  rewrite query_up by done. cbv zeta.
  rewrite run_bind, run_await. unfold insert_household.
  rewrite query_up by done. cbv zeta.
  rewrite run_bind, run_await. unfold insert_member.
  rewrite query_up by done. cbv zeta.
  cbn [next_uuid served set_db set_faults bump_uuid db faults
       m_household_id m_user_id h_id u_id household_members
       set_members set_households set_users].
  assert (member_exists (uuid_of (S (next_uuid w))) (uuid_of (next_uuid w))
            (household_members (db w)) = false) as ->.
  { unfold member_exists. apply bool_decide_eq_false_2.
    intros (m & Hin & Hh & _)%Exists_exists. by apply (proj2 Hfresh m). }
  rewrite run_bind, run_await. unfold sendEmail at 1.
  destruct (store_up 1 (served (served (served (served w))))) eqn:Hup5.
  - rewrite query_up by exact Hup5.
    match goal with |- context [run (?p ≫= ?k) ?w5] =>
      assert (∃ w', run p w5 = (Resolved (), w')
                    ∧ db w' = db w5 ∧ sent_emails w' = sent_emails w5)
        as (w' & Halert & Hdb & Hmail)
    end.
    { destruct (req_userCount req) as [n|]; [|by eexists].
      destruct (req_maxUsers req) as [mx|]; [|by eexists].
      destruct (mx - 1 <=? n); [|by eexists].
      apply alerts_without_admins.
      by apply (registration_has_no_verified_admin w _ email username
                  firstName lastName). }
    rewrite run_bind, Halert. cbn [run].
    exists w'. rewrite Hdb, Hmail. by split_and!.
  - rewrite query_down by exact Hup5. cbn [run].
    eexists. split; [reflexivity|]. cbn. by rewrite app_nil_r.
Qed.

Lemma register_handler_existing (req : Request) (w : World)
    (email username password firstName lastName : string) (x : UserRow) :
  b_email (req_body req) = Some email → email ≠ "" →
  b_username (req_body req) = Some username → username ≠ "" →
  b_password (req_body req) = Some password → 8 ≤ String_length password →
  b_firstName (req_body req) = Some firstName → firstName ≠ "" →
  b_lastName (req_body req) = Some lastName → lastName ≠ "" →
  x ∈ users (db w) →
  u_email x = toLowerCase email ∨ u_username x = username →
  store_up 1 w = true →
  run (register_handler req) w
  = (Resolved (error_response 400
                 "User already exists with this email or username"),
     served w).
Proof.
  intros He Hne Hu Hnu Hp Hlen Hf Hnf Hl Hnl Hin Hx Hup.
  unfold register_handler. rewrite run_try_catch.
  cbv zeta. rewrite He, Hu, Hp, Hf, Hl. cbn [truthy].
  assert (password ≠ "") as Hnp.
  { intros ->. unfold String_length in Hlen. simpl in Hlen. lia. }
  repeat (rewrite bool_decide_eq_true_2 by done; cbn [andb negb]).
  rewrite (proj2 (Z.ltb_ge _ _)) by done.
  rewrite run_bind, run_await. unfold first_user_by_email_or_username.
  rewrite query_up by done. rewrite db_served.
  destruct (first_where _ _) as [y|] eqn:Hfirst; [done|].
  exfalso. unfold first_where in Hfirst. apply head_None in Hfirst.
  assert (x ∈ filter (λ u, u_email u = toLowerCase email
                           ∨ u_username u = username) (users (db w)))
    as Hmem by (by apply list_elem_of_filter).
  rewrite Hfirst in Hmem. by apply elem_of_nil in Hmem.
Qed.

(** X20. What a successful registration writes.  For a complete form with
    a password of at least 8 characters, an email and username not yet in
    use, fresh ids and five answered round-trips, the handler answers 201
    and appends exactly one user (email in lower case, account role
    [user], unverified), one household owned by that user and one
    membership row making the user [admin] with [full] permissions of that
    household; invitations are untouched.  The welcome mail is the only
    mail sent: the limit alert is addressed to the verified admins of the
    new household, and its only admin is the unverified newcomer.  Since
    the invite route asks for the account role [admin], the newcomer is
    refused there with 403 although they administer their household. *)
Theorem registration_creates_an_admin_who_cannot_invite
    (req : Request) (w : World)
    (email username password firstName lastName : string) :
  b_email (req_body req) = Some email → email ≠ "" →
  b_username (req_body req) = Some username → username ≠ "" →
  b_password (req_body req) = Some password → 8 ≤ String_length password →
  b_firstName (req_body req) = Some firstName → firstName ≠ "" →
  b_lastName (req_body req) = Some lastName → lastName ≠ "" →
  first_where (λ u, u_email u = toLowerCase email ∨ u_username u = username)
              (users (db w)) = None →
  ids_fresh w →
  store_up 5 w = true →
  let r := run (register_handler req) w in
  let newcomer := registered_user email username firstName lastName w in
  r.1 = Resolved (registered_response email username firstName lastName w)
  ∧ users (db r.2) = users (db w) ++ [newcomer]
  ∧ households (db r.2)
    = households (db w) ++ [registered_household firstName w]
  ∧ household_members (db r.2)
    = household_members (db w) ++ [registered_member w]
  ∧ household_invitations (db r.2) = household_invitations (db w)
  ∧ sent_emails r.2 = sent_emails w ++ [welcome_mail email]
  ∧ ∀ MAX_USERS req',
      req_passport req' = PassportUser newcomer →
      invite_route MAX_USERS req'
      = Ret (error_response 403 "Insufficient permissions").
Proof.
  intros He Hne Hu Hnu Hp Hlen Hf Hnf Hl Hnl Hnone Hfresh Hup r newcomer.
  assert (store_up 4 w = true) as Hup4.
  { rewrite store_up_succ in Hup. apply andb_true_iff in Hup as [Hup1 Hup].
    rewrite store_up_succ, Hup1. cbn [andb].
    rewrite store_up_succ in Hup. apply andb_true_iff in Hup as [Hup2 Hup].
    rewrite store_up_succ, Hup2. cbn [andb].
    rewrite store_up_succ in Hup. apply andb_true_iff in Hup as [Hup3 Hup].
    rewrite store_up_succ, Hup3. cbn [andb].
    rewrite store_up_succ in Hup. by apply andb_true_iff in Hup as [Hup5 _]. }
  destruct (register_handler_run req w email username password firstName
              lastName He Hne Hu Hnu Hp Hlen Hf Hnf Hl Hnl Hnone Hfresh Hup4)
    as (w' & Hrun & Husers & Hhouseholds & Hmembers & Hinv & Hmail).
  rewrite Hup in Hrun, Hmail.
  subst r. rewrite Hrun. cbn [fst snd]. split_and!; try done.
  intros MAX_USERS req' Hpass. unfold invite_route. cbn [route].
  unfold authenticateJWT. rewrite Hpass. cbn.
  unfold authorize. cbn.
  rewrite bool_decide_eq_false_2; [done|].
  by intros Hin%list_elem_of_singleton.
Qed.

Lemma registration_creates_an_admin_who_cannot_invite_witness :
  let r := run (register_handler register_request) (household_with 3) in
  users (db r.2)
  = users (db (household_with 3))
    ++ [registered_user "new@example.com" "newcomer" "New" "Comer"
          (household_with 3)]
  ∧ sent_emails r.2 = [welcome_mail "new@example.com"].
Proof.
  destruct (registration_creates_an_admin_who_cannot_invite register_request
              (household_with 3) "new@example.com" "newcomer" "correct horse"
              "New" "Comer")
    as (_ & Husers & _ & _ & _ & Hmail & _);
    try reflexivity; try discriminate.
  - split; intros x Hin; vm_compute in Hin;
      repeat (apply elem_of_cons in Hin as [-> | Hin]; [discriminate|]);
      by apply elem_of_nil in Hin.
  - split; [exact Husers | exact Hmail].
Defined.

(** X21. Registration is not atomic.  When the first four round-trips are
    answered and the fifth, the welcome mail, fails, the handler answers
    500 "Registration failed" and sends nothing, yet the user, the
    household and the membership row stay in the store.  Sending the same
    form again is then answered 400 "User already exists with this email or
    username", so the form can never complete. *)
Theorem failed_registration_keeps_its_rows
    (req : Request) (w : World)
    (email username password firstName lastName : string) :
  b_email (req_body req) = Some email → email ≠ "" →
  b_username (req_body req) = Some username → username ≠ "" →
  b_password (req_body req) = Some password → 8 ≤ String_length password →
  b_firstName (req_body req) = Some firstName → firstName ≠ "" →
  b_lastName (req_body req) = Some lastName → lastName ≠ "" →
  first_where (λ u, u_email u = toLowerCase email ∨ u_username u = username)
              (users (db w)) = None →
  ids_fresh w →
  store_up 4 w = true →
  store_up 5 w = false →
  let r := run (register_handler req) w in
  r.1 = Resolved (error_response 500 "Registration failed")
  ∧ users (db r.2)
    = users (db w) ++ [registered_user email username firstName lastName w]
  ∧ households (db r.2)
    = households (db w) ++ [registered_household firstName w]
  ∧ household_members (db r.2)
    = household_members (db w) ++ [registered_member w]
  ∧ sent_emails r.2 = sent_emails w
  ∧ ∀ w2, db w2 = db r.2 → store_up 1 w2 = true →
      run (register_handler req) w2
      = (Resolved (error_response 400
                     "User already exists with this email or username"),
         served w2).
Proof.
  intros He Hne Hu Hnu Hp Hlen Hf Hnf Hl Hnl Hnone Hfresh Hup4 Hdown r.
  destruct (register_handler_run req w email username password firstName
              lastName He Hne Hu Hnu Hp Hlen Hf Hnf Hl Hnl Hnone Hfresh Hup4)
    as (w' & Hrun & Husers & Hhouseholds & Hmembers & Hinv & Hmail).
  rewrite Hdown in Hrun, Hmail. rewrite app_nil_r in Hmail.
  subst r. rewrite Hrun. cbn [fst snd]. split_and!; try done.
  intros w2 Hdb Hup.
  apply (register_handler_existing req w2 email username password firstName
           lastName (registered_user email username firstName lastName w));
    try done.
  - rewrite Hdb, Husers. apply elem_of_app. right. by left.
  - by left.
Qed.

Lemma failed_registration_keeps_its_rows_witness :
  let r := run (register_handler register_request) mailer_down in
  r.1 = Resolved (error_response 500 "Registration failed")
  ∧ length (users (db r.2)) = S (length (users (db mailer_down))).
Proof.
  destruct (failed_registration_keeps_its_rows register_request
              mailer_down "new@example.com" "newcomer" "correct horse"
              "New" "Comer")
    as (Hresp & Husers & _);
    try reflexivity; try discriminate.
  - split; intros x Hin; vm_compute in Hin;
      repeat (apply elem_of_cons in Hin as [-> | Hin]; [discriminate|]);
      by apply elem_of_nil in Hin.
  - split; [exact Hresp|]. rewrite Husers, length_app. simpl. lia.
Defined.

(** ** The connection gateway *)

Lemma select_households_access (uid hid : string) (d : Db) :
  Exists (λ h, hi_id h = hid)
    (m ← filter (λ m, m_user_id m = uid ∧ m_is_active m = true)
                (household_members d);
     h ← filter (λ h, h_id h = m_household_id m ∧ h_is_active h = true)
                (households d);
     [mkHouseholdInfo (h_id h) (h_name h) (m_role m) (m_permissions m)])
  ↔ ∃ m h, m ∈ household_members d ∧ m_user_id m = uid
           ∧ m_is_active m = true ∧ m_household_id m = hid
           ∧ h ∈ households d ∧ h_id h = hid ∧ h_is_active h = true.
Proof.
  rewrite Exists_exists. split.
  - intros (info & Hin & Hid).
    apply list_elem_of_bind in Hin as (m & Hin & Hm).
    apply list_elem_of_bind in Hin as (h & Hin & Hh).
    apply list_elem_of_singleton in Hin as ->. simpl in Hid.
    apply list_elem_of_filter in Hm as [[Hu Ha] Hm].
    apply list_elem_of_filter in Hh as [[Hhm Hha] Hh].
    exists m, h. split_and!; try done. congruence.
  - intros (m & h & Hm & Hu & Ha & Hhm & Hh & Hid & Hha).
    exists (mkHouseholdInfo (h_id h) (h_name h) (m_role m) (m_permissions m)).
    split; [|done].
    apply list_elem_of_bind. exists m. split.
    + apply list_elem_of_bind. exists h. split; [by left|].
      apply list_elem_of_filter. split; [|done]. split; congruence.
    + apply list_elem_of_filter. by split.
Qed.

Lemma socket_auth_session
    (verify : string → option string) (sid : string) (hs : Handshake)
    (w : World) :
  let r := run (socket_auth verify sid hs) w in
  (∃ x, r.1 = Resolved x)
  ∧ hub r.2 = hub w ∧ db r.2 = db w
  ∧ ∀ s, r.1 = Resolved (inr s) →
      ∃ token user,
        auth_token hs = Some token ∧ token ≠ ""
        ∧ verify token = Some (u_id user)
        ∧ user ∈ users (db w)
        ∧ u_is_active user = true
        ∧ (∀ until, u_locked_until user = Some until → until ≤ clock w)
        ∧ sock_id s = sid
        ∧ su_id (sock_user s) = u_id user
        ∧ su_role (sock_user s) = u_role user
        ∧ ∀ hid, hasAccess s hid = true
                 ↔ ∃ m h, m ∈ household_members (db w)
                          ∧ m_user_id m = u_id user
                          ∧ m_is_active m = true
                          ∧ m_household_id m = hid
                          ∧ h ∈ households (db w)
                          ∧ h_id h = hid ∧ h_is_active h = true.
Proof.
  intros r. subst r.
  destruct (socket_auth_run verify sid hs w) as (Hhub & _ & Hdb & _).
  cbv zeta in Hhub, Hdb. split_and!; [|done|done|].
  { unfold socket_auth. rewrite run_try_catch.
    match goal with |- context [run ?p w] =>
      destruct (run p w) as [[x|e] w1] end; cbn [run fst]; eauto. }
  unfold socket_auth. rewrite run_try_catch.
  match goal with |- context [run ?p w] =>
    assert (H : ∀ s w1, run p w = (Resolved (inr s), w1) →
      ∃ token user,
        auth_token hs = Some token ∧ token ≠ ""
        ∧ verify token = Some (u_id user)
        ∧ user ∈ users (db w)
        ∧ u_is_active user = true
        ∧ (∀ until, u_locked_until user = Some until → until ≤ clock w)
        ∧ sock_id s = sid
        ∧ su_id (sock_user s) = u_id user
        ∧ su_role (sock_user s) = u_role user
        ∧ ∀ hid, hasAccess s hid = true
                 ↔ ∃ m h, m ∈ household_members (db w)
                          ∧ m_user_id m = u_id user
                          ∧ m_is_active m = true
                          ∧ m_household_id m = hid
                          ∧ h ∈ households (db w)
                          ∧ h_id h = hid ∧ h_is_active h = true);
    [| destruct (run p w) as [[[msg|s0]|e] w1]; simpl;
       intros s Hs; try discriminate;
       injection Hs as ->; by apply (H _ _ eq_refl) ]
  end.
  intros s w1.
  destruct (auth_token hs) as [[|c token]|]; try discriminate.
  destruct (verify _) as [id|] eqn:Hverify; [|discriminate].
  unfold first_active_user. round_trip; [|discriminate].
  rewrite db_served.
  destruct (first_where _ _) as [user|] eqn:Huser; [|discriminate].
  unfold first_where in Huser. apply head_Some_elem_of in Huser.
  apply list_elem_of_filter in Huser as [[Hid Hactive] Hin].
  rewrite run_bind.
  assert (∃ b, run (match u_locked_until user with
                    | Some until => t ← peek clock; Ret (t <? until)
                    | None => Ret false
                    end) (served w) = (Resolved b, served w)
               ∧ (b = false →
                  ∀ until, u_locked_until user = Some until → until ≤ clock w))
    as (b & -> & Hlock).
  { destruct (u_locked_until user) as [until|]; simpl.
    - eexists. split; [reflexivity|].
      intros Hb until' [= <-]. by apply Z.ltb_ge.
    - eexists. split; [reflexivity|]. done. }
  destruct b; [discriminate|].
  unfold select_households. round_trip; [|discriminate].
  intros [= <- <-]. exists (String c token), user.
  subst id. do 5 (split; [done|]). split; [by apply Hlock|].
  do 3 (split; [done|]).
  intros hid. unfold hasAccess. cbn [sock_user su_households].
  etrans; [apply bool_decide_eq_true|].
  apply select_households_access.
Qed.

(** X22. A socket session is backed by the store.  The [io.use] middleware
    never rejects and never touches the hub or the store.  When it lets a
    connection through, the handshake carried a non-empty token, the token
    verified to the id of a user row that is active and not locked at that
    moment, the session carries that user's id, and the households the
    session has access to are exactly those in which the user has an
    active membership row and which are themselves active, as the store
    had them when the connection was made. *)
Theorem socket_session_is_backed_by_the_store
    (verify : string → option string) (sid : string) (hs : Handshake)
    (w : World) :
  let r := run (socket_auth verify sid hs) w in
  (∃ x, r.1 = Resolved x)
  ∧ hub r.2 = hub w ∧ db r.2 = db w
  ∧ ∀ s, r.1 = Resolved (inr s) →
      ∃ token user,
        auth_token hs = Some token ∧ token ≠ ""
        ∧ verify token = Some (u_id user)
        ∧ user ∈ users (db w)
        ∧ u_is_active user = true
        ∧ (∀ until, u_locked_until user = Some until → until ≤ clock w)
        ∧ sock_id s = sid
        ∧ su_id (sock_user s) = u_id user
        ∧ su_role (sock_user s) = u_role user
        ∧ ∀ hid, hasAccess s hid = true
                 ↔ ∃ m h, m ∈ household_members (db w)
                          ∧ m_user_id m = u_id user
                          ∧ m_is_active m = true
                          ∧ m_household_id m = hid
                          ∧ h ∈ households (db w)
                          ∧ h_id h = hid ∧ h_is_active h = true.
Proof. exact (socket_auth_session verify sid hs w). Qed.

Lemma socket_session_is_backed_by_the_store_witness :
  hasAccess (session_of_u1 "s1") "h1" = true
  ↔ ∃ m h, m ∈ household_members (db (household_with 4))
           ∧ m_user_id m = u_id (sample_user 1)
           ∧ m_is_active m = true
           ∧ m_household_id m = "h1"
           ∧ h ∈ households (db (household_with 4))
           ∧ h_id h = "h1" ∧ h_is_active h = true.
Proof.
  destruct (proj2 (proj2 (proj2 (socket_session_is_backed_by_the_store
              sample_verify "s1" (token_of "u1") (household_with 4))))
              (session_of_u1 "s1"))
    as (token & user & Htok & _ & Hv & _ & _ & _ & _ & _ & _ & Haccess).
  - vm_compute. reflexivity.
  - assert (u_id user = "u1") as Hid.
    { injection Htok as <-. by injection Hv as <-. }
    change (u_id (sample_user 1)) with "u1". rewrite <- Hid. apply Haccess.
Defined.

(** ** Rooms *)

Lemma room_members_join (room sid r : string) (w : World) :
  room_members room (hub (join sid r w))
  = if decide (room = r) then {[sid]} ∪ room_members r (hub w)
    else room_members room (hub w).
Proof.
  unfold room_members, join. simpl. case_decide as Hr.
  - subst. by rewrite lookup_insert_eq.
  - by rewrite lookup_insert_ne.
Qed.

Lemma room_members_leave (room sid r : string) (w : World) :
  room_members room (hub (leave sid r w))
  = if decide (room = r) then room_members r (hub w) ∖ {[sid]}
    else room_members room (hub w).
Proof.
  unfold leave, leave_hub. simpl. unfold room_members at 1. simpl.
  destruct (decide (room = r)) as [->|Hr]; case_decide as Hrest.
  - by rewrite lookup_delete_eq, Hrest.
  - by rewrite lookup_insert_eq.
  - by rewrite lookup_delete_ne.
  - by rewrite lookup_insert_ne.
Qed.

Lemma room_members_cleanup (room sid : string) (w : World) :
  room_members room (hub (cleanup sid w))
  = room_members room (hub w) ∖ {[sid]}.
Proof.
  unfold cleanup, room_members. simpl.
  rewrite map_lookup_filter, lookup_fmap.
  destruct (rooms (hub w) !! room) as [S|]; simpl; [|set_solver].
  case_guard as Hguard; simpl in *; [done|].
  by rewrite Hguard.
Qed.

Lemma sockets_join (sid r : string) (w : World) :
  sockets (hub (join sid r w)) = sockets (hub w).
Proof. reflexivity. Qed.

Lemma sockets_leave (sid r : string) (w : World) :
  sockets (hub (leave sid r w)) = sockets (hub w).
Proof. reflexivity. Qed.

Lemma household_room_not_user (x : string) :
  not_a_user_room ("household:" +:+ x).
Proof. intros uid H. simpl in H. discriminate H. Qed.

Lemma collab_room_not_user (d : CollabData) : not_a_user_room (collab_room d).
Proof. intros uid H. unfold collab_room in H. simpl in H. discriminate H. Qed.

Lemma chat_room_not_user (roomType roomId : string) :
  not_a_user_room (chat_room roomType roomId).
Proof. intros uid H. unfold chat_room in H. simpl in H. discriminate H. Qed.

Lemma updates_channel_not_user (sub : Subscription) :
  not_a_user_room (updates_channel sub).
Proof.
  intros uid H. unfold updates_channel in H. simpl in H. discriminate H.
Qed.

Lemma user_room_join (uid sid r : string) (w : World) :
  not_a_user_room r →
  room_members ("user:" +:+ uid) (hub (join sid r w))
  = room_members ("user:" +:+ uid) (hub w).
Proof. intros Hr. rewrite room_members_join. by rewrite decide_False. Qed.

Lemma user_room_leave (uid sid r : string) (w : World) :
  not_a_user_room r →
  room_members ("user:" +:+ uid) (hub (leave sid r w))
  = room_members ("user:" +:+ uid) (hub w).
Proof. intros Hr. rewrite room_members_leave. by rewrite decide_False. Qed.

Lemma private_mono (h h' : Hub) :
  sockets h' = sockets h →
  (∀ uid, room_members ("user:" +:+ uid) h'
          ⊆ room_members ("user:" +:+ uid) h) →
  user_rooms_private h → user_rooms_private h'.
Proof.
  intros Hsock Hrooms Hpriv uid sid Hin. rewrite Hsock.
  apply Hpriv. by apply Hrooms.
Qed.

Lemma household_joins_topology (sid uid : string) (hs : list HouseholdInfo)
    (w : World) :
  let w' := foldl (λ w' household,
                     join sid ("household:" +:+ hi_id household) w') w hs in
  room_members ("user:" +:+ uid) (hub w')
  = room_members ("user:" +:+ uid) (hub w).
Proof.
  revert w. induction hs as [|h hs IH]; intros w; [done|].
  cbn [foldl]. cbv zeta in IH. rewrite IH.
  apply user_room_join, household_room_not_user.
Qed.

Lemma each_subscription_topology (f : string → World → World)
    (subs : list (option Subscription)) (uid : string) (w : World) :
  (∀ r w0, not_a_user_room r →
     sockets (hub (f r w0)) = sockets (hub w0)
     ∧ room_members ("user:" +:+ uid) (hub (f r w0))
       = room_members ("user:" +:+ uid) (hub w0)) →
  sockets (hub (each_subscription f subs w)) = sockets (hub w)
  ∧ room_members ("user:" +:+ uid) (hub (each_subscription f subs w))
    = room_members ("user:" +:+ uid) (hub w).
Proof.
  intros Hf. revert w. induction subs as [|[sub|] subs IH]; intros w;
    cbn [each_subscription]; [done| |done].
  destruct (IH (f (updates_channel sub) w)) as [-> ->].
  apply Hf, updates_channel_not_user.
Qed.

Lemma fire_topology (a : TimerAction) (w : World) :
  sockets (hub (fire a w)) = sockets (hub w)
  ∧ rooms (hub (fire a w)) = rooms (hub w).
Proof. by destruct a. Qed.

Lemma fire_all_topology (due : list Timer) (w : World) :
  let w' := foldl (λ w' tm, fire (t_action tm) w') w due in
  sockets (hub w') = sockets (hub w) ∧ rooms (hub w') = rooms (hub w).
Proof.
  revert w. induction due as [|tm due IH]; intros w; [done|].
  cbn [foldl]. cbv zeta in IH.
  destruct (IH (fire (t_action tm) w)) as [-> ->]. apply fire_topology.
Qed.

Lemma advance_topology (t : Z) (w : World) :
  sockets (hub (advance t w)) = sockets (hub w)
  ∧ rooms (hub (advance t w)) = rooms (hub w).
Proof.
  unfold advance.
  match goal with |- context [foldl ?f ?w0 ?due] =>
    destruct (fire_all_topology due w0) as [H1 H2]
  end.
  cbv zeta in H1, H2. by rewrite H1, H2.
Qed.

Lemma sendRecentMessages_topology (s : Socket) (roomType roomId : string)
    (limit : nat) (w : World) :
  let w' := (run (sendRecentMessages s roomType roomId limit) w).2 in
  sockets (hub w') = sockets (hub w) ∧ rooms (hub w') = rooms (hub w).
Proof.
  unfold sendRecentMessages. rewrite run_try_catch, run_bind, run_await.
  unfold select_recent.
  match goal with |- context [query ?f ?w0] =>
    destruct (query_cases f w0) as [-> | ->] end; [|done].
  by rewrite run_perform.
Qed.

Lemma on_chat_message_topology (s : Socket) (d : ChatData) (w : World) :
  let w' := (run (on_chat_message s d) w).2 in
  sockets (hub w') = sockets (hub w) ∧ rooms (hub w') = rooms (hub w).
Proof.
  unfold on_chat_message. rewrite run_try_catch.
  destruct (ch_message d) as [message|]; [|by rewrite run_perform].
  destruct (bool_decide _ || bool_decide _); [by rewrite run_perform|].
  rewrite run_bind, run_await. unfold insert_chat_message.
  match goal with |- context [query ?f ?w0] =>
    destruct (query_cases f w0) as [-> | ->] end;
    [|by rewrite run_perform].
  cbv zeta. rewrite run_bind, run_perform.
  match goal with |- context [run (sendChatNotifications ?a ?b ?c) ?w0] =>
    destruct (sendChatNotifications_run a b c w0) as (w2 & -> & Hhub & _)
  end.
  cbn [fst snd]. by rewrite Hhub.
Qed.

Lemma on_collab_edit_topology (s : Socket) (d : EditData) (w : World) :
  let w' := (run (on_collab_edit s d) w).2 in
  sockets (hub w') = sockets (hub w) ∧ rooms (hub w') = rooms (hub w).
Proof.
  unfold on_collab_edit. rewrite run_try_catch.
  destruct (ed_operation d) as [operation|]; [|by rewrite run_perform].
  destruct (bool_decide _); [|by rewrite run_perform].
  rewrite run_bind, run_perform, run_await. unfold insert_activity_log.
  match goal with |- context [query ?f ?w0] =>
    destruct (query_cases f w0) as [-> | ->] end;
    [done|by rewrite run_perform].
Qed.

Lemma on_notification_mark_read_topology (s : Socket)
    (notificationId : option string) (w : World) :
  let w' := (run (on_notification_mark_read s notificationId) w).2 in
  sockets (hub w') = sockets (hub w) ∧ rooms (hub w') = rooms (hub w).
Proof.
  unfold on_notification_mark_read.
  rewrite run_try_catch, run_bind, run_await.
  unfold mark_notification_read. destruct notificationId as [n|]; [|done].
  match goal with |- context [query ?f ?w0] =>
    destruct (query_cases f w0) as [-> | ->] end; [|done].
  by rewrite run_perform.
Qed.

Lemma room_members_same_rooms (room : string) (h h' : Hub) :
  rooms h' = rooms h → room_members room h' = room_members room h.
Proof. unfold room_members. by intros ->. Qed.

Lemma connect_private (verify : string → option string) (sid : string)
    (hs : Handshake) (w : World) :
  sid_fresh sid (hub w) →
  user_rooms_private (hub w) →
  user_rooms_private (hub (connect verify sid hs w).2).
Proof.
  intros [Hnew Hrooms] Hpriv. unfold connect.
  pose proof (socket_auth_run verify sid hs w) as (Hhub & _ & _ & Hsid).
  destruct (run (socket_auth verify sid hs) w) as [[[msg|s]|e] w1];
    simpl in Hhub, Hsid; cbn [snd]; try by rewrite Hhub.
  specialize (Hsid s eq_refl). subst sid.
  intros uid sid Hin. unfold on_connection in Hin |- *.
  cbn [hub subscribe emit set_hub emit_hub rooms sockets] in Hin |- *.
  change (sid ∈ room_members ("user:" +:+ uid)
            (hub (foldl (λ w' household,
                           join (sock_id s) ("household:" +:+ hi_id household) w')
                        (join (sock_id s) ("user:" +:+ su_id (sock_user s))
                              (register_socket s w1))
                        (su_households (sock_user s))))) in Hin.
  rewrite (household_joins_topology (sock_id s) uid) in Hin.
  rewrite room_members_join in Hin.
  destruct (joins_keep_log (sock_id s) (su_households (sock_user s))
              (join (sock_id s) ("user:" +:+ su_id (sock_user s))
                    (register_socket s w1))) as (_ & Hsock & _).
  cbv zeta in Hsock.
  change (∃ s0, sockets (hub (foldl (λ w' household,
                           join (sock_id s) ("household:" +:+ hi_id household) w')
                        (join (sock_id s) ("user:" +:+ su_id (sock_user s))
                              (register_socket s w1))
                        (su_households (sock_user s)))) !! sid = Some s0
                ∧ su_id (sock_user s0) = uid).
  rewrite Hsock. cbn [join register_socket set_hub hub sockets].
  rewrite Hhub.
  assert (room_members ("user:" +:+ su_id (sock_user s))
            (hub (register_socket s w1))
          = room_members ("user:" +:+ su_id (sock_user s)) (hub w)) as Hsame.
  { apply room_members_same_rooms. simpl. by rewrite Hhub. }
  assert (room_members ("user:" +:+ uid) (hub (register_socket s w1))
          = room_members ("user:" +:+ uid) (hub w)) as Hsame'.
  { apply room_members_same_rooms. simpl. by rewrite Hhub. }
  rewrite Hsame, Hsame' in Hin.
  assert (sid ∈ room_members ("user:" +:+ uid) (hub w) →
          ∃ s0, <[sock_id s := s]> (sockets (hub w)) !! sid = Some s0
                ∧ su_id (sock_user s0) = uid) as Hold.
  { intros Hin'. destruct (Hpriv uid sid Hin') as (s0 & Hs0 & Hu).
    exists s0. split; [|done]. rewrite lookup_insert_ne; [done|].
    intros <-. by apply (Hrooms ("user:" +:+ uid)). }
  case_decide as Heq.
  - apply elem_of_union in Hin as [Hin%elem_of_singleton | Hin].
    + subst sid. exists s. split; [apply lookup_insert_eq|].
      by simplify_eq.
    + apply Hold. by rewrite Heq.
  - by apply Hold.
Qed.

Lemma disconnect_private (s : Socket) (w : World) :
  user_rooms_private (hub w) → user_rooms_private (hub (disconnect s w)).
Proof.
  intros Hpriv uid sid Hin.
  unfold disconnect, on_disconnect in Hin |- *.
  cbn [hub unsubscribe emit set_hub emit_hub rooms sockets] in Hin |- *.
  change (sid ∈ room_members ("user:" +:+ uid) (hub (cleanup (sock_id s) w)))
    in Hin.
  rewrite room_members_cleanup in Hin.
  apply elem_of_difference in Hin as [Hin Hne].
  destruct (Hpriv uid sid Hin) as (s0 & Hs0 & Hu).
  exists s0. split; [|done]. cbn [cleanup set_hub hub sockets].
  rewrite lookup_delete_ne; [done|]. intros <-. set_solver.
Qed.

Lemma hub_step_private (w w' : World) :
  hub_step w w' →
  user_rooms_private (hub w) →
  user_rooms_private (hub w').
Proof.
  intros Hstep Hpriv. destruct Hstep.
  - by apply connect_private.
  - by apply disconnect_private.
  - revert Hpriv. apply private_mono.
    + unfold on_collab_join. repeat case_match; reflexivity.
    + intros uid. unfold on_collab_join. repeat case_match; try done.
      cbn [hub emit set_hub emit_hub rooms sockets].
      change (room_members ("user:" +:+ uid)
                (hub (join (sock_id s) (collab_room d) w))
              ⊆ room_members ("user:" +:+ uid) (hub w)).
      by rewrite user_room_join by apply collab_room_not_user.
  - revert Hpriv. apply private_mono; [reflexivity|].
    intros uid. unfold on_collab_leave.
    change (room_members ("user:" +:+ uid)
              (hub (leave (sock_id s) (collab_room d) w))
            ⊆ room_members ("user:" +:+ uid) (hub w)).
    by rewrite user_room_leave by apply collab_room_not_user.
  - revert Hpriv. by apply private_mono.
  - revert Hpriv. unfold on_chat_join. rewrite run_bind, run_perform.
    destruct (sendRecentMessages_topology s (ch_roomType d) (ch_roomId d) 50
                (join (sock_id s) (chat_room (ch_roomType d) (ch_roomId d)) w))
      as [Hsock Hrooms].
    cbv zeta in Hsock, Hrooms. apply private_mono; [by rewrite Hsock|].
    intros uid. rewrite (room_members_same_rooms _ _ _ Hrooms).
    by rewrite user_room_join by apply chat_room_not_user.
  - revert Hpriv.
    destruct (on_chat_message_topology s d w) as [Hsock Hrooms].
    cbv zeta in Hsock, Hrooms. apply private_mono; [done|].
    intros uid. by rewrite (room_members_same_rooms _ _ _ Hrooms).
  - revert Hpriv. destruct subs as [subs|]; [|done]. cbn [on_data_subscribe].
    apply private_mono.
    + apply (each_subscription_topology _ subs ""). intros r w0 Hr.
      split; [done|]. by apply user_room_join.
    + intros uid.
      destruct (each_subscription_topology (join (sock_id s)) subs uid w)
        as [_ ->]; [|done].
      intros r w0 Hr. split; [done|]. by apply user_room_join.
  - revert Hpriv. destruct subs as [subs|]; [|done].
    cbn [on_data_unsubscribe]. apply private_mono.
    + apply (each_subscription_topology _ subs ""). intros r w0 Hr.
      split; [done|]. by apply user_room_leave.
    + intros uid.
      destruct (each_subscription_topology (leave (sock_id s)) subs uid w)
        as [_ ->]; [|done].
      intros r w0 Hr. split; [done|]. by apply user_room_leave.
  - revert Hpriv.
    destruct (on_collab_edit_topology s d w) as [Hsock Hrooms].
    cbv zeta in Hsock, Hrooms. apply private_mono; [done|].
    intros uid. by rewrite (room_members_same_rooms _ _ _ Hrooms).
  - revert Hpriv. by apply private_mono.
  - revert Hpriv.
    destruct (on_notification_mark_read_topology s notificationId w)
      as [Hsock Hrooms].
    cbv zeta in Hsock, Hrooms. apply private_mono; [done|].
    intros uid. by rewrite (room_members_same_rooms _ _ _ Hrooms).
  - revert Hpriv. destruct e; by apply private_mono.
  - revert Hpriv. by apply private_mono.
  - revert Hpriv. unfold broadcastUpdate.
    destruct (truthy excludeSocketId); by apply private_mono.
  - revert Hpriv. by apply private_mono.
  - revert Hpriv. destruct (advance_topology t w) as [Hsock Hrooms].
    apply private_mono; [done|].
    intros uid. by rewrite (room_members_same_rooms _ _ _ Hrooms).
  - by rewrite H.
Qed.

(** X23. The rooms [user:<id>] stay private, so a notification reaches
    only its user.  Start from a hub in which every socket in every room
    [user:<id>] is a connected socket of user [id] (an empty hub is one).
    After any sequence of server steps that is still so: no event lets a
    client enter another user's room.  The steps are: accepting or refusing
    a connection with an unused socket id; a disconnect; each of the events
    [collab:join], [collab:leave], [collab:edit], [collab:highlight],
    [chat:join], [chat:message], [chat:typing], [data:subscribe],
    [data:unsubscribe] and [notification:mark-read], with any payload or
    with none; a notification; a message on a user's channel; a broadcast
    update; timers firing; work that leaves the hub alone.  Hence
    [sendUserNotification] adds one emission whose recipients are the
    sockets of room [user:<id>], each a connected socket of that user, and
    the inbox of a socket of any other user is unchanged. *)
Theorem user_rooms_stay_private (w0 w : World) (uid payload : string) :
  rtc hub_step w0 w →
  user_rooms_private (hub w0) →
  let w' := sendUserNotification uid payload w in
  user_rooms_private (hub w)
  ∧ (∃ to, emitted (hub w')
           = emitted (hub w)
             ++ [mkEmission (ToRoom ("user:" +:+ uid)) (notification payload)
                            to]
      ∧ (∀ sid, sid ∈ to ↔ sid ∈ room_members ("user:" +:+ uid) (hub w))
      ∧ (∀ sid, sid ∈ to →
           ∃ s, sockets (hub w) !! sid = Some s ∧ su_id (sock_user s) = uid))
  ∧ (∀ sid s, sockets (hub w) !! sid = Some s → su_id (sock_user s) ≠ uid →
       inbox sid (emitted (hub w')) = inbox sid (emitted (hub w))).
Proof.
  intros Hsteps Hpriv0 w'.
  assert (user_rooms_private (hub w)) as Hpriv.
  { induction Hsteps as [|w1 w2 w3 Hstep _ IH]; [done|].
    apply IH. by apply (hub_step_private w1). }
  split; [done|]. split.
  - eexists. split; [apply emitted_emit|]. split.
    + intros sid. cbn [recipients]. apply elem_of_elements.
    + intros sid Hin. cbn [recipients] in Hin.
      apply elem_of_elements in Hin. by apply Hpriv.
  - intros sid s Hs Hother. subst w'. unfold sendUserNotification.
    rewrite inbox_room_emit. rewrite decide_False; [by rewrite app_nil_r|].
    intros Hin. destruct (Hpriv uid sid Hin) as (s' & Hs' & Hu).
    congruence.
Qed.

Lemma user_rooms_stay_private_witness :
  let w1 := (connect sample_verify "s1" (token_of "u1") (household_with 4)).2 in
  let w2 := (run (on_collab_edit (session_of_u1 "s1")
                    (mkEditData (Some "budget") (Some "b1") (Some "update")
                                None)) w1).2 in
  let w := on_null_payload (session_of_u1 "s1") ChatMessage w2 in
  ∃ to, emitted (hub (sendUserNotification "u1" "hello" w))
        = emitted (hub w)
          ++ [mkEmission (ToRoom "user:u1") (notification "hello") to]
        ∧ ("s1" ∈ to ↔ "s1" ∈ room_members "user:u1" (hub w)).
Proof.
  intros w1 w2 w.
  destruct (user_rooms_stay_private (household_with 4) w "u1" "hello")
    as (_ & (to & Hlog & Hto & _) & _).
  - apply (rtc_l _ _ w1).
    { apply hub_connect. split; [set_solver|].
      intros room. unfold room_members. simpl. rewrite lookup_empty.
      set_solver. }
    apply (rtc_l _ _ w2); [apply hub_collab_edit|].
    apply rtc_once. apply hub_null_payload.
  - intros uid sid Hin. unfold room_members in Hin. simpl in Hin.
    rewrite lookup_empty in Hin. set_solver.
  - exists to. split; [exact Hlog | apply Hto].
Defined.

(** ** The rooms of a connection *)

Lemma household_joins_rooms (sid : string) (hs : list HouseholdInfo)
    (w : World) (room x : string) :
  let w' := foldl (λ w' household,
                     join sid ("household:" +:+ hi_id household) w') w hs in
  x ∈ room_members room (hub w')
  ↔ x ∈ room_members room (hub w)
    ∨ (x = sid ∧ ∃ h, h ∈ hs ∧ room = "household:" +:+ hi_id h).
Proof.
  revert w. induction hs as [|h hs IH]; intros w; cbn [foldl].
  - split; [by left|]. intros [?|(_ & h & Hh & _)]; [done|].
    by apply elem_of_nil in Hh.
  - cbv zeta in IH. rewrite IH, room_members_join. split.
    + intros [Hin | (-> & h' & Hh' & ->)].
      * case_decide as Hr; [|by left]. subst room.
        apply elem_of_union in Hin as [->%elem_of_singleton | Hin];
          [|by left].
        right. split; [done|]. exists h. split; [by left|done].
      * right. split; [done|]. exists h'. split; [by right|done].
    + intros [Hin | (-> & h' & Hh' & ->)].
      * left. case_decide as Hr; [|done]. subst room. set_solver.
      * apply elem_of_cons in Hh' as [-> | Hh'].
        -- left. rewrite decide_True by done. set_solver.
        -- right. split; [done|]. by exists h'.
Qed.

Lemma on_connection_rooms (s : Socket) (w : World) (room x : string) :
  x ∈ room_members room (hub (on_connection s w))
  ↔ x ∈ room_members room (hub w)
    ∨ (x = sock_id s
       ∧ (room = "user:" +:+ su_id (sock_user s)
          ∨ ∃ h, h ∈ su_households (sock_user s)
                 ∧ room = "household:" +:+ hi_id h)).
Proof.
  unfold on_connection.
  cbn [hub subscribe emit set_hub emit_hub rooms sockets].
  change (x ∈ room_members room
            (hub (foldl (λ w' household,
                           join (sock_id s) ("household:" +:+ hi_id household) w')
                        (join (sock_id s) ("user:" +:+ su_id (sock_user s)) w)
                        (su_households (sock_user s))))
          ↔ x ∈ room_members room (hub w)
            ∨ (x = sock_id s
               ∧ (room = "user:" +:+ su_id (sock_user s)
                  ∨ ∃ h, h ∈ su_households (sock_user s)
                         ∧ room = "household:" +:+ hi_id h))).
  rewrite household_joins_rooms, room_members_join.
  case_decide as Hr.
  - subst room. rewrite elem_of_union, elem_of_singleton. naive_solver.
  - naive_solver.
Qed.

Lemma elem_of_adapter_room (x room : string) (h : Hub) :
  x ∈ adapter_room room h
  ↔ x ∈ room_members room h ∨ (x = room ∧ room ∈ dom (sockets h)).
Proof.
  unfold adapter_room. rewrite elem_of_union.
  destruct (decide (room ∈ dom (sockets h))) as [Hin|Hout].
  - rewrite elem_of_singleton. naive_solver.
  - rewrite elem_of_empty. naive_solver.
Qed.

(** X24. The rooms of a connection.  Socket.IO keeps every connected socket
    in the room named by its own id; the other rooms are those the handlers
    join.  A connection that is let in with an unused socket id is
    registered under that id and sits in exactly these rooms of the
    adapter: the room of its own id, the room [user:<its user>] and the
    rooms [household:<h>] of the households of its session; the rooms of
    all other sockets are as before, and the user's channel is subscribed.
    Once it disconnects, at whatever later moment, it is in no room of the
    adapter at all and is no longer registered, whatever rooms it had
    joined in between. *)
Theorem connection_sits_in_its_own_rooms
    (verify : string → option string) (sid : string) (hs : Handshake)
    (w w' : World) (s : Socket) :
  sid_fresh sid (hub w) →
  connect verify sid hs w = (Some s, w') →
  sockets (hub w') !! sid = Some s
  ∧ (∀ room, sid ∈ adapter_room room (hub w')
             ↔ room = sid
               ∨ room = "user:" +:+ su_id (sock_user s)
               ∨ ∃ h, h ∈ su_households (sock_user s)
                      ∧ room = "household:" +:+ hi_id h)
  ∧ (∀ room x, x ≠ sid →
       x ∈ adapter_room room (hub w') ↔ x ∈ adapter_room room (hub w))
  ∧ "user:" +:+ su_id (sock_user s) ∈ subscribed (hub w')
  ∧ ∀ w'' room,
      (sid ∉ adapter_room room (hub (disconnect s w'')))
      ∧ sockets (hub (disconnect s w'')) !! sid = None.
Proof.
  intros [Hnew Hrooms] Hconnect.
  pose proof (connect_success _ _ _ _ _ _ Hconnect) as (Hsid & _ & Hsock).
  unfold connect in Hconnect.
  pose proof (socket_auth_run verify sid hs w) as (Hhub & _ & _ & _).
  destruct (run (socket_auth verify sid hs) w) as [[[msg|s0]|e] w1];
    try discriminate.
  injection Hconnect as -> <-. cbn [snd] in Hhub.
  assert (∀ room x, x ∈ room_members room (hub (register_socket s w1))
                    ↔ x ∈ room_members room (hub w)) as Hreg.
  { intros room x.
    rewrite (room_members_same_rooms room (hub w)
               (hub (register_socket s w1))); [done|].
    simpl. by rewrite Hhub. }
  split_and!.
  - rewrite Hsock. apply lookup_insert_eq.
  - intros room. rewrite elem_of_adapter_room, Hsock, dom_insert_L.
    rewrite on_connection_rooms, Hreg, Hsid. split.
    + intros [[Hin | [_ Hroom]] | [-> _]]; [|by right|by left].
      by destruct (Hrooms room).
    + intros [-> | Hroom].
      * right. split; [done|]. set_solver.
      * left. right. by split.
  - intros room x Hx.
    rewrite !elem_of_adapter_room, Hsock, dom_insert_L.
    rewrite on_connection_rooms, Hreg, Hsid. split.
    + intros [[Hin | [-> _]] | [-> Hin]]; [by left|done|].
      right. split; [done|]. set_solver.
    + intros [Hin | [-> Hin]]; [by left; left|].
      right. split; [done|]. set_solver.
  - unfold on_connection.
    cbn [hub subscribe emit set_hub emit_hub subscribed].
    apply elem_of_app. right. by left.
  - intros w'' room.
    destruct (disconnect_log s w'') as [_ Hgone]. split.
    + rewrite elem_of_adapter_room, Hgone, dom_delete_L.
      intros [Hin | [Heq Hin]]; [|rewrite <- Heq, Hsid in Hin; set_solver].
      revert Hin. unfold disconnect, on_disconnect.
      cbn [hub unsubscribe emit set_hub emit_hub rooms sockets].
      change (sid ∉ room_members room (hub (cleanup (sock_id s) w''))).
      rewrite room_members_cleanup, Hsid. set_solver.
    + rewrite Hgone, Hsid. apply lookup_delete_eq.
Qed.

Lemma connection_sits_in_its_own_rooms_witness :
  let w' := (connect sample_verify "s1" (token_of "u1") (household_with 4)).2 in
  "s1" ∈ adapter_room "household:h1" (hub w')
  ↔ "household:h1" = "s1"
    ∨ "household:h1" = "user:" +:+ su_id (sock_user (session_of_u1 "s1"))
    ∨ ∃ h, h ∈ su_households (sock_user (session_of_u1 "s1"))
           ∧ "household:h1" = "household:" +:+ hi_id h.
Proof.
  intros w'.
  destruct (connection_sits_in_its_own_rooms sample_verify "s1"
              (token_of "u1") (household_with 4) w' (session_of_u1 "s1"))
    as (_ & Hrooms & _).
  - split; [set_solver|].
    intros room. unfold room_members. simpl. rewrite lookup_empty. set_solver.
  - vm_compute. reflexivity.
  - apply Hrooms.
Defined.


(** ** Joining and leaving a collaboration room *)

Lemma join_leave_rooms (sid room : string) (w : World) :
  sid ∉ room_members room (hub w) →
  rooms (hub w) !! room ≠ Some ∅ →
  rooms (hub (leave sid room (join sid room w))) = rooms (hub w).
Proof.
  intros Hout Hnonempty. unfold leave, leave_hub.
  cbn [set_hub hub rooms].
  rewrite room_members_join, (decide_True (P := room = room)) by done.
  replace (({[sid]} ∪ room_members room (hub w)) ∖ {[sid]})
    with (room_members room (hub w)) by set_solver.
  unfold join. cbn [set_hub hub rooms].
  destruct (rooms (hub w) !! room) as [S|] eqn:Hroom.
  - assert (room_members room (hub w) = S) as ->
      by (unfold room_members; by rewrite Hroom).
    rewrite decide_False by (by intros ->).
    rewrite insert_insert_eq. by apply insert_id.
  - assert (room_members room (hub w) = ∅) as ->
      by (unfold room_members; by rewrite Hroom).
    rewrite decide_True by done.
    rewrite delete_insert_eq. by apply delete_id.
Qed.

(** X25. Joining a collaboration room and leaving it again.  A connected
    socket that names a document (and, if it names a household, has access
    to it), was not in the document's room, joins it and then leaves it:
    after the join it is in the room and in the collaborators list it is
    sent; after the leave the rooms are exactly what they were before; and
    the log has grown by three emissions, the arrival told to the sockets
    that were in the room, the collaborators list sent to the joiner alone,
    and the departure told to the same sockets as the arrival. *)
Theorem collab_join_then_leave_restores_rooms
    (s : Socket) (d : CollabData) (w : World) :
  truthy (cd_documentType d) = true →
  truthy (cd_documentId d) = true →
  (truthy (cd_householdId d) = true →
   hasAccess s (default "" (cd_householdId d)) = true) →
  sockets (hub w) !! sock_id s = Some s →
  sock_id s ∉ room_members (collab_room d) (hub w) →
  rooms (hub w) !! collab_room d ≠ Some ∅ →
  let room := collab_room d in
  let others := elements (room_members room (hub w)) in
  let w1 := on_collab_join s d w in
  let w2 := on_collab_leave s d w1 in
  sock_id s ∈ room_members room (hub w1)
  ∧ userInfo (sock_user s) ∈ collaborators_of room (hub w1)
  ∧ rooms (hub w2) = rooms (hub w)
  ∧ sockets (hub w2) = sockets (hub w)
  ∧ emitted (hub w2)
    = emitted (hub w)
      ++ [mkEmission (ToRoomExcept room (sock_id s))
            (collab_user_joined (userInfo (sock_user s)) (clock w)) others;
          mkEmission (ToSocket (sock_id s))
            (collab_collaborators (tmpl (cd_documentType d))
               (tmpl (cd_documentId d)) (collaborators_of room (hub w1)))
            [sock_id s];
          mkEmission (ToRoomExcept room (sock_id s))
            (collab_user_left (su_id (sock_user s))
               (su_username (sock_user s)) (clock w)) others].
Proof.
  intros Htype Hid Haccess Hreg Hout Hnonempty room others w1 w2.
  assert (w1 = emit (ToSocket (sock_id s))
                 (collab_collaborators (tmpl (cd_documentType d))
                    (tmpl (cd_documentId d))
                    (collaborators_of room (hub (join (sock_id s) room w))))
                 (emit (ToRoomExcept room (sock_id s))
                    (collab_user_joined (userInfo (sock_user s)) (clock w))
                    (join (sock_id s) room w))) as Hw1.
  { subst w1. unfold on_collab_join. rewrite Htype, Hid. cbn [negb orb].
    destruct (truthy (cd_householdId d)); cbn [andb]; [|done].
    by rewrite Haccess. }
  assert (room_members room (hub w1)
          = {[sock_id s]} ∪ room_members room (hub w)) as Hroom1.
  { rewrite Hw1. cbn [emit set_hub emit_hub hub rooms].
    change (room_members room (hub (join (sock_id s) room w))
            = {[sock_id s]} ∪ room_members room (hub w)).
    by rewrite room_members_join, decide_True. }
  assert (collaborators_of room (hub w1)
          = collaborators_of room (hub (join (sock_id s) room w))) as Hcoll.
  { by rewrite Hw1. }
  assert (({[sock_id s]} ∪ room_members room (hub w)) ∖ {[sock_id s]}
          = room_members room (hub w)) as Hothers by set_solver.
  split_and!.
  - rewrite Hroom1. set_solver.
  - unfold collaborators_of. apply list_elem_of_omap.
    exists (sock_id s). split.
    + apply elem_of_elements. rewrite Hroom1. set_solver.
    + rewrite Hw1. cbn [emit set_hub emit_hub hub sockets join].
      by rewrite Hreg.
  - subst w2. unfold on_collab_leave.
    cbn [emit set_hub emit_hub hub rooms]. fold room.
    rewrite Hw1.
    change (rooms (hub (leave (sock_id s) room (join (sock_id s) room w)))
            = rooms (hub w)).
    by apply join_leave_rooms.
  - subst w2. by rewrite Hw1.
  - subst w2. unfold on_collab_leave. fold room.
    rewrite emitted_emit.
    change (emitted (hub (leave (sock_id s) room w1))) with (emitted (hub w1)).
    change (clock (leave (sock_id s) room w1)) with (clock w1).
    rewrite Hcoll.
    assert (clock w1 = clock w) as -> by by rewrite Hw1.
    assert (recipients (hub (leave (sock_id s) room w1))
              (ToRoomExcept room (sock_id s)) = others) as ->.
    { cbn [recipients]. rewrite room_members_leave, decide_True by done.
      rewrite Hroom1. subst others. f_equal. set_solver. }
    rewrite Hw1, !emitted_emit.
    change (emitted (hub (join (sock_id s) room w))) with (emitted (hub w)).
    rewrite <- !app_assoc. cbn [app]. do 2 f_equal.
    + f_equal. cbn [recipients].
      rewrite room_members_join, decide_True by done.
      subst others. by rewrite Hothers.
    + f_equal. f_equal. cbn [recipients emit set_hub emit_hub hub sockets join].
      rewrite decide_True; [done|]. apply elem_of_dom. by rewrite Hreg.
Qed.

Lemma collab_join_then_leave_restores_rooms_witness :
  let w1 := on_collab_join insider highlight_row3 insider_world in
  rooms (hub (on_collab_leave insider highlight_row3 w1))
  = rooms (hub insider_world).
Proof.
  intros w1.
  refine (proj1 (proj2 (proj2 (collab_join_then_leave_restores_rooms insider
            highlight_row3 insider_world _ _ _ _ _ _)))).
  - reflexivity.
  - reflexivity.
  - discriminate.
  - vm_compute. reflexivity.
  - unfold room_members. simpl. rewrite lookup_empty. set_solver.
  - simpl. rewrite lookup_empty. discriminate.
Defined.

(** ** Blank chat messages *)

Lemma trimStart_blank (s : string) : blank s = true → trimStart s = "".
Proof.
  induction s as [|c s IH]; [done|]. cbn [blank trimStart].
  intros [Hc Hs]%andb_true_iff. rewrite Hc. by apply IH.
Qed.

Lemma trimStart_empty (s : string) : trimStart s = "" → blank s = true.
Proof.
  induction s as [|c s IH]; [done|]. cbn [blank trimStart].
  destruct (is_js_space c); [|discriminate]. by apply IH.
Qed.

Lemma blank_rev_app (a b : string) :
  blank (String.rev_app a b) = blank a && blank b.
Proof.
  revert b. induction a as [|c a IH]; intros b; [done|].
  cbn [String.rev_app]. rewrite IH. cbn [blank].
  by destruct (is_js_space c), (blank a), (blank b).
Qed.

Lemma rev_app_empty (a b : string) :
  String.rev_app a b = "" → a = "" ∧ b = "".
Proof.
  revert b. induction a as [|c a IH]; intros b; [done|].
  cbn [String.rev_app]. intros [_ Hb]%IH. discriminate Hb.
Qed.

Lemma blank_trimStart (s : string) : blank (trimStart s) = blank s.
Proof.
  induction s as [|c s IH]; [done|]. cbn [blank trimStart].
  destruct (is_js_space c) eqn:Hc; [done|]. cbn [blank]. by rewrite Hc.
Qed.

Lemma trim_blank (s : string) : trim s = "" ↔ blank s = true.
Proof.
  unfold trim, String.rev. split.
  - intros [Ht _]%rev_app_empty. apply trimStart_empty in Ht.
    rewrite blank_rev_app, andb_true_r in Ht.
    by rewrite blank_trimStart in Ht.
  - intros Hs. by rewrite (trimStart_blank s Hs).
Qed.

Lemma on_chat_message_sent (s : Socket) (d : ChatData) (w : World)
    (message : string) :
  ch_message d = Some message →
  trim message ≠ "" →
  let room := chat_room (ch_roomType d) (ch_roomId d) in
  let w' := (run (on_chat_message s d) w).2 in
  faults (step (on_chat_message s d) w).2 = tail (faults w)
  ∧ (store_up 1 w = true →
     chat_messages (db w')
     = chat_messages (db w)
       ++ [mkChat (uuid_of (next_uuid w)) (ch_roomType d) (ch_roomId d)
                  (su_id (sock_user s)) (trim message)
                  (ch_parentMessageId d) (clock w)]
     ∧ emitted (hub w')
       = emitted (hub w)
         ++ [mkEmission (ToRoom room)
               (chat_message
                  (mkMessageData (uuid_of (next_uuid w)) (ch_roomType d)
                     (ch_roomId d)
                     (mkUserInfo (su_id (sock_user s))
                        (su_username (sock_user s))
                        (su_firstName (sock_user s))
                        (su_lastName (sock_user s)))
                     (trim message) (ch_parentMessageId d) (clock w)))
               (elements (room_members room (hub w)))])
  ∧ (store_up 1 w = false →
     chat_messages (db w') = chat_messages (db w)
     ∧ emitted (hub w')
       = emitted (hub w)
         ++ [mkEmission (ToSocket (sock_id s))
               (error_event "Failed to send message")
               (if decide (sock_id s ∈ dom (sockets (hub w)))
                then [sock_id s] else [])]).
Proof.
  intros Hmsg Htrim room w'.
  assert (message ≠ "") as Hne by by apply trim_nonempty.
  subst w'. unfold on_chat_message. rewrite Hmsg.
  rewrite (bool_decide_eq_false_2 (message = "")) by done.
  rewrite (bool_decide_eq_false_2 (trim message = "")) by done.
  cbn [orb]. split; [|split].
  - cbn [step try_catch prog_bind mbind Prog_bind await fst snd].
    unfold insert_chat_message.
    match goal with |- context [query ?f w] =>
      destruct (store_up 1 w) eqn:Hup;
        [rewrite (query_up f w Hup) | rewrite (query_down f w Hup)]
    end; reflexivity.
  - intros Hup. rewrite run_try_catch, run_bind, run_await.
    unfold insert_chat_message. rewrite query_up by done.
    rewrite run_bind, run_perform.
    match goal with |- context [run (sendChatNotifications ?a ?b ?c) ?w0] =>
      destruct (sendChatNotifications_run a b c w0) as (w2 & -> & Hhub & Hdb)
    end.
    cbn [fst snd]. rewrite Hhub, Hdb. done.
  - intros Hdown. rewrite run_try_catch, run_bind, run_await.
    unfold insert_chat_message. rewrite query_down by done.
    rewrite run_perform. done.
Qed.

(** X26. Which chat messages are refused as empty.  White space is what
    [trim] removes from a string of bytes: tab, line feed, vertical tab,
    form feed, carriage return, space and no-break space.  A [chat:message]
    whose text is missing or is white space only is answered with the error
    "Message cannot be empty", sent to the sender alone: nothing is stored,
    nobody else is told, no round-trip is made.  A text with any other
    character is never answered that way.  The handler's first step is then
    a round-trip to the store.  If the insert is accepted, the row with the
    trimmed text is added to [chat_messages] and the one emission is the
    message, with the sender's id and names, to the sockets of the room.
    If it is rejected, nothing is stored and the one emission is "Failed to
    send message" to the sender. *)
Theorem blank_chat_messages_are_refused
    (s : Socket) (d : ChatData) (w : World) :
  let room := "chat:" +:+ ch_roomType d +:+ ":" +:+ ch_roomId d in
  let w' := (run (on_chat_message s d) w).2 in
  (blank_message d = true →
   run (on_chat_message s d) w
   = (Resolved (),
      emit (ToSocket (sock_id s)) (error_event "Message cannot be empty") w))
  ∧ (blank_message d = false →
     (∀ to, emitted (hub w')
            ≠ emitted (hub w)
              ++ [mkEmission (ToSocket (sock_id s))
                    (error_event "Message cannot be empty") to])
     ∧ faults (step (on_chat_message s d) w).2 = tail (faults w)
     ∧ ∃ message,
         ch_message d = Some message
         ∧ (store_up 1 w = true →
            chat_messages (db w')
            = chat_messages (db w)
              ++ [mkChat (uuid_of (next_uuid w)) (ch_roomType d)
                    (ch_roomId d) (su_id (sock_user s)) (trim message)
                    (ch_parentMessageId d) (clock w)]
            ∧ emitted (hub w')
              = emitted (hub w)
                ++ [mkEmission (ToRoom room)
                      (chat_message
                         (mkMessageData (uuid_of (next_uuid w))
                            (ch_roomType d) (ch_roomId d)
                            (mkUserInfo (su_id (sock_user s))
                               (su_username (sock_user s))
                               (su_firstName (sock_user s))
                               (su_lastName (sock_user s)))
                            (trim message) (ch_parentMessageId d) (clock w)))
                      (elements (room_members room (hub w)))])
         ∧ (store_up 1 w = false →
            chat_messages (db w') = chat_messages (db w)
            ∧ emitted (hub w')
              = emitted (hub w)
                ++ [mkEmission (ToSocket (sock_id s))
                      (error_event "Failed to send message")
                      (if decide (sock_id s ∈ dom (sockets (hub w)))
                       then [sock_id s] else [])])).
Proof.
  intros room w'. unfold blank_message. split.
  - intros Hblank. unfold on_chat_message. rewrite run_try_catch.
    destruct (ch_message d) as [message|]; [|by rewrite run_perform].
    apply trim_blank in Hblank. rewrite (bool_decide_eq_true_2 _ Hblank).
    rewrite orb_true_r. by rewrite run_perform.
  - destruct (ch_message d) as [message|] eqn:Hmsg; [|discriminate].
    intros Hblank.
    assert (trim message ≠ "") as Htrim.
    { intros Ht%trim_blank. congruence. }
    destruct (on_chat_message_sent s d w message Hmsg Htrim)
      as (Hstep & Hup & Hdown).
    split; [|split; [exact Hstep|]].
    + intros to Heq. fold w' in Hup, Hdown.
      destruct (store_up 1 w).
      * destruct (Hup eq_refl) as [_ Hlog]. rewrite Hlog in Heq.
        apply app_inv_head in Heq. discriminate Heq.
      * destruct (Hdown eq_refl) as [_ Hlog]. rewrite Hlog in Heq.
        apply app_inv_head in Heq. discriminate Heq.
    + exists message. split; [done|]. split; [exact Hup|exact Hdown].
Qed.

Lemma blank_chat_messages_are_refused_witness :
  run (on_chat_message insider only_spaces) chat_room_world
  = (Resolved (),
     emit (ToSocket "s0") (error_event "Message cannot be empty")
          chat_room_world).
Proof.
  apply (proj1 (blank_chat_messages_are_refused insider only_spaces
                  chat_room_world)).
  reflexivity.
Defined.

(** ** Sessions and removals *)

Lemma remove_handler_run (userId : string) (req : Request) (w : World)
    (hid : string) (admin : UserRow) (m : MemberRow) :
  params_householdId req = Some hid →
  req_user req = Some admin →
  userId ≠ u_id admin →
  find_active_member userId hid (db w) = Some m →
  store_up 2 w = true →
  run (remove_handler userId req) w
  = (Resolved (mkResponse 200
       [("message", JStr "User removed from household successfully")]),
     set_db (set_members
       (update_where (λ x, m_id x = m_id m) (deactivate (clock w))))
       (served (served w))).
Proof.
  intros Hhid Hadmin Hother Hm Hup.
  apply store_up_S in Hup as [Hup1 Hup].
  apply store_up_S in Hup as [Hup2 _].
  unfold remove_handler. rewrite run_try_catch, Hhid, Hadmin.
  rewrite bool_decide_eq_false_2 by done.
  rewrite run_bind, run_await. unfold first_active_member.
  rewrite query_up by done. rewrite db_served.
  unfold find_active_member in Hm. rewrite Hm.
  rewrite run_bind, run_await. unfold deactivate_member.
  rewrite query_up by done. reflexivity.
Qed.

Lemma NoDup_fmap_eq {A B : Type} (f : A → B) (l : list A) (x y : A) :
  NoDup (f <$> l) → x ∈ l → y ∈ l → f x = f y → x = y.
Proof.
  induction l as [|a l IH]; intros Hnd Hx Hy Hf.
  { by apply elem_of_nil in Hx. }
  rewrite fmap_cons in Hnd. apply NoDup_cons in Hnd as [Ha Hnd].
  apply elem_of_cons in Hx as [-> | Hx];
    apply elem_of_cons in Hy as [-> | Hy]; [done| | |by apply IH].
  - exfalso. apply Ha. rewrite Hf. apply list_elem_of_fmap. eauto.
  - exfalso. apply Ha. rewrite <- Hf. apply list_elem_of_fmap. eauto.
Qed.

Lemma no_active_row_after_removal (uid hid : string) (t : Z) (m : MemberRow)
    (d : Db) :
  member_pairs_unique d →
  find_active_member uid hid d = Some m →
  find_active_member uid hid
    (set_members (update_where (λ x, m_id x = m_id m) (deactivate t)) d)
  = None.
Proof.
  intros Hnd Hm. unfold find_active_member, first_where in Hm |- *.
  apply head_Some_elem_of in Hm.
  apply list_elem_of_filter in Hm as [(Hu & Hh & Ha) Hin].
  cbn [set_members household_members]. rewrite filter_none; [done|].
  intros x Hx (Hxu & Hxh & Hxa).
  apply elem_of_update_where_cases in Hx as [[Hx Hid] | (y & Hy & _ & ->)].
  - apply Hid. f_equal.
    apply (NoDup_fmap_eq (λ m, (m_household_id m, m_user_id m))
             (household_members d)); [done..|].
    cbn. by rewrite Hxu, Hxh, Hu, Hh.
  - discriminate Hxa.
Qed.

(** X27. A removal does not reach the sessions that are already open.  The
    socket handlers decide from the session alone (the household list read
    at connect time) and never go back to the store.  So when an admin
    removes a user from a household (answer 200) while that user has a
    session whose list names the household: the store holds no active
    membership row of the user in the household any more, and a connection
    that user opens from then on has no access to it; yet the open session
    still passes the access check of [collab:join] for that household: it is
    put into the document's room and is sent the collaborators list, not
    "Access denied to this household". *)
Theorem removal_does_not_reach_open_sessions
    (s : Socket) (d : CollabData) (req : Request) (w : World)
    (hid : string) (admin : UserRow) (m : MemberRow) :
  hasAccess s hid = true →
  truthy (cd_documentType d) = true →
  truthy (cd_documentId d) = true →
  cd_householdId d = Some hid →
  params_householdId req = Some hid →
  req_user req = Some admin →
  su_id (sock_user s) ≠ u_id admin →
  find_active_member (su_id (sock_user s)) hid (db w) = Some m →
  member_pairs_unique (db w) →
  store_up 2 w = true →
  let r := run (remove_handler (su_id (sock_user s)) req) w in
  let w' := on_collab_join s d r.2 in
  r.1 = Resolved (mkResponse 200
          [("message", JStr "User removed from household successfully")])
  ∧ find_active_member (su_id (sock_user s)) hid (db r.2) = None
  ∧ (∀ verify sid hs s2,
       (run (socket_auth verify sid hs) r.2).1 = Resolved (inr s2) →
       su_id (sock_user s2) = su_id (sock_user s) →
       hasAccess s2 hid = false)
  ∧ sock_id s ∈ room_members (collab_room d) (hub w')
  ∧ ∃ to1 to2,
      emitted (hub w')
      = emitted (hub w)
        ++ [mkEmission (ToRoomExcept (collab_room d) (sock_id s))
              (collab_user_joined (userInfo (sock_user s)) (clock w)) to1;
            mkEmission (ToSocket (sock_id s))
              (collab_collaborators (tmpl (cd_documentType d))
                 (tmpl (cd_documentId d))
                 (collaborators_of (collab_room d)
                    (hub (join (sock_id s) (collab_room d) w)))) to2].
Proof.
  intros Haccess Htype Hid Hhh Hhid Hadmin Hother Hm Hnd Hup r w'.
  subst w' r.
  rewrite (remove_handler_run _ _ _ _ _ _ Hhid Hadmin Hother Hm Hup).
  cbn [fst snd]. split; [done|].
  assert (find_active_member (su_id (sock_user s)) hid
            (db (set_db (set_members
               (update_where (λ x, m_id x = m_id m) (deactivate (clock w))))
               (served (served w)))) = None) as Hgone.
  { cbn [set_db db served set_faults]. by apply no_active_row_after_removal. }
  split; [done|]. split.
  - intros verify sid hs s2 Hs2 Hsame.
    match type of Hs2 with (run _ ?W).1 = _ =>
      pose proof (socket_auth_session verify sid hs W) as Hsa end.
    cbv zeta in Hsa. destruct Hsa as (_ & _ & _ & Hsound).
    destruct (Hsound s2 Hs2)
      as (token & user & _ & _ & _ & _ & _ & _ & _ & Hu & _ & Hacc).
    apply not_true_is_false. intros Hyes.
    apply Hacc in Hyes as (x & h & Hx & Hxu & Hxa & Hxh & _).
    unfold find_active_member, first_where in Hgone.
    apply head_None in Hgone.
    assert (x ∈ filter (λ m0, m_user_id m0 = su_id (sock_user s)
                              ∧ m_household_id m0 = hid
                              ∧ m_is_active m0 = true)
                  (household_members (db (set_db (set_members
                     (update_where (λ x, m_id x = m_id m)
                        (deactivate (clock w))))
                     (served (served w)))))) as Hmem.
    { apply list_elem_of_filter. split; [|done].
      split_and!; [congruence|done|done]. }
    rewrite Hgone in Hmem. by apply elem_of_nil in Hmem.
  - unfold on_collab_join. rewrite Htype, Hid, Hhh. cbn [negb orb].
    change (default "" (Some hid)) with hid. rewrite Haccess.
    cbn [negb]. rewrite andb_false_r.
    split.
    + cbn [emit set_hub emit_hub hub rooms].
      change (sock_id s ∈ room_members (collab_room d)
                (hub (join (sock_id s) (collab_room d)
                   (set_db (set_members
                      (update_where (λ x, m_id x = m_id m)
                         (deactivate (clock w))))
                      (served (served w)))))).
      rewrite room_members_join, decide_True by done. set_solver.
    + do 2 eexists. rewrite !emitted_emit. rewrite <- app_assoc.
      reflexivity.
Qed.

Lemma removal_does_not_reach_open_sessions_witness :
  let r := run (remove_handler "u1" remove_u1) (household_with 4) in
  find_active_member "u1" "h1" (db r.2) = None
  ∧ "s1" ∈ room_members "collab:budget:b1"
             (hub (on_collab_join (session_of_u1 "s1") budget_in_h1 r.2)).
Proof.
  destruct (removal_does_not_reach_open_sessions (session_of_u1 "s1")
              budget_in_h1 remove_u1 (household_with 4) "h1" (sample_user 0)
              (sample_member 1 true))
    as (_ & Hgone & _ & Hin & _).
  - reflexivity.
  - reflexivity.
  - reflexivity.
  - reflexivity.
  - reflexivity.
  - reflexivity.
  - discriminate.
  - reflexivity.
  - refine (bool_decide_eq_true_1 _ _). vm_compute. reflexivity.
  - reflexivity.
  - split; [exact Hgone | exact Hin].
Defined.

(** ** The local strategy *)

Lemma auth_query_up {T : Type} (f : list Account → T * list Account)
    (st : AuthStore) :
  auth_up st →
  auth_query f st
  = (Some (f (accounts st)).1,
     mkAuthStore (f (accounts st)).2 (tail (auth_faults st)))
  ∧ auth_up (mkAuthStore (f (accounts st)).2 (tail (auth_faults st))).
Proof.
  unfold auth_up, auth_query. intros Hup.
  destruct (auth_faults st) as [|b fs]; cbn [tail].
  - by destruct (f (accounts st)).
  - apply Forall_cons in Hup as [-> Hup]. by destruct (f (accounts st)).
Qed.

Lemma find_account_update (email : string) (Q : Account → Prop)
    `{∀ x, Decision (Q x)} (f : Account → Account) (a : list Account) :
  (∀ u, acc_email (f u) = acc_email u ∧ acc_is_active (f u) = acc_is_active u) →
  find_account email (update_where Q f a)
  = (λ x, if decide (Q x) then f x else x) <$> find_account email a.
Proof.
  intros Hf. unfold find_account, first_where, update_where.
  induction a as [|x a IH]; [done|].
  rewrite fmap_cons, !list.filter_cons.
  assert ((acc_email (if decide (Q x) then f x else x) = toLowerCase email
           ∧ acc_is_active (if decide (Q x) then f x else x) = true)
          ↔ (acc_email x = toLowerCase email ∧ acc_is_active x = true))
    as Hiff.
  { case_decide; [|done]. destruct (Hf x) as [-> ->]. done. }
  destruct (decide (acc_email x = toLowerCase email ∧ acc_is_active x = true))
    as [Hx|Hx].
  - by rewrite decide_True by by apply Hiff.
  - by rewrite decide_False by by rewrite Hiff.
Qed.

Section local_strategy_facts.
Variable compare : string → string → bool.
Variables MAX LOCK : option Z.

Lemma locked_step (email password : string) (now : Z) (st : AuthStore)
    (user : Account) :
  auth_up st →
  find_account email (accounts st) = Some user →
  is_locked user now = true →
  localStrategy compare MAX LOCK email password now st
  = (Refused (Some "Account is temporarily locked due to too many failed attempts"),
     mkAuthStore (accounts st) (tail (auth_faults st))).
Proof.
  intros Hup Hfind Hlocked. unfold localStrategy.
  destruct (auth_query_up (λ a, (find_account email a, a)) st Hup)
    as [-> _].
  cbn [fst snd]. by rewrite Hfind, Hlocked.
Qed.

Lemma failure_step (email password : string) (now : Z) (st : AuthStore)
    (user : Account) :
  auth_up st →
  find_account email (accounts st) = Some user →
  is_locked user now = false →
  compare password (acc_password_hash user) = false →
  let c := num_or (acc_login_attempts user) 0 + 1 in
  let lu := if maxAttempts MAX <=? c
            then Some (now + lockoutDuration LOCK * 60 * 1000) else None in
  ∃ st',
    localStrategy compare MAX LOCK email password now st
    = (match lu with
       | Some _ =>
           Refused (Some
             "Account has been temporarily locked due to too many failed login attempts")
       | None => Refused (Some "Invalid email or password")
       end, st')
    ∧ auth_up st'
    ∧ find_account email (accounts st') = Some (record_failure c lu user).
Proof.
  intros Hup Hfind Hunlocked Hwrong c lu. unfold localStrategy.
  destruct (auth_query_up (λ a, (find_account email a, a)) st Hup)
    as [-> Hup1].
  cbn [fst snd] in *. rewrite Hfind, Hunlocked, Hwrong. cbn [negb].
  fold c. fold lu.
  match goal with |- context [auth_query ?f ?st1] =>
    destruct (auth_query_up f st1 Hup1) as [-> Hup2]
  end.
  cbn [fst snd accounts auth_faults] in *.
  match type of Hup2 with auth_up ?s => exists s end.
  split; [by destruct lu|]. split; [done|].
  cbn [accounts]. rewrite find_account_update by done.
  rewrite Hfind. cbn [fmap option_fmap option_map].
  by rewrite decide_True.
Qed.

Lemma success_step (email password : string) (now : Z) (st : AuthStore)
    (user : Account) :
  auth_up st →
  find_account email (accounts st) = Some user →
  is_locked user now = false →
  compare password (acc_password_hash user) = true →
  ∃ st',
    localStrategy compare MAX LOCK email password now st = (Granted user, st')
    ∧ auth_up st'
    ∧ find_account email (accounts st') = Some (record_success now user).
Proof.
  intros Hup Hfind Hunlocked Hright. unfold localStrategy.
  destruct (auth_query_up (λ a, (find_account email a, a)) st Hup)
    as [-> Hup1].
  cbn [fst snd] in *. rewrite Hfind, Hunlocked, Hright. cbn [negb].
  match goal with |- context [auth_query ?f ?st1] =>
    destruct (auth_query_up f st1 Hup1) as [-> Hup2]
  end.
  cbn [fst snd accounts auth_faults] in *.
  match type of Hup2 with auth_up ?s => exists s end.
  split; [done|]. split; [done|].
  cbn [accounts]. rewrite find_account_update by done.
  rewrite Hfind. cbn [fmap option_fmap option_map].
  by rewrite decide_True.
Qed.

Lemma num_or_Some_0 (n : Z) : num_or (Some n) 0 = n.
Proof. by destruct n. Qed.

Lemma failures_below_threshold (email : string)
    (earlier : list (string * Z)) (st : AuthStore) (user : Account) :
  auth_up st →
  find_account email (accounts st) = Some user →
  Forall (λ try, compare try.1 (acc_password_hash user) = false) earlier →
  (earlier ≠ [] → ∃ try rest, earlier = try :: rest
                              ∧ is_locked user try.2 = false) →
  num_or (acc_login_attempts user) 0 + Z.of_nat (length earlier) < maxAttempts MAX →
  ∃ st' user',
    logins compare MAX LOCK email earlier st
    = (replicate (length earlier) (Refused (Some "Invalid email or password")), st')
    ∧ auth_up st'
    ∧ find_account email (accounts st') = Some user'
    ∧ acc_password_hash user' = acc_password_hash user
    ∧ num_or (acc_login_attempts user') 0
      = num_or (acc_login_attempts user) 0 + Z.of_nat (length earlier)
    ∧ (earlier ≠ [] → acc_locked_until user' = None)
    ∧ (earlier = [] → user' = user).
Proof.
  revert st user. induction earlier as [|[pw t] rest IH];
    intros st user Hup Hfind Hwrong Hunlocked Hbelow.
  - exists st, user. cbn [logins length replicate].
    split_and!; try done. lia.
  - destruct (Hunlocked ltac:(done)) as (try & rest' & [= <- <-] & Hfree).
    apply Forall_cons in Hwrong as [Hpw Hwrong]. cbn [fst snd] in Hpw, Hfree.
    cbn [length] in Hbelow.
    destruct (failure_step email pw t st user Hup Hfind Hfree Hpw)
      as (st1 & Hrun & Hup1 & Hfind1).
    cbv zeta in Hrun, Hfind1.
    rewrite (proj2 (Z.leb_gt _ _)) in Hrun, Hfind1 by lia.
    set (user1 := record_failure (num_or (acc_login_attempts user) 0 + 1)
                    None user) in *.
    destruct (IH st1 user1 Hup1 Hfind1) as
      (st' & user' & Hlogins & Hup' & Hfind' & Hhash & Hcount & Hlock & _).
    + done.
    + intros Hne. destruct rest as [|try' rest'']; [done|].
      exists try', rest''. done.
    + cbn [user1 record_failure acc_login_attempts].
      rewrite num_or_Some_0. lia.
    + exists st', user'. cbn [logins]. rewrite Hrun, Hlogins.
      split_and!; try done.
      * rewrite Hcount. cbn [user1 record_failure acc_login_attempts].
        rewrite num_or_Some_0. cbn [length]. lia.
      * intros _. destruct rest as [|try' rest''].
        -- cbn [logins] in Hlogins. injection Hlogins as <-.
           rewrite Hfind1 in Hfind'. by injection Hfind' as <-.
        -- by apply Hlock.
Qed.
End local_strategy_facts.

Lemma logins_app (compare : string → string → bool) (MAX LOCK : option Z)
    (email : string) (tries1 tries2 : list (string * Z)) (st : AuthStore) :
  logins compare MAX LOCK email (tries1 ++ tries2) st
  = let '(vs1, st1) := logins compare MAX LOCK email tries1 st in
    let '(vs2, st2) := logins compare MAX LOCK email tries2 st1 in
    (vs1 ++ vs2, st2).
Proof.
  revert st. induction tries1 as [|[pw t] tries1 IH]; intros st.
  - cbn [app logins]. by destruct (logins _ _ _ _ tries2 st).
  - cbn [app logins]. destruct (localStrategy _ _ _ _ _ _ st) as [v st1].
    rewrite IH. destruct (logins _ _ _ _ tries1 st1) as [vs1 st2].
    by destruct (logins _ _ _ _ tries2 st2).
Qed.

(** X28. Repeated failures lock the account.  An account found by its
    email (compared in lower case), not locked at the first attempt, is
    given wrong passwords in a row, as many as bring its failure counter
    to [MAX_LOGIN_ATTEMPTS] (default 5).  All attempts but the last are
    answered "Invalid email or password"; the last is answered "Account has
    been temporarily locked due to too many failed login attempts" and
    leaves the account locked for [ACCOUNT_LOCKOUT_DURATION_MINUTES]
    (default 30) minutes from that attempt.  Until then every attempt, the
    right password included, is refused as locked and changes nothing. *)
Theorem repeated_failures_lock_the_account
    (compare : string → string → bool) (MAX LOCK : option Z)
    (email : string) (earlier : list (string * Z)) (password : string) (t : Z)
    (st : AuthStore) (user : Account) :
  auth_up st →
  find_account email (accounts st) = Some user →
  Forall (λ try, compare try.1 (acc_password_hash user) = false)
         (earlier ++ [(password, t)]) →
  is_locked user (default t (snd <$> head earlier)) = false →
  num_or (acc_login_attempts user) 0 + Z.of_nat (length earlier) + 1
  = maxAttempts MAX →
  let r := logins compare MAX LOCK email (earlier ++ [(password, t)]) st in
  let until := t + lockoutDuration LOCK * 60 * 1000 in
  r.1 = replicate (length earlier) (Refused (Some "Invalid email or password"))
        ++ [Refused (Some
              "Account has been temporarily locked due to too many failed login attempts")]
  ∧ (∃ user', find_account email (accounts r.2) = Some user'
              ∧ acc_locked_until user' = Some until
              ∧ acc_login_attempts user' = Some (maxAttempts MAX))
  ∧ ∀ password' t', t' < until →
      localStrategy compare MAX LOCK email password' t' r.2
      = (Refused (Some "Account is temporarily locked due to too many failed attempts"),
         mkAuthStore (accounts r.2) (tail (auth_faults r.2))).
Proof.
  intros Hup Hfind Hwrong Hfree Hcount r until.
  apply Forall_app in Hwrong as [Hearlier Hlast].
  rewrite Forall_singleton in Hlast. cbn [fst] in Hlast.
  destruct (failures_below_threshold compare MAX LOCK email earlier st user)
    as (st1 & user1 & Hlogins & Hup1 & Hfind1 & Hhash & Hcount1 & Hlock1
        & Hsame); try done.
  { intros Hne. destruct earlier as [|try rest]; [done|].
    exists try, rest. done. }
  { lia. }
  assert (is_locked user1 t = false) as Hfree1.
  { destruct earlier as [|try rest].
    - by rewrite (Hsame eq_refl).
    - unfold is_locked. by rewrite Hlock1. }
  destruct (failure_step compare MAX LOCK email password t st1 user1)
    as (st2 & Hrun & Hup2 & Hfind2); try done.
  { by rewrite Hhash. }
  cbv zeta in Hrun, Hfind2.
  rewrite (proj2 (Z.leb_le _ _)) in Hrun, Hfind2 by lia.
  assert (r = (replicate (length earlier) (Refused (Some "Invalid email or password"))
               ++ [Refused (Some
                     "Account has been temporarily locked due to too many failed login attempts")],
               st2)) as ->.
  { subst r. rewrite logins_app, Hlogins. cbn [logins]. by rewrite Hrun. }
  cbn [fst snd]. split; [done|]. split.
  - eexists. split; [exact Hfind2|]. split; [done|].
    cbn [record_failure acc_login_attempts]. f_equal. lia.
  - intros password' t' Hbefore.
    apply (locked_step compare MAX LOCK email password' t' st2 _ Hup2 Hfind2).
    unfold is_locked. cbn [record_failure acc_locked_until].
    by apply Z.ltb_lt.
Qed.

Lemma repeated_failures_lock_the_account_witness :
  let tries := [("a", 1); ("b", 2); ("c", 3); ("d", 4); ("e", 5)] in
  (logins sample_compare None None "Ann@Example.com" tries ann_store).1
  = replicate 4 (Refused (Some "Invalid email or password"))
    ++ [Refused (Some
          "Account has been temporarily locked due to too many failed login attempts")].
Proof.
  refine (proj1 (repeated_failures_lock_the_account sample_compare None None
            "Ann@Example.com" [("a", 1); ("b", 2); ("c", 3); ("d", 4)] "e" 5
            ann_store ann _ _ _ _ _)).
  - constructor.
  - reflexivity.
  - repeat constructor.
  - reflexivity.
  - reflexivity.
Defined.

(** X29. An expired lock leaves the counter where it was.  Once the lock
    has run out, with the failure counter at or above
    [MAX_LOGIN_ATTEMPTS], a single wrong password locks the account again
    at once, for the full duration, and raises the counter further.  Only a
    successful login resets it: the right password is granted (with the
    row as it was read), and the stored row then has counter 0, no lock,
    and the time of the login as [last_login]. *)
Theorem expired_lock_keeps_the_counter
    (compare : string → string → bool) (MAX LOCK : option Z)
    (email password : string) (now until : Z) (st : AuthStore)
    (user : Account) :
  auth_up st →
  find_account email (accounts st) = Some user →
  acc_locked_until user = Some until →
  until ≤ now →
  maxAttempts MAX ≤ num_or (acc_login_attempts user) 0 →
  let r := localStrategy compare MAX LOCK email password now st in
  (compare password (acc_password_hash user) = false →
   r.1 = Refused (Some
           "Account has been temporarily locked due to too many failed login attempts")
   ∧ find_account email (accounts r.2)
     = Some (record_failure (num_or (acc_login_attempts user) 0 + 1)
               (Some (now + lockoutDuration LOCK * 60 * 1000)) user))
  ∧ (compare password (acc_password_hash user) = true →
     r.1 = Granted user
     ∧ find_account email (accounts r.2) = Some (record_success now user)).
Proof.
  intros Hup Hfind Hlock Hexpired Hcount r.
  assert (is_locked user now = false) as Hfree.
  { unfold is_locked. rewrite Hlock. by apply Z.ltb_ge. }
  split.
  - intros Hwrong.
    destruct (failure_step compare MAX LOCK email password now st user)
      as (st' & Hrun & _ & Hfind'); try done.
    cbv zeta in Hrun, Hfind'.
    rewrite (proj2 (Z.leb_le _ _)) in Hrun, Hfind' by lia.
    subst r. by rewrite Hrun.
  - intros Hright.
    destruct (success_step compare MAX LOCK email password now st user)
      as (st' & Hrun & _ & Hfind'); try done.
    subst r. by rewrite Hrun.
Qed.

Lemma expired_lock_keeps_the_counter_witness :
  let locked :=
    mkAccount "a1" "ann@example.com" true "hash-of-secret" (Some 5) (Some 100)
              None in
  (localStrategy sample_compare None None "ann@example.com" "wrong" 200
     (mkAuthStore [locked] [])).1
  = Refused (Some
      "Account has been temporarily locked due to too many failed login attempts").
Proof.
  intros locked.
  refine (proj1 (proj1 (expired_lock_keeps_the_counter sample_compare None
            None "ann@example.com" "wrong" 200 100
            (mkAuthStore [locked] []) locked _ _ _ _ _) _)).
  - constructor.
  - reflexivity.
  - reflexivity.
  - lia.
  - vm_compute. discriminate.
  - reflexivity.
Defined.

(** ** Guesses between token requests *)

Lemma find_by_id_update (id : string) (Q : Account → Prop)
    `{∀ x, Decision (Q x)} (f : Account → Account) (a : list Account) :
  (∀ u, acc_id (f u) = acc_id u ∧ acc_is_active (f u) = acc_is_active u) →
  find_account_by_id id (update_where Q f a)
  = (λ x, if decide (Q x) then f x else x) <$> find_account_by_id id a.
Proof.
  intros Hf. unfold find_account_by_id, first_where, update_where.
  induction a as [|x a IH]; [done|].
  rewrite fmap_cons, !list.filter_cons.
  assert ((acc_id (if decide (Q x) then f x else x) = id
           ∧ acc_is_active (if decide (Q x) then f x else x) = true)
          ↔ (acc_id x = id ∧ acc_is_active x = true)) as Hiff.
  { case_decide; [|done]. destruct (Hf x) as [-> ->]. done. }
  destruct (decide (acc_id x = id ∧ acc_is_active x = true)) as [Hx|Hx].
  - by rewrite decide_True by by apply Hiff.
  - by rewrite decide_False by by rewrite Hiff.
Qed.

Lemma longest_run_ge (run : nat) (evs : list AuthEvent) :
  (run ≤ longest_run run evs)%nat.
Proof.
  revert run. induction evs as [|[pw t|t] evs IH]; intros run;
    cbn [longest_run]; [lia| |lia].
  specialize (IH (S run)). lia.
Qed.

Lemma guess_step (compare : string → string → bool) (MAX LOCK : option Z)
    (email id password : string) (now : Z) (st : AuthStore) (user : Account) :
  auth_up st →
  find_account email (accounts st) = Some user →
  find_account_by_id id (accounts st) = Some user →
  acc_locked_until user = None →
  compare password (acc_password_hash user) = false →
  num_or (acc_login_attempts user) 0 + 1 < maxAttempts MAX →
  let user' := record_failure (num_or (acc_login_attempts user) 0 + 1) None
                              user in
  ∃ st',
    localStrategy compare MAX LOCK email password now st
    = (Refused (Some "Invalid email or password"), st')
    ∧ auth_up st'
    ∧ find_account email (accounts st') = Some user'
    ∧ find_account_by_id id (accounts st') = Some user'.
Proof.
  intros Hup Hfind Hid Hfree Hwrong Hbelow user'. unfold localStrategy.
  destruct (auth_query_up (λ a, (find_account email a, a)) st Hup)
    as [-> Hup1].
  cbn [fst snd] in *. rewrite Hfind. unfold is_locked. rewrite Hfree, Hwrong.
  cbn [negb]. rewrite (proj2 (Z.leb_gt _ _)) by done.
  match goal with |- context [auth_query ?f ?st1] =>
    destruct (auth_query_up f st1 Hup1) as [-> Hup2]
  end.
  cbn [fst snd accounts auth_faults] in *.
  match type of Hup2 with auth_up ?s => exists s end.
  split; [done|]. split; [done|]. cbn [accounts].
  rewrite find_account_update, find_by_id_update by done.
  rewrite Hfind, Hid. cbn [fmap option_fmap option_map].
  by rewrite decide_True.
Qed.

Lemma token_step (email id : string) (now : Z) (st : AuthStore)
    (user : Account) :
  auth_up st →
  find_account email (accounts st) = Some user →
  find_account_by_id id (accounts st) = Some user →
  acc_locked_until user = None →
  ∃ st' user',
    jwtStrategy id now st = (Granted user, st')
    ∧ auth_up st'
    ∧ find_account email (accounts st') = Some user'
    ∧ find_account_by_id id (accounts st') = Some user'
    ∧ acc_locked_until user' = None
    ∧ acc_password_hash user' = acc_password_hash user
    ∧ (0 ≤ num_or (acc_login_attempts user) 0 →
       num_or (acc_login_attempts user') 0 = 0).
Proof.
  intros Hup Hfind Hid Hfree. unfold jwtStrategy.
  destruct (auth_query_up (λ a, (find_account_by_id id a, a)) st Hup)
    as [-> Hup1].
  cbn [fst snd] in *. rewrite Hid. unfold is_locked. rewrite Hfree.
  destruct (0 <? num_or (acc_login_attempts user) 0) eqn:Hpos.
  - match goal with |- context [auth_query ?f ?st1] =>
      destruct (auth_query_up f st1 Hup1) as [-> Hup2]
    end.
    cbn [fst snd accounts auth_faults] in *.
    match type of Hup2 with auth_up ?s => exists s, (record_reset user) end.
    split; [done|]. split; [done|]. cbn [accounts].
    rewrite find_account_update, find_by_id_update by done.
    rewrite Hfind, Hid. cbn [fmap option_fmap option_map].
    by rewrite decide_True by done.
  - match type of Hup1 with auth_up ?s => exists s, user end.
    split_and!; try done. apply Z.ltb_ge in Hpos. lia.
Qed.

(** X30. A request with the account's token wipes the failure counter.
    The JWT strategy, on every request of an account that is not locked,
    resets [login_attempts] to 0 and clears the lock.  So as long as fewer
    than [MAX_LOGIN_ATTEMPTS] wrong passwords arrive between two requests
    that carry the account's token, no number of wrong passwords locks the
    account: every guess is answered "Invalid email or password", every
    token request is granted, and the account ends without a lock. *)
Theorem token_requests_wipe_the_failure_counter
    (compare : string → string → bool) (MAX LOCK : option Z)
    (email id : string) (evs : list AuthEvent) (run : nat)
    (st : AuthStore) (user : Account) :
  auth_up st →
  find_account email (accounts st) = Some user →
  find_account_by_id id (accounts st) = Some user →
  acc_locked_until user = None →
  num_or (acc_login_attempts user) 0 = Z.of_nat run →
  Forall (λ ev, match ev with
                | Guess password _ =>
                    compare password (acc_password_hash user) = false
                | TokenRequest _ => True
                end) evs →
  Z.of_nat (longest_run run evs) < maxAttempts MAX →
  let r := auth_events compare MAX LOCK email id evs st in
  Forall2 (λ ev v, match ev with
                   | Guess _ _ => v = Refused (Some "Invalid email or password")
                   | TokenRequest _ => ∃ u, v = Granted u
                   end) evs r.1
  ∧ ∃ user', find_account email (accounts r.2) = Some user'
             ∧ acc_locked_until user' = None.
Proof.
  revert run st user.
  induction evs as [|[password now|now] evs IH];
    intros run st user Hup Hfind Hid Hfree Hcount Hwrong Hruns r.
  - subst r. cbn [auth_events fst snd]. split; [constructor|]. eauto.
  - apply Forall_cons in Hwrong as [Hpw Hwrong].
    cbn [longest_run] in Hruns.
    pose proof (longest_run_ge (S run) evs) as Hge.
    destruct (guess_step compare MAX LOCK email id password now st user)
      as (st1 & Hrun & Hup1 & Hfind1 & Hid1); try done; [lia|].
    cbv zeta in Hfind1, Hid1.
    destruct (IH (S run) st1 _ Hup1 Hfind1 Hid1) as [Hall Hend];
      try done.
    { cbn [record_failure acc_login_attempts]. rewrite num_or_Some_0. lia. }
    subst r. cbn [auth_events]. rewrite Hrun.
    cbv zeta in Hall, Hend.
    destruct (auth_events compare MAX LOCK email id evs st1) as [vs st2].
    cbn [fst snd] in *. split; [by constructor|done].
  - apply Forall_cons in Hwrong as [_ Hwrong].
    cbn [longest_run] in Hruns.
    destruct (token_step email id now st user)
      as (st1 & user1 & Hrun & Hup1 & Hfind1 & Hid1 & Hfree1 & Hhash & Hzero);
      try done.
    destruct (IH 0%nat st1 user1 Hup1 Hfind1 Hid1 Hfree1) as [Hall Hend].
    { rewrite Hzero; [done|lia]. }
    { by rewrite Hhash. }
    { lia. }
    subst r. cbn [auth_events]. rewrite Hrun.
    cbv zeta in Hall, Hend.
    destruct (auth_events compare MAX LOCK email id evs st1) as [vs st2].
    cbn [fst snd] in *. split; [constructor; eauto|done].
Qed.

Lemma token_requests_wipe_the_failure_counter_witness :
  ∃ user', find_account "ann@example.com"
             (accounts (auth_events sample_compare None None "ann@example.com"
                          "a1" guessing ann_store).2) = Some user'
           ∧ acc_locked_until user' = None.
Proof.
  refine (proj2 (token_requests_wipe_the_failure_counter sample_compare None
            None "ann@example.com" "a1" guessing 0 ann_store ann
            _ _ _ _ _ _ _)).
  - constructor.
  - reflexivity.
  - reflexivity.
  - reflexivity.
  - reflexivity.
  - repeat constructor.
  - vm_compute. reflexivity.
Defined.

(** ** Reactivation through the whole invite route *)





(** The specification promises the sender its own copy of every message
    it sends (C6).  [chat:message] neither checks nor establishes that
    the sender sits in the room: the outsider's session, connected but
    never joined to the chat room of [h1], sends "  hello " there; the
    message is stored and broadcast to the room, that is to [s0] alone,
    and the sender's inbox is as it was. *)
Lemma sender_outside_the_room_gets_no_copy :
  let w := sender_outside_world in
  let w' := (run (on_chat_message outsider hello) w).2 in
  let stored := mkChat "uuid-0" "household" "h1" "u7" "hello" None 10 in
  let sent :=
    mkMessageData "uuid-0" "household" "h1"
      (mkUserInfo "u7" "user7" "First" "Last") "hello" None 10 in
  chat_messages (db w') = chat_messages (db w) ++ [stored]
  ∧ emitted (hub w')
    = emitted (hub w)
      ++ [mkEmission (ToRoom "chat:household:h1") (chat_message sent) ["s0"]]
  ∧ inbox "s7" (emitted (hub w')) = inbox "s7" (emitted (hub w))
  ∧ sockets (hub w) !! "s7" = Some outsider.
Proof. vm_compute. repeat split. Qed.
